(** * king_bot: the quiz publication and grading engine of [main.py]

    A shallow embedding of the part of [main.py] that publishes quizzes,
    grades answers and merges quizzes, with the properties that its
    specification states about it.

    The program keeps its state in an SQLite file, in one process-wide
    dictionary ([pending_names]) and in the chat transport.  The embedding
    makes all three explicit: a [database] record with one list of rows per
    table, a [world] that adds the dictionary, the clock and the transport
    to it, and a state-and-exception monad [M] in which the handlers are
    written statement by statement. *)

From stdpp Require Import base decidable option list sorting gmap strings.
From Stdlib Require Import ZArith Lia Ascii.

Local Open Scope Z_scope.

(** ** Rows

    One record per table of [_ensure_schema].  INTEGER columns are [Z],
    TEXT columns are [string], nullable columns are [option].  The surrogate
    [id] column is kept only where the program reads it (quizzes, questions,
    media bundles); in the other tables the list order is the order of
    insertion, which is the order of the AUTOINCREMENT [id]. *)

Record quiz_row := {
  qz_id : Z;
  qz_title : string;
  qz_created_by : Z;
  qz_created_at : string;
  qz_is_archived : Z }.

Record question_row := {
  q_id : Z;
  q_quiz_id : Z;
  q_text : string;
  q_created_at : string;
  q_media_bundle_id : option Z;
  (* legacy columns, read by [migrate_legacy_media] only *)
  q_photo : option string;
  q_audio : option string;
  q_audio_is_voice : option Z }.

Record option_row := {
  o_question_id : Z;
  o_option_index : Z;
  o_text : string;
  o_is_correct : Z }.

Record response_row := {
  r_chat_id : Z;
  r_user_id : Z;
  r_question_id : Z;
  r_option_index : Z;
  r_is_correct : Z;
  r_answered_at : string }.

Record progress_row := {
  p_origin_chat_id : Z;
  p_user_id : Z;
  p_quiz_id : Z;
  p_q_pos : Z;
  p_started_at : string;
  p_finished_at : option string }.

Record sent_msg_row := {
  s_chat_id : Z;
  s_quiz_id : Z;
  s_message_id : Z;
  s_expires_at : option string }.

Record participant_row := {
  n_origin_chat_id : Z;
  n_user_id : Z;
  n_quiz_id : Z;
  n_name : string }.

(** [question_attachments] and [media_bundle_attachments] have the same
    columns; [att_owner] is [question_id] in the first and [bundle_id] in the
    second. *)
Record attachment_row := {
  att_owner : Z;
  att_kind : string;
  att_file_id : string;
  att_position : Z }.

Record bundle_row := {
  b_id : Z;
  b_quiz_id : Z;
  b_created_at : string }.

(** Rows are compared field by field. *)
#[global] Instance quiz_row_eq_dec : EqDecision quiz_row.
Proof. solve_decision. Defined.
#[global] Instance question_row_eq_dec : EqDecision question_row.
Proof. solve_decision. Defined.
#[global] Instance option_row_eq_dec : EqDecision option_row.
Proof. solve_decision. Defined.
#[global] Instance response_row_eq_dec : EqDecision response_row.
Proof. solve_decision. Defined.
#[global] Instance progress_row_eq_dec : EqDecision progress_row.
Proof. solve_decision. Defined.
#[global] Instance sent_msg_row_eq_dec : EqDecision sent_msg_row.
Proof. solve_decision. Defined.
#[global] Instance participant_row_eq_dec : EqDecision participant_row.
Proof. solve_decision. Defined.
#[global] Instance attachment_row_eq_dec : EqDecision attachment_row.
Proof. solve_decision. Defined.
#[global] Instance bundle_row_eq_dec : EqDecision bundle_row.
Proof. solve_decision. Defined.

(** ** The database

    [seq_*] is the [sqlite_sequence] entry of an AUTOINCREMENT table whose
    ids the program hands out with [cur.lastrowid]. *)

Record database := {
  quizzes : list quiz_row;
  seq_quizzes : Z;
  questions : list question_row;
  seq_questions : Z;
  options : list option_row;
  responses : list response_row;
  user_progress : list progress_row;
  sent_msgs : list sent_msg_row;
  participant_names : list participant_row;
  question_attachments : list attachment_row;
  media_bundles : list bundle_row;
  seq_media_bundles : Z;
  media_bundle_attachments : list attachment_row }.

Definition empty_database : database :=
  {| quizzes := []; seq_quizzes := 0;
     questions := []; seq_questions := 0;
     options := []; responses := []; user_progress := [];
     sent_msgs := []; participant_names := [];
     question_attachments := [];
     media_bundles := []; seq_media_bundles := 0;
     media_bundle_attachments := [] |}.

Definition set_quizzes (v : list quiz_row) (s : Z) (d : database) : database :=
  {| quizzes := v; seq_quizzes := s;
     questions := questions d; seq_questions := seq_questions d;
     options := options d; responses := responses d;
     user_progress := user_progress d; sent_msgs := sent_msgs d;
     participant_names := participant_names d;
     question_attachments := question_attachments d;
     media_bundles := media_bundles d;
     seq_media_bundles := seq_media_bundles d;
     media_bundle_attachments := media_bundle_attachments d |}.

Definition set_questions (v : list question_row) (s : Z) (d : database) : database :=
  {| quizzes := quizzes d; seq_quizzes := seq_quizzes d;
     questions := v; seq_questions := s;
     options := options d; responses := responses d;
     user_progress := user_progress d; sent_msgs := sent_msgs d;
     participant_names := participant_names d;
     question_attachments := question_attachments d;
     media_bundles := media_bundles d;
     seq_media_bundles := seq_media_bundles d;
     media_bundle_attachments := media_bundle_attachments d |}.

Definition set_options (v : list option_row) (d : database) : database :=
  {| quizzes := quizzes d; seq_quizzes := seq_quizzes d;
     questions := questions d; seq_questions := seq_questions d;
     options := v; responses := responses d;
     user_progress := user_progress d; sent_msgs := sent_msgs d;
     participant_names := participant_names d;
     question_attachments := question_attachments d;
     media_bundles := media_bundles d;
     seq_media_bundles := seq_media_bundles d;
     media_bundle_attachments := media_bundle_attachments d |}.

Definition set_responses (v : list response_row) (d : database) : database :=
  {| quizzes := quizzes d; seq_quizzes := seq_quizzes d;
     questions := questions d; seq_questions := seq_questions d;
     options := options d; responses := v;
     user_progress := user_progress d; sent_msgs := sent_msgs d;
     participant_names := participant_names d;
     question_attachments := question_attachments d;
     media_bundles := media_bundles d;
     seq_media_bundles := seq_media_bundles d;
     media_bundle_attachments := media_bundle_attachments d |}.

Definition set_user_progress (v : list progress_row) (d : database) : database :=
  {| quizzes := quizzes d; seq_quizzes := seq_quizzes d;
     questions := questions d; seq_questions := seq_questions d;
     options := options d; responses := responses d;
     user_progress := v; sent_msgs := sent_msgs d;
     participant_names := participant_names d;
     question_attachments := question_attachments d;
     media_bundles := media_bundles d;
     seq_media_bundles := seq_media_bundles d;
     media_bundle_attachments := media_bundle_attachments d |}.

Definition set_sent_msgs (v : list sent_msg_row) (d : database) : database :=
  {| quizzes := quizzes d; seq_quizzes := seq_quizzes d;
     questions := questions d; seq_questions := seq_questions d;
     options := options d; responses := responses d;
     user_progress := user_progress d; sent_msgs := v;
     participant_names := participant_names d;
     question_attachments := question_attachments d;
     media_bundles := media_bundles d;
     seq_media_bundles := seq_media_bundles d;
     media_bundle_attachments := media_bundle_attachments d |}.

Definition set_participant_names (v : list participant_row) (d : database) : database :=
  {| quizzes := quizzes d; seq_quizzes := seq_quizzes d;
     questions := questions d; seq_questions := seq_questions d;
     options := options d; responses := responses d;
     user_progress := user_progress d; sent_msgs := sent_msgs d;
     participant_names := v;
     question_attachments := question_attachments d;
     media_bundles := media_bundles d;
     seq_media_bundles := seq_media_bundles d;
     media_bundle_attachments := media_bundle_attachments d |}.

Definition set_question_attachments (v : list attachment_row) (d : database) : database :=
  {| quizzes := quizzes d; seq_quizzes := seq_quizzes d;
     questions := questions d; seq_questions := seq_questions d;
     options := options d; responses := responses d;
     user_progress := user_progress d; sent_msgs := sent_msgs d;
     participant_names := participant_names d;
     question_attachments := v;
     media_bundles := media_bundles d;
     seq_media_bundles := seq_media_bundles d;
     media_bundle_attachments := media_bundle_attachments d |}.

Definition set_media_bundles (v : list bundle_row) (s : Z) (d : database) : database :=
  {| quizzes := quizzes d; seq_quizzes := seq_quizzes d;
     questions := questions d; seq_questions := seq_questions d;
     options := options d; responses := responses d;
     user_progress := user_progress d; sent_msgs := sent_msgs d;
     participant_names := participant_names d;
     question_attachments := question_attachments d;
     media_bundles := v;
     seq_media_bundles := s;
     media_bundle_attachments := media_bundle_attachments d |}.

Definition set_media_bundle_attachments (v : list attachment_row) (d : database) : database :=
  {| quizzes := quizzes d; seq_quizzes := seq_quizzes d;
     questions := questions d; seq_questions := seq_questions d;
     options := options d; responses := responses d;
     user_progress := user_progress d; sent_msgs := sent_msgs d;
     participant_names := participant_names d;
     question_attachments := question_attachments d;
     media_bundles := media_bundles d;
     seq_media_bundles := seq_media_bundles d;
     media_bundle_attachments := v |}.

(** ** SQL building blocks *)

(** [ORDER BY key]: a stable insertion sort on an integer column. *)
Fixpoint insert_by {A} (key : A → Z) (x : A) (l : list A) : list A :=
  match l with
  | [] => [x]
  | y :: l' => if decide (key x ≤ key y) then x :: l else y :: insert_by key x l'
  end.

Definition order_by {A} (key : A → Z) (l : list A) : list A :=
  foldr (insert_by key) [] l.

(** The id that an AUTOINCREMENT table gives to the next row: one more than
    the largest id the table has ever held. *)
Definition max_id (ids : list Z) : Z := foldr Z.max 0 ids.

Definition next_id (ids : list Z) (seq : Z) : Z := Z.max seq (max_id ids) + 1.

(** Python truthiness of a nullable INTEGER and of a nullable TEXT. *)
Definition truthy_int (v : option Z) : option Z :=
  match v with
  | Some n => if decide (n = 0) then None else Some n
  | None => None
  end.

Definition truthy_text (v : option string) : option string :=
  match v with
  | Some s => if decide (s = EmptyString) then None else Some s
  | None => None
  end.

(** ** Queries of the helper section

    Each definition is the SELECT of the function of the same name. *)

(** [SELECT id FROM questions WHERE quiz_id=? ORDER BY id] *)
Definition questions_of_quiz (d : database) (quiz_id : Z) : list question_row :=
  order_by q_id (filter (λ q, q_quiz_id q = quiz_id) (questions d)).

Definition get_quiz_question_ids (d : database) (quiz_id : Z) : list Z :=
  q_id <$> questions_of_quiz d quiz_id.

(** [SELECT option_index, text, is_correct FROM options
     WHERE question_id=? ORDER BY option_index] *)
Definition options_for_question (d : database) (question_id : Z) : list option_row :=
  order_by o_option_index (filter (λ o, o_question_id o = question_id) (options d)).

(** [SELECT kind, file_id, position FROM question_attachments
     WHERE question_id=? ORDER BY position] *)
Definition get_question_atts (d : database) (question_id : Z) : list attachment_row :=
  order_by att_position
    (filter (λ a, att_owner a = question_id) (question_attachments d)).

(** [SELECT kind, file_id, position FROM media_bundle_attachments
     WHERE bundle_id=? ORDER BY position] *)
Definition get_bundle_atts (d : database) (bundle_id : Z) : list attachment_row :=
  order_by att_position
    (filter (λ a, att_owner a = bundle_id) (media_bundle_attachments d)).

(** [SELECT ... FROM questions WHERE id=?] and [SELECT * FROM quizzes WHERE id=?],
    with [fetchone]. *)
Definition question_by_id (d : database) (question_id : Z) : option question_row :=
  head (filter (λ q, q_id q = question_id) (questions d)).

Definition quiz_by_id (d : database) (quiz_id : Z) : option quiz_row :=
  head (filter (λ z, qz_id z = quiz_id) (quizzes d)).

(** [SELECT 1 FROM participant_names WHERE origin_chat_id=? AND user_id=? AND quiz_id=?] *)
Definition participant_of (d : database) (chat_id user_id quiz_id : Z) : option participant_row :=
  head (filter (λ n, n_origin_chat_id n = chat_id ∧ n_user_id n = user_id ∧ n_quiz_id n = quiz_id)
          (participant_names d)).

(** [SELECT 1 FROM responses WHERE chat_id=? AND user_id=? AND question_id=?] *)
Definition response_of (d : database) (chat_id user_id question_id : Z) : option response_row :=
  head (filter (λ r, r_chat_id r = chat_id ∧ r_user_id r = user_id ∧ r_question_id r = question_id)
          (responses d)).

(** [SELECT text, is_correct FROM options WHERE question_id=? AND option_index=?] *)
Definition option_of (d : database) (question_id option_index : Z) : option option_row :=
  head (filter (λ o, o_question_id o = question_id ∧ o_option_index o = option_index)
          (options d)).

(** [SELECT 1 FROM user_progress WHERE origin_chat_id=? AND user_id=? AND quiz_id=?] *)
Definition progress_of (d : database) (chat_id user_id quiz_id : Z) : option progress_row :=
  head (filter (λ p, p_origin_chat_id p = chat_id ∧ p_user_id p = user_id ∧ p_quiz_id p = quiz_id)
          (user_progress d)).

(** ** What the bot sends

    The texts of the messages are fixed Arabic sentences with the values of
    a few local variables spliced in.  A message is represented by a
    constructor that names the sentence and carries those values. *)

(** [circ_num]: the label in front of an option, a circled digit for the
    first ten ([CIRCLED[idx]]) and [f"{idx+1})"] beyond. *)
Inductive glyph := Circled (digit : Z) | Numbered (n : Z).

Definition circ_num (idx : Z) : glyph :=
  if decide (0 ≤ idx < 10) then Circled (idx + 1) else Numbered (idx + 1).

Inductive callback_data :=
| CbStart (quiz_id : Z)                                  (* f"start:{quiz_id}" *)
| CbAns (question_id option_index target_user_id : Z).   (* f"ans:{qid}:{idx}:{target}" *)

Record button := {
  btn_glyph : option glyph;
  btn_text : string;
  btn_data : callback_data }.

Inductive api_method := send_message | send_photo | send_voice | send_audio.

Inductive body :=
| HeadText (title : string) (expires_at : option string)  (* the announcement of a quiz *)
| PlainText (text : string)
| FileId (file_id : string).

(** One call made through [_safe_send]. *)
Record outgoing := {
  out_method : api_method;
  out_chat : Z;
  out_body : body;
  out_caption : option string;
  out_markup : option (list button) }.

(** Where in [_do_publish] a unit is sent from; the Bot API does not see it. *)
Inductive origin :=
| OfHead
| OfBundle (bundle_id : Z)
| OfQuestion (question_id : Z).

(** Texts of [cb.answer]. *)
Inductive popup :=
| PopNone                       (* cb.answer() *)
| PopWrongTarget                (* the question is addressed to another participant *)
| PopQuestionMissing            (* no such question *)
| PopExpiredAnswer              (* the time is over, no answer is possible *)
| PopExpiredBegin               (* the time is over, no start is possible *)
| PopBadData                    (* malformed callback data *)
| PopAlreadyAnswered            (* your answer to this question is recorded *)
| PopGoodLuck                   (* go ahead with the published questions *)
| PopFeedback (is_correct : Z) (q_text correct_text your_text : string)
| PopFinished (total : Z) (n : nat)
| PopSameQuiz.                  (* the two quizzes are the same *)

(** Texts posted to a chat.  [TxtFinalResult] shows the participant and
    [total / n]; [quiz_id] is the quiz of the handler that posts it. *)
Inductive chat_text :=
| TxtAskName (user_id : Z)
| TxtAskNameThenRetry (user_id : Z)
| TxtNameSaved (name : string)
| TxtFinalResult (quiz_id : Z) (name : option string) (user_id : Z) (total : Z) (n : nat)
| TxtInvalidQuiz
| TxtOwnerOnly
| TxtBadHours
| TxtAskHours
| TxtMerged (new_quiz_id : Z).

Inductive effect :=
| CbAnswer (p : popup) (show_alert : bool)
| BotSendMessage (chat_id : Z) (t : chat_text)
| MsgReply (t : chat_text)
| EditText (t : chat_text)
| SafeSend (o : origin) (u : outgoing) (delivered : option Z)
| SendSticker (chat_id : Z) (sticker : string)
| SendAnimation (chat_id : Z) (animation : string)
| StateSet (name : string)      (* state.set_state *)
| StateClear.                   (* state.clear *)

(** The statements that change the database, as they are executed. *)
Inductive sql_write :=
| InsQuiz (id : Z)
| InsQuestion (id : Z)
| InsOption (question_id : Z)
| InsResponse (chat_id user_id question_id : Z)
| InsProgress (chat_id user_id quiz_id : Z)
| UpdProgress (chat_id user_id quiz_id : Z)
| InsSentMsg (chat_id quiz_id : Z)
| ReplaceParticipant (chat_id user_id quiz_id : Z)
| InsQuestionAttachment (question_id : Z)
| InsBundle (id : Z)
| InsBundleAttachment (bundle_id : Z).

(** What the transport answers to one call of a send method. *)
Inductive reply :=
| Sent (message_id : Z)
| RetryAfter           (* TelegramRetryAfter *)
| Failed.              (* any other exception *)

(** ** The world

    [pending_names] is the module-level dictionary; its values are all
    [True], so the keys are kept, in insertion order.  [ticks] counts the
    readings of the clock and [api_calls] the calls made through
    [_safe_send]; [outbox] and [journal] collect what was sent and what was
    written. *)

Record world := {
  store : database;
  pending_names : list (Z * Z * Z);
  ticks : nat;
  api_calls : nat;
  outbox : list effect;
  journal : list sql_write }.

Definition empty_world : world :=
  {| store := empty_database; pending_names := []; ticks := 0%nat;
     api_calls := 0%nat; outbox := []; journal := [] |}.

Definition with_store (d : database) (w : world) : world :=
  {| store := d; pending_names := pending_names w; ticks := ticks w;
     api_calls := api_calls w; outbox := outbox w; journal := journal w |}.

(** ** The monad of the handlers: state, and exceptions that keep the state *)

Inductive exn := IntegrityError | TypeError.

Inductive result (A : Type) :=
| Ok (a : A)
| Raised (e : exn).
Arguments Ok {A} a.
Arguments Raised {A} e.

Definition M (A : Type) : Type := world → result A * world.

#[global] Instance M_ret : MRet M := λ A a w, (Ok a, w).

#[global] Instance M_bind : MBind M := λ A B f m w,
  match m w with
  | (Ok a, w') => f a w'
  | (Raised e, w') => (Raised e, w')
  end.

Definition raise {A} (e : exn) : M A := λ w, (Raised e, w).

Definition read : M database := λ w, (Ok (store w), w).

(** [conn.execute] of a writing statement followed by [conn.commit]. *)
Definition execute (j : sql_write) (f : database → database) : M unit := λ w,
  (Ok (),
   {| store := f (store w); pending_names := pending_names w; ticks := ticks w;
      api_calls := api_calls w; outbox := outbox w; journal := journal w ++ [j] |}).

Definition emit (e : effect) : M unit := λ w,
  (Ok (),
   {| store := store w; pending_names := pending_names w; ticks := ticks w;
      api_calls := api_calls w; outbox := outbox w ++ [e]; journal := journal w |}).

Definition get_pending : M (list (Z * Z * Z)) := λ w, (Ok (pending_names w), w).

Definition put_pending (p : list (Z * Z * Z)) : M unit := λ w,
  (Ok (),
   {| store := store w; pending_names := p; ticks := ticks w;
      api_calls := api_calls w; outbox := outbox w; journal := journal w |}).

Fixpoint for_each {A} (l : list A) (f : A → M unit) : M unit :=
  match l with
  | [] => mret ()
  | x :: l' => f x;; for_each l' f
  end.

(** Running a handler: the result is dropped, the world is kept, also when
    the handler raised (the dispatcher logs the exception and goes on). *)
Definition exec {A} (m : M A) (w : world) : world := (m w).2.

(** [pending_names[key] = True] and [del pending_names[key]]. *)
Definition dict_set (k : Z * Z * Z) (p : list (Z * Z * Z)) : list (Z * Z * Z) :=
  if decide (k ∈ p) then p else p ++ [k].

Definition dict_del (k : Z * Z * Z) (p : list (Z * Z * Z)) : list (Z * Z * Z) :=
  filter (λ k', k' ≠ k) p.

(** A parsed timestamp: with a UTC offset it denotes an instant; without one
    it is naive, and Python refuses to compare it with an aware one. *)
Inductive datetime :=
| Aware (instant : Z)
| Naive (wall : Z).


(** ** A concrete environment and concrete stores for the examples

    The clock gives one minute to every reading, starting at
    2024-01-01T00:00:00 UTC.  Timestamps are written and read in the format
    of [datetime.isoformat], [YYYY-MM-DDTHH:MM:SS[.ffffff][+00:00]]. *)

Definition sample_epoch : Z := 1704067200000000.

Definition sample_clock (n : nat) : Z := sample_epoch + Z.of_nat n * 60000000.

Definition digit (n : Z) : ascii := ascii_of_nat (Z.to_nat (48 + n `mod` 10)).

Fixpoint digits (width : nat) (n : Z) : string :=
  match width with
  | O => EmptyString
  | S k => digits k (n `div` 10) +:+ String (digit n) EmptyString
  end.

(** The civil date of a day number counted from 1970-01-01, and back. *)
Definition civil_from_days (days : Z) : Z * Z * Z :=
  let z := days + 719468 in
  let era := z `div` 146097 in
  let doe := z - era * 146097 in
  let yoe := (doe - doe `div` 1460 + doe `div` 36524 - doe `div` 146096) `div` 365 in
  let doy := doe - (365 * yoe + yoe `div` 4 - yoe `div` 100) in
  let mp := (5 * doy + 2) `div` 153 in
  let d := doy - (153 * mp + 2) `div` 5 + 1 in
  let m := if decide (mp < 10) then mp + 3 else mp - 9 in
  let y := yoe + era * 400 + (if decide (m ≤ 2) then 1 else 0) in
  (y, m, d).

Definition days_from_civil (y m d : Z) : Z :=
  let y := y - (if decide (m ≤ 2) then 1 else 0) in
  let era := y `div` 400 in
  let yoe := y - era * 400 in
  let doy := (153 * (if decide (m > 2) then m - 3 else m + 9) + 2) `div` 5 + d - 1 in
  let doe := yoe * 365 + yoe `div` 4 - yoe `div` 100 + doy in
  era * 146097 + doe - 719468.

Definition sample_isoformat (t : Z) : string :=
  let day := 86400000000 in
  let '(y, m, d) := civil_from_days (t `div` day) in
  let r := t `mod` day in
  let us := r `mod` 1000000 in
  let s := r `div` 1000000 in
  digits 4 y +:+ "-" +:+ digits 2 m +:+ "-" +:+ digits 2 d +:+ "T" +:+
  digits 2 (s `div` 3600) +:+ ":" +:+ digits 2 ((s `div` 60) `mod` 60) +:+ ":" +:+
  digits 2 (s `mod` 60) +:+
  (if decide (us = 0) then EmptyString else "." +:+ digits 6 us) +:+ "+00:00".

Fixpoint number (cs : list ascii) (acc : Z) : option Z :=
  match cs with
  | [] => Some acc
  | c :: cs' =>
      let v := Z.of_nat (nat_of_ascii c) - 48 in
      if decide (0 ≤ v ≤ 9) then number cs' (10 * acc + v) else None
  end.

Definition utc_suffix : list ascii := String.list_ascii_of_string "+00:00".

Definition sample_fromisoformat (text : string) : option datetime :=
  match String.list_ascii_of_string text with
  | y1 :: y2 :: y3 :: y4 :: c1 :: m1 :: m2 :: c2 :: d1 :: d2 :: c3 ::
    h1 :: h2 :: c4 :: n1 :: n2 :: c5 :: s1 :: s2 :: rest =>
      if decide (String.string_of_list_ascii [c1; c2; c3; c4; c5] = "--T::") then
        y ← number [y1; y2; y3; y4] 0;
        m ← number [m1; m2] 0;
        d ← number [d1; d2] 0;
        h ← number [h1; h2] 0;
        n ← number [n1; n2] 0;
        s ← number [s1; s2] 0;
        '(us, rest') ←
          match rest with
          | dot :: f1 :: f2 :: f3 :: f4 :: f5 :: f6 :: rest' =>
              if decide (String.string_of_list_ascii [dot] = ".") then
                us ← number [f1; f2; f3; f4; f5; f6] 0; Some (us, rest')
              else Some (0, rest)
          | _ => Some (0, rest)
          end;
        if decide (1 ≤ m ≤ 12 ∧ 1 ≤ d ≤ 31 ∧ h < 24 ∧ n < 60 ∧ s < 60) then
          let t := ((days_from_civil y m d * 24 + h) * 60 + n) * 60 + s in
          let t := t * 1000000 + us in
          if decide (rest' = []) then Some (Naive t)
          else if decide (rest' = utc_suffix) then Some (Aware t)
          else None
        else None
      else None
  | _ => None
  end.

Definition sample_strip (s : string) : string := s.

Definition sample_transport (n : nat) : reply := Sent (500 + Z.of_nat n).

(** A store with two quizzes.  Quiz 1 has the questions 1 and 2; question 1
    refers to bundle 1, which holds two attachments, and question 2 has a
    photo of its own.  Quiz 2 has the questions 3, 4 and 5, which all refer
    to bundle 2. *)
Definition sample_question (id quiz_id : Z) (text : string) (bundle : option Z) : question_row :=
  {| q_id := id; q_quiz_id := quiz_id; q_text := text;
     q_created_at := "2023-12-01T10:00:00+00:00";
     q_media_bundle_id := bundle;
     q_photo := None; q_audio := None; q_audio_is_voice := Some 0 |}.

Definition sample_option (question_id idx : Z) (text : string) (correct : Z) : option_row :=
  {| o_question_id := question_id; o_option_index := idx; o_text := text;
     o_is_correct := correct |}.

Definition sample_att (owner : Z) (kind file : string) (pos : Z) : attachment_row :=
  {| att_owner := owner; att_kind := kind; att_file_id := file; att_position := pos |}.

Definition sample_store : database :=
  {| quizzes :=
       [ {| qz_id := 1; qz_title := "Capitals"; qz_created_by := 7;
            qz_created_at := "2023-12-01T09:00:00+00:00"; qz_is_archived := 0 |};
         {| qz_id := 2; qz_title := "Rivers"; qz_created_by := 7;
            qz_created_at := "2023-12-02T09:00:00+00:00"; qz_is_archived := 0 |} ];
     seq_quizzes := 2;
     questions :=
       [ sample_question 1 1 "Capital of France?" (Some 1);
         sample_question 2 1 "Capital of Norway?" None;
         sample_question 3 2 "Longest river?" (Some 2);
         sample_question 4 2 "River through Cairo?" (Some 2);
         sample_question 5 2 "River through Vienna?" (Some 2) ];
     seq_questions := 5;
     options :=
       [ sample_option 1 0 "Paris" 1; sample_option 1 1 "Rome" 0;
         sample_option 2 0 "Bern" 0; sample_option 2 1 "Oslo" 1;
         sample_option 3 0 "Nile" 1; sample_option 3 1 "Rhine" 0;
         sample_option 4 0 "Nile" 1; sample_option 4 1 "Volga" 0;
         sample_option 5 0 "Elbe" 0; sample_option 5 1 "Danube" 1 ];
     responses := [];
     user_progress := [];
     sent_msgs := [];
     participant_names :=
       [ {| n_origin_chat_id := 100; n_user_id := 5; n_quiz_id := 1; n_name := "Lina" |} ];
     question_attachments := [ sample_att 2 "photo" "file-oslo" 0 ];
     media_bundles :=
       [ {| b_id := 1; b_quiz_id := 1; b_created_at := "2023-12-01T09:30:00+00:00" |};
         {| b_id := 2; b_quiz_id := 2; b_created_at := "2023-12-02T09:30:00+00:00" |} ];
     seq_media_bundles := 2;
     media_bundle_attachments :=
       [ sample_att 1 "voice" "file-anthem" 1; sample_att 1 "photo" "file-map" 0;
         sample_att 2 "photo" "file-rivers" 0 ] |}.

Definition sample_world : world :=
  {| store := sample_store; pending_names := []; ticks := 0%nat;
     api_calls := 0%nat; outbox := []; journal := [] |}.

(** The same world after user 5 answered question 1 in chat 100. *)
Definition sample_answered : world :=
  {| store :=
       set_responses
         [ {| r_chat_id := 100; r_user_id := 5; r_question_id := 1; r_option_index := 0;
              r_is_correct := 1; r_answered_at := "2024-01-01T00:00:00+00:00" |} ]
         sample_store;
     pending_names := []; ticks := 0%nat;
     api_calls := 0%nat; outbox := []; journal := [] |}.

(** And two hours after quiz 1 was published in chat 100 for one hour. *)
Definition sample_expired : world :=
  {| store :=
       set_sent_msgs
         [ {| s_chat_id := 100; s_quiz_id := 1; s_message_id := 500;
              s_expires_at := Some "2024-01-01T01:00:00+00:00" |} ]
         (store sample_answered);
     pending_names := []; ticks := 120%nat;
     api_calls := 0%nat; outbox := []; journal := [] |}.

(** A store from before attachments had a table of their own: question 1
    of quiz 1 carries a photo and a voice note in its legacy columns. *)
Definition sample_legacy_question : question_row :=
  {| q_id := 1; q_quiz_id := 1; q_text := "Which anthem is this?";
     q_created_at := "2023-11-01T10:00:00+00:00"; q_media_bundle_id := None;
     q_photo := Some "file-flag"; q_audio := Some "file-anthem"; q_audio_is_voice := Some 1 |}.

Definition sample_legacy : world :=
  {| store := set_questions [sample_legacy_question] 1
                (set_quizzes
                   [ {| qz_id := 1; qz_title := "Anthems"; qz_created_by := 7;
                        qz_created_at := "2023-11-01T09:00:00+00:00"; qz_is_archived := 0 |} ]
                   1 empty_database);
     pending_names := []; ticks := 0%nat; api_calls := 0%nat; outbox := []; journal := [] |}.

(** [int] on a text of decimal digits, and a CSV reader for one text of
    three lines: a question with two options, a question with one option,
    and a question whose correct option is not a number. *)
Definition sample_int (text : string) : option Z :=
  match String.list_ascii_of_string text with
  | [] => None
  | cs => number cs 0
  end.

Definition sample_csv : string :=
  "question,options,correct,attachments
Capital of Peru?,Lima|Quito,1,photo:file-lima
Capital of Chile?,Santiago,1,
Capital of Cuba?,Havana|Lima,x,".

Definition sample_DictReader (text : string) : list (gmap string string) :=
  if decide (text = sample_csv) then
    [ {[ "question" := "Capital of Peru?"; "options" := "Lima|Quito";
         "correct" := "1"; "attachments" := "photo:file-lima" ]};
      {[ "question" := "Capital of Chile?"; "options" := "Santiago";
         "correct" := "1"; "attachments" := "" ]};
      {[ "question" := "Capital of Cuba?"; "options" := "Havana|Lima";
         "correct" := "x"; "attachments" := "" ]} ]
  else [].
Section Engine.

Set Default Proof Using "Type".

(** What the program takes from its environment: the clock behind
    [datetime.now(timezone.utc)] (microseconds, one reading per call), the
    two conversions of [datetime], [str.strip], the settings read from
    [.env], and the answers of the transport to the calls made through
    [_safe_send]. *)
Variable clock : nat → Z.
Variable isoformat : Z → string.
Variable fromisoformat : string → option datetime.
Variable strip : string → string.
Variable OWNER_ID : Z.
Variable CORRECT_STICKER_ID : string.
Variable WRONG_STICKER_ID : string.
Variable CORRECT_ANIM_ID : string.
Variable WRONG_ANIM_ID : string.
Variable transport : nat → reply.

(** [datetime.now(timezone.utc)] *)
Definition utcnow : M Z := λ w,
  (Ok (clock (ticks w)),
   {| store := store w; pending_names := pending_names w; ticks := S (ticks w);
      api_calls := api_calls w; outbox := outbox w; journal := journal w |}).

(** [datetime.now(timezone.utc).isoformat()] *)
Definition now_iso : M string := t ← utcnow; mret (isoformat t).

(** ** [_celebrate]: the optional sticker or animation after an answer *)
Definition _celebrate (chat_id : Z) (is_correct : bool) : M unit :=
  if is_correct && bool_decide (CORRECT_STICKER_ID ≠ EmptyString) then
    emit (SendSticker chat_id CORRECT_STICKER_ID)
  else if negb is_correct && bool_decide (WRONG_STICKER_ID ≠ EmptyString) then
    emit (SendSticker chat_id WRONG_STICKER_ID)
  else if is_correct && bool_decide (CORRECT_ANIM_ID ≠ EmptyString) then
    emit (SendAnimation chat_id CORRECT_ANIM_ID)
  else if negb is_correct && bool_decide (WRONG_ANIM_ID ≠ EmptyString) then
    emit (SendAnimation chat_id WRONG_ANIM_ID)
  else mret ().

(** ** [_quiz_expired]

    The newest row of [sent_msgs] for the chat and the quiz whose
    [expires_at] is not NULL decides.  The result is Python's
    [Optional[bool]]; comparing the aware [_now_utc()] with a naive timestamp
    raises [TypeError], outside the [try]. *)
Definition expiry_rows (d : database) (chat_id quiz_id : Z) : list sent_msg_row :=
  filter (λ s, s_chat_id s = chat_id ∧ s_quiz_id s = quiz_id ∧ s_expires_at s ≠ None)
    (sent_msgs d).

Definition _quiz_expired (chat_id quiz_id : Z) : M (option bool) :=
  d ← read;
  match last (expiry_rows d chat_id quiz_id) with
  | None => mret None
  | Some row =>
      match truthy_text (s_expires_at row) with
      | None => mret None
      | Some text =>
          match fromisoformat text with
          | None => mret None
          | Some exp =>
              now ← utcnow;
              match exp with
              | Aware e => mret (Some (bool_decide (e < now)))
              | Naive _ => raise TypeError
              end
          end
      end
  end.

(** ** [cb_start_quiz]: the begin control

    [payload] is the quiz id read from the callback data, [None] when
    [int] fails on it. *)
Definition cb_start_quiz (chat_id user_id : Z) (payload : option Z) : M unit :=
  match payload with
  | None => emit (CbAnswer PopBadData true)
  | Some quiz_id =>
      expired ← _quiz_expired chat_id quiz_id;
      if decide (expired = Some true) then emit (CbAnswer PopExpiredBegin true)
      else
        d ← read;
        match participant_of d chat_id user_id quiz_id with
        | None =>
            p ← get_pending;
            put_pending (dict_set (chat_id, user_id, quiz_id) p);;
            emit (CbAnswer PopNone false);;
            emit (BotSendMessage chat_id (TxtAskName user_id))
        | Some _ => emit (CbAnswer PopGoodLuck false)
        end
  end.

(** ** [catch_name_in_group]: a free-text message

    The first pending entry of the chat and the user, in the order of the
    dictionary, takes the text as the name, whatever its quiz. *)
Definition upsert_participant (chat_id user_id quiz_id : Z) (name : string) : M unit :=
  execute (ReplaceParticipant chat_id user_id quiz_id) (λ d,
    set_participant_names
      (filter (λ n, ¬ (n_origin_chat_id n = chat_id ∧ n_user_id n = user_id ∧ n_quiz_id n = quiz_id))
         (participant_names d)
       ++ [ {| n_origin_chat_id := chat_id; n_user_id := user_id;
               n_quiz_id := quiz_id; n_name := name |} ]) d).

Definition catch_name_in_group (in_group : bool) (chat_id user_id : Z) (text : string) : M unit :=
  if negb in_group then mret ()
  else
    p ← get_pending;
    match head (filter (λ k, k.1.1 = chat_id ∧ k.1.2 = user_id) p) with
    | None => mret ()
    | Some (c, u, quiz_id) =>
        let name := strip text in
        if decide (name = EmptyString) then mret ()
        else
          upsert_participant c user_id quiz_id name;;
          p' ← get_pending;
          put_pending (dict_del (c, u, quiz_id) p');;
          emit (MsgReply (TxtNameSaved name))
    end.

(** ** [on_answer]: an answer control *)

(** [INSERT INTO responses ...]; the table is UNIQUE on
    [(chat_id, user_id, question_id)]. *)
Definition insert_response (r : response_row) : M unit :=
  d ← read;
  match response_of d (r_chat_id r) (r_user_id r) (r_question_id r) with
  | Some _ => raise IntegrityError
  | None =>
      execute (InsResponse (r_chat_id r) (r_user_id r) (r_question_id r))
        (λ d, set_responses (responses d ++ [r]) d)
  end.

(** The rows of a user in a chat among the questions [q_ids]:
    [WHERE chat_id=? AND user_id=? AND question_id IN (...)]. *)
Definition responses_in (d : database) (chat_id user_id : Z) (q_ids : list Z) : list response_row :=
  filter (λ r, r_chat_id r = chat_id ∧ r_user_id r = user_id ∧ r_question_id r ∈ q_ids)
    (responses d).

(** [SELECT COUNT(DISTINCT question_id) ...] *)
Definition answered_cnt (d : database) (chat_id user_id : Z) (q_ids : list Z) : nat :=
  length (remove_dups (r_question_id <$> responses_in d chat_id user_id q_ids)).

(** [SELECT SUM(is_correct) ...], with [or 0]. *)
Definition score_of (d : database) (chat_id user_id : Z) (q_ids : list Z) : Z :=
  foldr Z.add 0 (r_is_correct <$> responses_in d chat_id user_id q_ids).

(** [UPDATE user_progress SET finished_at=? WHERE ...] *)
Definition update_finished (chat_id user_id quiz_id : Z) (ts : string) (d : database) : database :=
  set_user_progress
    ((λ p, if decide (p_origin_chat_id p = chat_id ∧ p_user_id p = user_id ∧ p_quiz_id p = quiz_id)
           then {| p_origin_chat_id := p_origin_chat_id p; p_user_id := p_user_id p;
                   p_quiz_id := p_quiz_id p; p_q_pos := p_q_pos p;
                   p_started_at := p_started_at p; p_finished_at := Some ts |}
           else p) <$> user_progress d) d.

Definition on_answer (chat_id user_id question_id option_index target_user_id : Z) : M unit :=
  if decide (target_user_id ≠ 0 ∧ user_id ≠ target_user_id) then
    emit (CbAnswer PopWrongTarget false)
  else
    d ← read;
    match question_by_id d question_id with
    | None => emit (CbAnswer PopQuestionMissing true)
    | Some qrow =>
        let quiz_id := q_quiz_id qrow in
        let q_text := q_text qrow in
        expired ← _quiz_expired chat_id quiz_id;
        if decide (expired = Some true) then emit (CbAnswer PopExpiredAnswer true)
        else
          d ← read;
          match participant_of d chat_id user_id quiz_id with
          | None =>
              p ← get_pending;
              put_pending (dict_set (chat_id, user_id, quiz_id) p);;
              emit (BotSendMessage chat_id (TxtAskNameThenRetry user_id));;
              emit (CbAnswer PopNone false)
          | Some _ =>
              d ← read;
              match response_of d chat_id user_id question_id with
              | Some _ => emit (CbAnswer PopAlreadyAnswered true)
              | None =>
                  d ← read;
                  let opt := option_of d question_id option_index in
                  let all_opts := options_for_question d question_id in
                  let is_correct :=
                    match opt with
                    | Some o => if decide (o_is_correct o = 1) then 1 else 0
                    | None => 0
                    end in
                  ts ← now_iso;
                  insert_response
                    {| r_chat_id := chat_id; r_user_id := user_id;
                       r_question_id := question_id; r_option_index := option_index;
                       r_is_correct := is_correct; r_answered_at := ts |};;
                  let your_text := default "—" (o_text <$> opt) in
                  let correct_row := head (filter (λ r, o_is_correct r = 1) all_opts) in
                  let correct_text := default "—" (o_text <$> correct_row) in
                  emit (CbAnswer (PopFeedback is_correct q_text correct_text your_text) true);;
                  _celebrate chat_id (bool_decide (is_correct ≠ 0));;
                  (* check finish *)
                  d ← read;
                  let q_ids := get_quiz_question_ids d quiz_id in
                  if decide (answered_cnt d chat_id user_id q_ids = length q_ids) then
                    let total := score_of d chat_id user_id q_ids in
                    match progress_of d chat_id user_id quiz_id with
                    | Some _ =>
                        ts ← now_iso;
                        execute (UpdProgress chat_id user_id quiz_id)
                          (update_finished chat_id user_id quiz_id ts)
                    | None =>
                        started ← now_iso;
                        finished ← now_iso;
                        execute (InsProgress chat_id user_id quiz_id) (λ d,
                          set_user_progress
                            (user_progress d ++
                             [ {| p_origin_chat_id := chat_id; p_user_id := user_id;
                                  p_quiz_id := quiz_id; p_q_pos := 0;
                                  p_started_at := started; p_finished_at := Some finished |} ]) d)
                    end;;
                    emit (CbAnswer (PopFinished total (length q_ids)) true);;
                    d ← read;
                    let row := participant_of d chat_id user_id quiz_id in
                    emit (BotSendMessage chat_id
                            (TxtFinalResult quiz_id (n_name <$> row) user_id total (length q_ids)))
                  else mret ()
              end
          end
    end.

(** ** [migrate_legacy_media]

    A question that still carries a legacy [photo] or [audio] and has no row
    in [question_attachments] gets its legacy media as attachments.  The
    three legacy columns exist, [_ensure_schema] adds them. *)
Definition insert_question_attachment (a : attachment_row) : M unit :=
  execute (InsQuestionAttachment (att_owner a))
    (λ d, set_question_attachments (question_attachments d ++ [a]) d).

(** The body of the loop, for one row [r] of the SELECT. *)
Definition migrate_question (r : question_row) : M unit :=
  d ← read;
  if decide (filter (λ a, att_owner a = q_id r) (question_attachments d) ≠ []) then mret ()
  else
    match truthy_text (q_photo r) with
    | Some f =>
        insert_question_attachment
          {| att_owner := q_id r; att_kind := "photo"; att_file_id := f; att_position := 0 |}
    | None => mret ()
    end;;
    let pos := match truthy_text (q_photo r) with Some _ => 1 | None => 0 end in
    match truthy_text (q_audio r) with
    | Some f =>
        let kind := if decide (default 0 (q_audio_is_voice r) = 1) then "voice" else "audio" in
        insert_question_attachment
          {| att_owner := q_id r; att_kind := kind; att_file_id := f; att_position := pos |}
    | None => mret ()
    end.

Definition migrate_legacy_media : M unit :=
  d ← read;
  for_each (filter (λ q, q_photo q ≠ None ∨ q_audio q ≠ None) (questions d)) migrate_question.

(** ** [_safe_send]

    One call of the send method; after a [TelegramRetryAfter] one more; the
    message id when a call went through. *)
Definition call_transport : M reply := λ w,
  (Ok (transport (api_calls w)),
   {| store := store w; pending_names := pending_names w; ticks := ticks w;
      api_calls := S (api_calls w); outbox := outbox w; journal := journal w |}).

Definition _safe_send (o : origin) (u : outgoing) : M (option Z) :=
  r ← call_transport;
  m ← match r with
      | Sent id => mret (Some id)
      | RetryAfter =>
          r2 ← call_transport;
          mret (match r2 with Sent id => Some id | _ => None end)
      | Failed => mret None
      end;
  emit (SafeSend o u m);;
  mret m.

(** ** [_do_publish] *)

(** [if m: INSERT INTO sent_msgs(chat_id, quiz_id, message_id, expires_at) ...] *)
Definition record_sent (chat_id quiz_id : Z) (expires_at : option string) (m : option Z) : M unit :=
  match m with
  | Some message_id =>
      execute (InsSentMsg chat_id quiz_id) (λ d,
        set_sent_msgs
          (sent_msgs d ++
           [ {| s_chat_id := chat_id; s_quiz_id := quiz_id;
                s_message_id := message_id; s_expires_at := expires_at |} ]) d)
  | None => mret ()
  end.

(** [build_options_kb] *)
Definition build_options_kb (d : database) (question_id target_user_id : Z) : list button :=
  (λ r, {| btn_glyph := Some (circ_num (o_option_index r)); btn_text := o_text r;
           btn_data := CbAns question_id (o_option_index r) target_user_id |})
  <$> options_for_question d question_id.

(** The send method of an attachment: [photo], [voice], and audio for any
    other kind. *)
Definition method_of_kind (kind : string) : api_method :=
  if decide (kind = "photo") then send_photo
  else if decide (kind = "voice") then send_voice
  else send_audio.

Definition attachment_unit (chat_id : Z) (att : attachment_row)
    (caption : option string) (markup : option (list button)) : outgoing :=
  {| out_method := method_of_kind (att_kind att); out_chat := chat_id;
     out_body := FileId (att_file_id att); out_caption := caption; out_markup := markup |}.

(** The attachments of a bundle, each sent and recorded. *)
Definition publish_bundle (chat_id quiz_id : Z) (expires_at : option string) (bundle_id : Z) : M unit :=
  d ← read;
  for_each (get_bundle_atts d bundle_id) (λ att,
    m ← _safe_send (OfBundle bundle_id) (attachment_unit chat_id att None None);
    record_sent chat_id quiz_id expires_at m).

(** A question: its first attachment carries the text and the answer
    controls, the others follow bare; without attachments the text carries
    the controls. *)
Definition publish_question (chat_id quiz_id : Z) (expires_at : option string) (q : question_row) : M unit :=
  d ← read;
  let kbq := build_options_kb d (q_id q) 0 in
  d ← read;
  match get_question_atts d (q_id q) with
  | att :: atts_rest =>
      m ← _safe_send (OfQuestion (q_id q))
            (attachment_unit chat_id att (Some (q_text q)) (Some kbq));
      record_sent chat_id quiz_id expires_at m;;
      for_each atts_rest (λ att,
        m ← _safe_send (OfQuestion (q_id q)) (attachment_unit chat_id att None None);
        record_sent chat_id quiz_id expires_at m)
  | [] =>
      m ← _safe_send (OfQuestion (q_id q))
            {| out_method := send_message; out_chat := chat_id;
               out_body := PlainText (q_text q); out_caption := None; out_markup := Some kbq |};
      record_sent chat_id quiz_id expires_at m
  end.

(** The loop over the questions, with the set [sent_bundles]. *)
Fixpoint publish_questions (chat_id quiz_id : Z) (expires_at : option string)
    (qs : list question_row) (sent_bundles : gset Z) : M unit :=
  match qs with
  | [] => mret ()
  | q :: rest =>
      sent_bundles' ←
        match truthy_int (q_media_bundle_id q) with
        | Some bundle_id =>
            if decide (bundle_id ∈ sent_bundles) then mret sent_bundles
            else
              publish_bundle chat_id quiz_id expires_at bundle_id;;
              mret ({[bundle_id]} ∪ sent_bundles)
        | None => mret sent_bundles
        end;
      publish_question chat_id quiz_id expires_at q;;
      publish_questions chat_id quiz_id expires_at rest sent_bundles'
  end.

Definition _do_publish (chat_id quiz_id : Z) (expires_at : option string) : M unit :=
  migrate_legacy_media;;
  d ← read;
  let quiz := head (filter (λ z, qz_id z = quiz_id ∧ qz_is_archived z = 0) (quizzes d)) in
  let qs := questions_of_quiz d quiz_id in
  match quiz with
  | None => emit (BotSendMessage chat_id TxtInvalidQuiz)
  | Some quiz =>
      if decide (qs = []) then emit (BotSendMessage chat_id TxtInvalidQuiz)
      else
        m_head ← _safe_send OfHead
          {| out_method := send_message; out_chat := chat_id;
             out_body := HeadText (qz_title quiz) expires_at; out_caption := None;
             out_markup := Some [ {| btn_glyph := None; btn_text := "🎓 ابدأ الحل";
                                     btn_data := CbStart quiz_id |} ] |};
        record_sent chat_id quiz_id expires_at m_head;;
        publish_questions chat_id quiz_id expires_at qs ∅
  end.

(** [timedelta(hours=hours)] in microseconds. *)
Definition hours_us (hours : Z) : Z := hours * 3600000000.

(** [cb_pub_duration_selected]: the duration buttons [dur:12], [dur:24],
    [dur:custom] and [dur:none]; [sel] is the text after the colon. *)
Definition cb_pub_duration_selected (chat_id quiz_id : Z) (sel : string) : M unit :=
  if decide (sel = "custom") then emit (StateSet "waiting_custom_hours");; emit (EditText TxtAskHours)
  else
    expires_at ←
      (if decide (sel = "none") then mret None
       else
         let hours := if decide (sel = "12") then 12 else 24 in
         now ← utcnow;
         mret (Some (isoformat (now + hours_us hours))));
    _do_publish chat_id quiz_id expires_at;;
    emit StateClear.

(** [cb_pub_custom_hours]: the number of hours typed by the owner; [hours]
    is [None] when [int] fails on the text. *)
Definition cb_pub_custom_hours (chat_id from_user quiz_id : Z) (hours : option Z) : M unit :=
  if decide (from_user ≠ OWNER_ID) then emit (MsgReply TxtOwnerOnly);; emit StateClear
  else
    match hours with
    | None => emit (MsgReply TxtBadHours)
    | Some hours =>
        if decide (hours ≤ 0 ∨ hours > 240) then emit (MsgReply TxtBadHours)
        else
          now ← utcnow;
          let expires_at := isoformat (now + hours_us hours) in
          _do_publish chat_id quiz_id (Some expires_at);;
          emit StateClear
    end.

(** ** Merge: [_copy_bundle], [_copy_question_to_quiz], [merge_quizzes_create_new] *)

(** The INSERTs of the merge.  Each returns [cur.lastrowid] where the
    program reads it. *)
Definition insert_quiz (title : string) (created_by : Z) (created_at : string) : M Z :=
  d ← read;
  let id := next_id (qz_id <$> quizzes d) (seq_quizzes d) in
  execute (InsQuiz id) (λ d,
    set_quizzes
      (quizzes d ++
       [ {| qz_id := id; qz_title := title; qz_created_by := created_by;
            qz_created_at := created_at; qz_is_archived := 0 |} ]) id d);;
  mret id.

Definition insert_media_bundle (quiz_id : Z) (created_at : string) : M Z :=
  d ← read;
  let id := next_id (b_id <$> media_bundles d) (seq_media_bundles d) in
  execute (InsBundle id) (λ d,
    set_media_bundles
      (media_bundles d ++
       [ {| b_id := id; b_quiz_id := quiz_id; b_created_at := created_at |} ]) id d);;
  mret id.

Definition insert_bundle_attachment (a : attachment_row) : M unit :=
  execute (InsBundleAttachment (att_owner a))
    (λ d, set_media_bundle_attachments (media_bundle_attachments d ++ [a]) d).

(** [INSERT INTO questions(quiz_id, text, created_at, media_bundle_id)]: the
    legacy columns take their defaults. *)
Definition insert_question (quiz_id : Z) (text created_at : string) (media_bundle_id : option Z) : M Z :=
  d ← read;
  let id := next_id (q_id <$> questions d) (seq_questions d) in
  execute (InsQuestion id) (λ d,
    set_questions
      (questions d ++
       [ {| q_id := id; q_quiz_id := quiz_id; q_text := text; q_created_at := created_at;
            q_media_bundle_id := media_bundle_id;
            q_photo := None; q_audio := None; q_audio_is_voice := Some 0 |} ]) id d);;
  mret id.

Definition insert_option (o : option_row) : M unit :=
  execute (InsOption (o_question_id o)) (λ d, set_options (options d ++ [o]) d).

(** [_copy_bundle]: the dictionary [bundle_map] is shared with the caller,
    so the updated dictionary is returned with the new id. *)
Definition _copy_bundle (quiz_dst bundle_id : Z) (bundle_map : gmap Z Z) : M (Z * gmap Z Z) :=
  match bundle_map !! bundle_id with
  | Some new_b => mret (new_b, bundle_map)
  | None =>
      created_at ← now_iso;
      new_b ← insert_media_bundle quiz_dst created_at;
      d ← read;
      for_each (get_bundle_atts d bundle_id) (λ a,
        insert_bundle_attachment
          {| att_owner := new_b; att_kind := att_kind a;
             att_file_id := att_file_id a; att_position := att_position a |});;
      mret (new_b, <[bundle_id := new_b]> bundle_map)
  end.

Definition _copy_question_to_quiz (qrow : question_row) (quiz_dst : Z) (bundle_map : gmap Z Z)
    : M (Z * gmap Z Z) :=
  '(new_bundle_id, bundle_map) ←
    match truthy_int (q_media_bundle_id qrow) with
    | Some bundle_id =>
        '(new_b, bundle_map') ← _copy_bundle quiz_dst bundle_id bundle_map;
        mret (Some new_b, bundle_map')
    | None => mret (None, bundle_map)
    end;
  created_at ← now_iso;
  new_qid ← insert_question quiz_dst (q_text qrow) created_at new_bundle_id;
  (* options *)
  d ← read;
  for_each (options_for_question d (q_id qrow)) (λ o,
    insert_option
      {| o_question_id := new_qid; o_option_index := o_option_index o;
         o_text := o_text o; o_is_correct := o_is_correct o |});;
  (* attachments *)
  d ← read;
  for_each (get_question_atts d (q_id qrow)) (λ a,
    insert_question_attachment
      {| att_owner := new_qid; att_kind := att_kind a;
         att_file_id := att_file_id a; att_position := att_position a |});;
  mret (new_qid, bundle_map).

(** The inner loop [for q in questions]. *)
Fixpoint copy_questions (qs : list question_row) (quiz_dst : Z) (bundle_map : gmap Z Z)
    : M (gmap Z Z) :=
  match qs with
  | [] => mret bundle_map
  | q :: rest =>
      '(_, bundle_map') ← _copy_question_to_quiz q quiz_dst bundle_map;
      copy_questions rest quiz_dst bundle_map'
  end.

(** The title of the merged quiz, [f"دمج: {src['title']} + {dst['title']}"]. *)
Definition merged_title (src_title dst_title : string) : string :=
  "دمج: " +:+ src_title +:+ " + " +:+ dst_title.

(** [merge_quizzes_create_new]: subscripting the missing row of a quiz raises
    [TypeError]. *)
Definition merge_quizzes_create_new (src_id dst_id : Z) : M Z :=
  d ← read;
  match quiz_by_id d src_id, quiz_by_id d dst_id with
  | Some src, Some dst =>
      let title := merged_title (qz_title src) (qz_title dst) in
      created_at ← now_iso;
      new_quiz_id ← insert_quiz title OWNER_ID created_at;
      (* copy src questions then dst questions *)
      d ← read;
      bundle_map ← copy_questions (questions_of_quiz d src_id) new_quiz_id ∅;
      d ← read;
      _ ← copy_questions (questions_of_quiz d dst_id) new_quiz_id bundle_map;
      mret new_quiz_id
  | _, _ => raise TypeError
  end.

(** [merge_do]: the second quiz was picked; the first is in the state of the
    conversation. *)
Definition merge_do (src_id dst_id : Z) : M unit :=
  if decide (src_id = dst_id) then emit (CbAnswer PopSameQuiz true)
  else
    new_quiz_id ← merge_quizzes_create_new src_id dst_id;
    emit StateClear;;
    emit (EditText (TxtMerged new_quiz_id)).

(** ** The participants' side as a machine

    The three handlers that participants reach, and a run of the bot over
    a list of their events.  A handler that raises leaves the world as it
    was when it raised. *)
Inductive event :=
| EvBegin (chat_id user_id : Z) (payload : option Z)
| EvText (in_group : bool) (chat_id user_id : Z) (text : string)
| EvAnswer (chat_id user_id question_id option_index target_user_id : Z).

Definition handle (e : event) : M unit :=
  match e with
  | EvBegin chat_id user_id payload => cb_start_quiz chat_id user_id payload
  | EvText in_group chat_id user_id text => catch_name_in_group in_group chat_id user_id text
  | EvAnswer chat_id user_id question_id option_index target_user_id =>
      on_answer chat_id user_id question_id option_index target_user_id
  end.

Fixpoint run (es : list event) (w : world) : world :=
  match es with
  | [] => w
  | e :: es' => run es' (exec (handle e) w)
  end.

(** ** Notions used by the statements *)

(** The key of the UNIQUE constraint of [responses]. *)
Definition response_key (r : response_row) : Z * Z * Z :=
  (r_chat_id r, r_user_id r, r_question_id r).

Definition responses_unique (d : database) : Prop :=
  NoDup (response_key <$> responses d).

(** [questions.id] is a primary key. *)
Definition questions_pk (d : database) : Prop :=
  NoDup (q_id <$> questions d).

(** [responses.is_correct] holds 0 or 1. *)
Definition responses_graded (d : database) : Prop :=
  Forall (λ r, r_is_correct r = 0 ∨ r_is_correct r = 1) (responses d).

(** The correct responses of a user in a chat among the questions [q_ids]. *)
Definition correct_responses (d : database) (chat_id user_id : Z) (q_ids : list Z) : list response_row :=
  filter (λ r, r_is_correct r = 1) (responses_in d chat_id user_id q_ids).

(** The writes of [finished_at] for a participant of a quiz, and the
    public final results posted for them, as [(score, number of questions)]. *)
Definition is_finish_write (chat_id user_id quiz_id : Z) (s : sql_write) : bool :=
  match s with
  | InsProgress c u q | UpdProgress c u q =>
      bool_decide (c = chat_id ∧ u = user_id ∧ q = quiz_id)
  | _ => false
  end.

Definition finish_writes (chat_id user_id quiz_id : Z) (j : list sql_write) : nat :=
  length (filter (λ s, is_finish_write chat_id user_id quiz_id s = true) j).

Definition final_result_of (chat_id user_id quiz_id : Z) (e : effect) : option (Z * nat) :=
  match e with
  | BotSendMessage c (TxtFinalResult q _ u total n) =>
      if decide (c = chat_id ∧ u = user_id ∧ q = quiz_id) then Some (total, n) else None
  | _ => None
  end.

Definition final_results (chat_id user_id quiz_id : Z) (out : list effect) : list (Z * nat) :=
  omap (final_result_of chat_id user_id quiz_id) out.

(** The units of a bundle among what was sent through [_safe_send]. *)
Definition bundle_unit_of (bundle_id : Z) (e : effect) : option outgoing :=
  match e with
  | SafeSend (OfBundle b) u _ => if decide (b = bundle_id) then Some u else None
  | _ => None
  end.

Definition bundle_units (bundle_id : Z) (out : list effect) : list outgoing :=
  omap (bundle_unit_of bundle_id) out.

(** The units of a question. *)
Definition is_question_unit (question_id : Z) (e : effect) : Prop :=
  ∃ u m, e = SafeSend (OfQuestion question_id) u m.

(** No unit at all: nothing went through [_safe_send]. *)
Definition is_unit (e : effect) : bool :=
  match e with SafeSend _ _ _ => true | _ => false end.

(** A question refers to a bundle when its [media_bundle_id] holds the id;
    ids start at 1. *)
Definition refers_to (q : question_row) (bundle_id : Z) : Prop :=
  q_media_bundle_id q = Some bundle_id ∧ bundle_id ≠ 0.

(** No legacy media is waiting to be migrated: the state that
    [migrate_legacy_media], run when the program starts, leaves behind. *)
Definition settled (d : database) (q : question_row) : Prop :=
  (truthy_text (q_photo q) = None ∧ truthy_text (q_audio q) = None)
  ∨ filter (λ a, att_owner a = q_id q) (question_attachments d) ≠ [].

Definition legacy_migrated (d : database) : Prop :=
  Forall (settled d) (questions d).


(** The row that [on_answer] stores for an answer: the option decides
    [is_correct], and a missing option counts as a wrong one. *)
Definition graded_row (d : database) (chat_id user_id question_id option_index : Z)
    (answered_at : string) : response_row :=
  {| r_chat_id := chat_id; r_user_id := user_id;
     r_question_id := question_id; r_option_index := option_index;
     r_is_correct :=
       match option_of d question_id option_index with
       | Some o => if decide (o_is_correct o = 1) then 1 else 0
       | None => 0
       end;
     r_answered_at := answered_at |}.

(** An effect that is not a public final result. *)
Definition quiet (e : effect) : Prop :=
  match e with
  | BotSendMessage _ (TxtFinalResult _ _ _ _ _) => False
  | _ => True
  end.

(** The event passes the gates in front of the UNIQUE check: the control is
    for this user, the question exists, its session is not expired, and the
    user has given a name. *)
Definition passes_gates (w : world) (chat_id user_id question_id target_user_id : Z) : Prop :=
  ¬ (target_user_id ≠ 0 ∧ user_id ≠ target_user_id) ∧
  ∃ qrow v,
    question_by_id (store w) question_id = Some qrow ∧
    (_quiz_expired chat_id (q_quiz_id qrow) w).1 = Ok v ∧ v ≠ Some true ∧
    is_Some (participant_of (store w) chat_id user_id (q_quiz_id qrow)).

(** What [on_answer] stores and sends for an event that passes the gates
    and meets no earlier response: one graded row and, when that row
    completes the quiz, the end of the participant's progress and the final
    result. *)
Definition records (w w' : world) (chat_id user_id question_id option_index : Z) : Prop :=
  ∃ qrow ts fb cel,
    question_by_id (store w) question_id = Some qrow ∧
    Forall quiet (fb :: cel) ∧
    let quiz_id := q_quiz_id qrow in
    let d1 := set_responses
                (responses (store w) ++
                 [graded_row (store w) chat_id user_id question_id option_index ts])
                (store w) in
    let q_ids := get_quiz_question_ids d1 quiz_id in
    if decide (answered_cnt d1 chat_id user_id q_ids = length q_ids) then
      ∃ up j name,
        store w' = set_user_progress up d1 ∧
        journal w' = journal w ++ [InsResponse chat_id user_id question_id; j] ∧
        (j = InsProgress chat_id user_id quiz_id ∨ j = UpdProgress chat_id user_id quiz_id) ∧
        outbox w' =
          outbox w ++ fb :: cel ++
            [CbAnswer (PopFinished (score_of d1 chat_id user_id q_ids) (length q_ids)) true;
             BotSendMessage chat_id
               (TxtFinalResult quiz_id name user_id
                  (score_of d1 chat_id user_id q_ids) (length q_ids))]
    else
      store w' = d1 ∧
      journal w' = journal w ++ [InsResponse chat_id user_id question_id] ∧
      outbox w' = outbox w ++ fb :: cel.

(** A step that stores no response, closes no progress and posts no final
    result. *)
Definition calm (w w' : world) : Prop :=
  responses (store w') = responses (store w) ∧
  questions (store w') = questions (store w) ∧
  (∃ js, journal w' = journal w ++ js ∧
         Forall (λ j, ∀ c u z, is_finish_write c u z j = false) js) ∧
  (∃ es, outbox w' = outbox w ++ es ∧ Forall quiet es).

(** What a run keeps true for one participant of one quiz: the number of
    writes of [finished_at] and the final results posted follow the count
    of answered questions. *)
Definition completion_inv (chat_id user_id quiz_id : Z) (q_ids : list Z)
    (a : nat) (b : list (Z * nat)) (w : world) : Prop :=
  get_quiz_question_ids (store w) quiz_id = q_ids ∧
  questions_pk (store w) ∧
  finish_writes chat_id user_id quiz_id (journal w) =
    (a + if decide (answered_cnt (store w) chat_id user_id q_ids = length q_ids)
         then 1 else 0)%nat ∧
  final_results chat_id user_id quiz_id (outbox w) =
    b ++ (if decide (answered_cnt (store w) chat_id user_id q_ids = length q_ids)
          then [(score_of (store w) chat_id user_id q_ids, length q_ids)] else []).

(** The announcement at the head of a pass. *)
Definition head_unit (chat_id quiz_id : Z) (title : string) (expires_at : option string) : outgoing :=
  {| out_method := send_message; out_chat := chat_id;
     out_body := HeadText title expires_at; out_caption := None;
     out_markup := Some [ {| btn_glyph := None; btn_text := "🎓 ابدأ الحل";
                             btn_data := CbStart quiz_id |} ] |}.

(** ** Notions for the merge *)

(** The largest id that [questions] and [media_bundles] have handed out. *)
Definition qbound (d : database) : Z :=
  Z.max (seq_questions d) (max_id (q_id <$> questions d)).

Definition bbound (d : database) : Z :=
  Z.max (seq_media_bundles d) (max_id (b_id <$> media_bundles d)).

(** Every id that a row refers to was handed out by its table. *)
Definition refs_in_range (d : database) : Prop :=
  Forall (λ o, o_question_id o ≤ qbound d) (options d) ∧
  Forall (λ a, att_owner a ≤ qbound d) (question_attachments d) ∧
  Forall (λ a, att_owner a ≤ bbound d) (media_bundle_attachments d) ∧
  Forall (λ q, ∀ b, q_media_bundle_id q = Some b → b ≤ bbound d) (questions d).

(** What a copy keeps of an option and of an attachment. *)
Definition option_content (o : option_row) : Z * string * Z :=
  (o_option_index o, o_text o, o_is_correct o).

Definition attachment_content (a : attachment_row) : string * string * Z :=
  (att_kind a, att_file_id a, att_position a).

(** A copied option and a copied attachment under their new owner. *)
Definition retag_option (owner : Z) (o : option_row) : option_row :=
  {| o_question_id := owner; o_option_index := o_option_index o;
     o_text := o_text o; o_is_correct := o_is_correct o |}.

Definition retag_att (owner : Z) (a : attachment_row) : attachment_row :=
  {| att_owner := owner; att_kind := att_kind a;
     att_file_id := att_file_id a; att_position := att_position a |}.

(** The rows that the merge only reads or never touches. *)
Definition same_participation (d d' : database) : Prop :=
  responses d' = responses d ∧ user_progress d' = user_progress d ∧
  sent_msgs d' = sent_msgs d ∧ participant_names d' = participant_names d.

(** [new] is the copy of [old]: in the quiz [quiz_dst], with the text, the
    options and the attachments of [old] as the store [d0] had them, stamped
    by a reading of the clock between [t0] and [t1], and linked to the clone
    of the bundle of [old]. *)
Definition copied (d0 d : database) (bundle_map : gmap Z Z) (t0 t1 : nat) (quiz_dst : Z)
    (old new : question_row) : Prop :=
  q_quiz_id new = quiz_dst ∧
  q_text new = q_text old ∧
  (∃ k, (t0 ≤ k < t1)%nat ∧ q_created_at new = isoformat (clock k)) ∧
  option_content <$> options_for_question d (q_id new) =
    option_content <$> options_for_question d0 (q_id old) ∧
  attachment_content <$> get_question_atts d (q_id new) =
    attachment_content <$> get_question_atts d0 (q_id old) ∧
  q_media_bundle_id new = truthy_int (q_media_bundle_id old) ≫= (bundle_map !!.) ∧
  (∀ b, truthy_int (q_media_bundle_id old) = Some b → is_Some (bundle_map !! b)).

(** [new_b] is the clone of the bundle [b]: a new id, with the attachments
    of [b] as the store [d0] had them. *)
Definition cloned (d0 d : database) (b new_b : Z) : Prop :=
  b ≤ bbound d0 ∧ bbound d0 < new_b ≤ bbound d ∧
  attachment_content <$> get_bundle_atts d new_b =
    attachment_content <$> get_bundle_atts d0 b.

(** How the store has grown since a merge started in the world [w0]: rows
    were only added, at the end of their tables and under ids handed out
    since; [news] are the new questions and [bundle_map] lists the clones.
    Nothing was sent and no table of the participants was touched. *)
Definition grown (w0 : world) (quiz_dst : Z)
    (news : list question_row) (bundle_map : gmap Z Z) (w : world) : Prop :=
  let d0 := store w0 in
  let d := store w in
  quizzes d = quizzes d0 ∧ seq_quizzes d = seq_quizzes d0 ∧
  same_participation d0 d ∧
  outbox w = outbox w0 ∧ pending_names w = pending_names w0 ∧
  (ticks w0 ≤ ticks w)%nat ∧
  questions d = questions d0 ++ news ∧
  qbound d0 ≤ qbound d ∧
  Forall (λ n, q_quiz_id n = quiz_dst ∧ qbound d0 < q_id n ≤ qbound d) news ∧
  StronglySorted (λ a b, q_id a < q_id b) news ∧
  (∃ nos, options d = options d0 ++ nos ∧
          Forall (λ o, qbound d0 < o_question_id o ≤ qbound d) nos) ∧
  (∃ nas, question_attachments d = question_attachments d0 ++ nas ∧
          Forall (λ a, qbound d0 < att_owner a ≤ qbound d) nas) ∧
  (∃ nbs, media_bundles d = media_bundles d0 ++ nbs ∧
          length nbs = size bundle_map ∧
          Forall (λ r, b_quiz_id r = quiz_dst ∧ bbound d0 < b_id r ≤ bbound d) nbs ∧
          ∀ b nb, bundle_map !! b = Some nb → nb ∈ (b_id <$> nbs)) ∧
  bbound d0 ≤ bbound d ∧
  (∃ nbas, media_bundle_attachments d = media_bundle_attachments d0 ++ nbas ∧
           Forall (λ a, bbound d0 < att_owner a ≤ bbound d) nbas) ∧
  (∀ b nb, bundle_map !! b = Some nb → cloned d0 d b nb) ∧
  (∀ b1 b2 nb, bundle_map !! b1 = Some nb → bundle_map !! b2 = Some nb → b1 = b2).

(** What holds between two questions copied by a merge that started in the
    world [w0]: [olds] were copied to [news], in this order, and
    [bundle_map] has a clone for the bundles of [olds] and for no other. *)
Definition merge_inv (w0 : world) (quiz_dst : Z)
    (olds news : list question_row) (bundle_map : gmap Z Z) (w : world) : Prop :=
  grown w0 quiz_dst news bundle_map w ∧
  (∀ b, is_Some (bundle_map !! b) ↔ Exists (λ old, refers_to old b) olds) ∧
  Forall2 (copied (store w0) (store w) bundle_map (ticks w0) (ticks w) quiz_dst) olds news.

(** Unfolding the monad down to functions of the world. *)
Ltac munfold :=
  unfold exec, now_iso, mbind, M_bind, mret, M_ret, read, emit, execute, raise,
    get_pending, put_pending, utcnow in *.


(** A stretch of a publish pass seen from outside: it sends the units [es]
    and records rows of [sent_msgs] for the chat, the quiz and the expiry of
    the pass, and does nothing else. *)
Definition sends_only (chat_id quiz_id : Z) (expires_at : option string)
    (w w' : world) (es : list effect) : Prop :=
  ∃ rows js,
    store w' = set_sent_msgs (sent_msgs (store w) ++ rows) (store w) ∧
    Forall (λ s, s_chat_id s = chat_id ∧ s_quiz_id s = quiz_id ∧ s_expires_at s = expires_at) rows ∧
    pending_names w' = pending_names w ∧
    ticks w' = ticks w ∧
    outbox w' = outbox w ++ es ∧
    journal w' = journal w ++ js ∧
    Forall (λ j, j = InsSentMsg chat_id quiz_id) js ∧
    length js = length rows.

(** The units of a bundle as the pass sends them: one per attachment, in
    the order of [get_bundle_atts], bare. *)
Definition bundle_sends (d : database) (chat_id bundle_id : Z) (es : list effect) : Prop :=
  Forall2 (λ e att, ∃ m, e = SafeSend (OfBundle bundle_id) (attachment_unit chat_id att None None) m)
    es (get_bundle_atts d bundle_id).

(** The units of a question: at least one, all sent for that question. *)
Definition question_sends (q : question_row) (es : list effect) : Prop :=
  es ≠ [] ∧ Forall (is_question_unit (q_id q)) es.

(** What the loop of [_do_publish] sends for the questions [qs] when the
    bundles in [sent_bundles] are out already. *)
Inductive pass_units (d : database) (chat_id : Z) :
    list question_row → gset Z → list effect → Prop :=
| pass_done sent_bundles :
    pass_units d chat_id [] sent_bundles []
| pass_plain q rest sent_bundles qu es :
    truthy_int (q_media_bundle_id q) = None →
    question_sends q qu →
    pass_units d chat_id rest sent_bundles es →
    pass_units d chat_id (q :: rest) sent_bundles (qu ++ es)
| pass_seen q rest sent_bundles bundle_id qu es :
    truthy_int (q_media_bundle_id q) = Some bundle_id →
    bundle_id ∈ sent_bundles →
    question_sends q qu →
    pass_units d chat_id rest sent_bundles es →
    pass_units d chat_id (q :: rest) sent_bundles (qu ++ es)
| pass_fresh q rest sent_bundles bundle_id bs qu es :
    truthy_int (q_media_bundle_id q) = Some bundle_id →
    bundle_id ∉ sent_bundles →
    bundle_sends d chat_id bundle_id bs →
    question_sends q qu →
    pass_units d chat_id rest ({[bundle_id]} ∪ sent_bundles) es →
    pass_units d chat_id (q :: rest) sent_bundles (bs ++ qu ++ es).

(** A quiz can be published: it exists, is not archived, and has a question. *)
Definition publishable (d : database) (quiz_id : Z) : Prop :=
  (∃ z, z ∈ quizzes d ∧ qz_id z = quiz_id ∧ qz_is_archived z = 0) ∧
  questions_of_quiz d quiz_id ≠ [].

(** ** More notions: migration, the log of a pass, registration *)

(** What [migrate_legacy_media] makes of the legacy columns of a question:
    the photo at position 0, the audio behind it, as a voice note when
    [audio_is_voice] is 1. *)
Definition legacy_atts (q : question_row) : list attachment_row :=
  match truthy_text (q_photo q) with
  | Some f => [ {| att_owner := q_id q; att_kind := "photo"; att_file_id := f; att_position := 0 |} ]
  | None => []
  end ++
  match truthy_text (q_audio q) with
  | Some f =>
      [ {| att_owner := q_id q;
           att_kind := if decide (default 0 (q_audio_is_voice q) = 1) then "voice" else "audio";
           att_file_id := f;
           att_position := match truthy_text (q_photo q) with Some _ => 1 | None => 0 end |} ]
  | None => []
  end.

(** The row of [sent_msgs] that a pass writes for a unit that went through,
    and the rows for a stretch of the outbox. *)
Definition row_of_unit (chat_id quiz_id : Z) (expires_at : option string) (e : effect)
    : option sent_msg_row :=
  match e with
  | SafeSend _ _ (Some message_id) =>
      Some {| s_chat_id := chat_id; s_quiz_id := quiz_id;
              s_message_id := message_id; s_expires_at := expires_at |}
  | _ => None
  end.

Definition rows_of_units (chat_id quiz_id : Z) (expires_at : option string) (es : list effect)
    : list sent_msg_row :=
  omap (row_of_unit chat_id quiz_id expires_at) es.

(** A stretch of a pass with its bookkeeping: the rows written are those of
    the units delivered, and every unit took one or two calls. *)
Definition logged (chat_id quiz_id : Z) (expires_at : option string)
    (w w' : world) (es : list effect) : Prop :=
  store w' = set_sent_msgs
               (sent_msgs (store w) ++ rows_of_units chat_id quiz_id expires_at es) (store w) ∧
  outbox w' = outbox w ++ es ∧
  Forall (λ e, is_unit e = true) es ∧
  (api_calls w + length es ≤ api_calls w' ≤ api_calls w + 2 * length es)%nat ∧
  ticks w' = ticks w ∧ pending_names w' = pending_names w.

(** The key of the UNIQUE constraint of [participant_names]. *)
Definition participant_key (n : participant_row) : Z * Z * Z :=
  (n_origin_chat_id n, n_user_id n, n_quiz_id n).


(** The tables that hold the quizzes: everything but the answers, the
    progress, the names and the log of what was sent. *)
Definition same_content (d d' : database) : Prop :=
  quizzes d' = quizzes d ∧ seq_quizzes d' = seq_quizzes d ∧
  questions d' = questions d ∧ seq_questions d' = seq_questions d ∧
  options d' = options d ∧
  question_attachments d' = question_attachments d ∧
  media_bundles d' = media_bundles d ∧ seq_media_bundles d' = seq_media_bundles d ∧
  media_bundle_attachments d' = media_bundle_attachments d.

(** ** Bulk import: [parse_attachments_field], [parse_bulk_csv],
    [insert_question_with_data]

    Texts are strings of bytes in UTF-8; the separators that the program
    splits on are ASCII, so a split of the bytes is the split of the
    characters.  [str.lower] and [int] on a text are taken from the
    environment like [str.strip], and so is [csv.DictReader], which gives
    the rows of a CSV text as dictionaries from the names in its header. *)
Variable lower : string → string.
Variable int : string → option Z.
Variable DictReader : string → list (gmap string string).

(** [s.split(sep)] for a separator of one character. *)
Fixpoint split (sep : ascii) (s : string) : list string :=
  match s with
  | EmptyString => [EmptyString]
  | String c s' =>
      if decide (c = sep) then EmptyString :: split sep s'
      else match split sep s' with
           | h :: t => String c h :: t
           | [] => [String c EmptyString]
           end
  end.

(** [s.split(sep, 1)] when [sep in s]: the text before the first separator
    and the text behind it. *)
Fixpoint split_once (sep : ascii) (s : string) : option (string * string) :=
  match s with
  | EmptyString => None
  | String c s' =>
      if decide (c = sep) then Some (EmptyString, s')
      else '(a, b) ← split_once sep s'; Some (String c a, b)
  end.

(** [enumerate(l)] *)
Definition enumerate {A} (l : list A) : list (Z * A) := imap (λ i x, (Z.of_nat i, x)) l.

Definition parse_attachments_field (field : string) : list (string * string) :=
  let field := strip field in
  if decide (field = EmptyString) then []
  else
    let parts := filter (λ p, p ≠ EmptyString) (strip <$> split "|" field) in
    take 5
      (omap (λ p,
         match split_once ":" p with
         | None => None
         | Some (kind, fid) =>
             let kind := lower (strip kind) in
             let fid := strip fid in
             if decide (kind ∈ ["photo"; "voice"; "audio"] ∧ fid ≠ EmptyString)
             then Some (kind, fid) else None
         end) parts).

(** One entry of the list that [parse_bulk_csv] returns: a question to
    insert, or the [_error] of a line. *)
Inductive bulk_error :=
| MissingFields (ln : Z)
| OptionCount (ln : Z) (n : nat)
| CorrectNotNumber (ln : Z)
| CorrectOutOfRange (ln : Z) (n : nat).

Inductive bulk_item :=
| BulkError (e : bulk_error)
| BulkQuestion (question : string) (options : list string) (correct_index0 : Z)
    (attachments : list (string * string)).

(** The line that an error names. *)
Definition error_line (e : bulk_error) : Z :=
  match e with
  | MissingFields ln | OptionCount ln _ | CorrectNotNumber ln | CorrectOutOfRange ln _ => ln
  end.

(** A question as [parse_bulk_csv] lets it through: a text, 2 to 10
    options that are not blank, the index of one of them, and at most 5
    attachments of the three kinds with a file id. *)
Definition well_formed_item (it : bulk_item) : Prop :=
  match it with
  | BulkError _ => True
  | BulkQuestion question options correct_index0 attachments =>
      question ≠ EmptyString ∧
      (2 ≤ length options ≤ 10)%nat ∧
      Forall (λ o, o ≠ EmptyString) options ∧
      0 ≤ correct_index0 < Z.of_nat (length options) ∧
      (length attachments ≤ 5)%nat ∧
      Forall (λ a, a.1 ∈ ["photo"; "voice"; "audio"] ∧ a.2 ≠ EmptyString) attachments
  end.

(** An error in the report of an import: the [_error] of a line, or an
    insertion that raised. *)
Inductive import_error :=
| Rejected (e : bulk_error)
| InsertFailed (line : Z) (e : exn).

(** The body of the loop for one row; [ln] is the number of its line. *)
Definition parse_bulk_row (ln : Z) (row : gmap string string) : bulk_item :=
  let q := strip (default EmptyString (row !! "question")) in
  let opts_raw := strip (default EmptyString (row !! "options")) in
  let correct_raw := strip (default EmptyString (row !! "correct")) in
  let atts_raw := strip (default EmptyString (row !! "attachments")) in
  if decide (q = EmptyString ∨ opts_raw = EmptyString ∨ correct_raw = EmptyString)
  then BulkError (MissingFields ln)
  else
    let options := filter (λ o, o ≠ EmptyString) (strip <$> split "|" opts_raw) in
    if decide (¬ (2 ≤ length options ≤ 10)%nat) then BulkError (OptionCount ln (length options))
    else
      match int correct_raw with
      | None => BulkError (CorrectNotNumber ln)
      | Some correct =>
          if decide (¬ (1 ≤ correct ≤ Z.of_nat (length options)))
          then BulkError (CorrectOutOfRange ln (length options))
          else BulkQuestion q options (correct - 1) (parse_attachments_field atts_raw)
      end.

(** [ln] starts at 1, the line of the header, and is advanced before a row
    is looked at. *)
Definition parse_bulk_csv (text : string) : list bulk_item :=
  imap (λ i row, parse_bulk_row (Z.of_nat i + 2) row) (DictReader text).

Definition insert_question_with_data (quiz_id : Z) (q_text : string) (options : list string)
    (correct_index0 : Z) (attachments : list (string * string)) : M Z :=
  created_at ← now_iso;
  qid ← insert_question quiz_id q_text created_at None;
  for_each (enumerate options) (λ '(i, opt_text),
    insert_option
      {| o_question_id := qid; o_option_index := i; o_text := opt_text;
         o_is_correct := if decide (i = correct_index0) then 1 else 0 |});;
  for_each (enumerate (take 5 attachments)) (λ '(pos, (kind, fid)),
    insert_question_attachment
      {| att_owner := qid; att_kind := kind; att_file_id := fid; att_position := pos |});;
  mret qid.

(** The rows that [insert_question_with_data] writes for the options and
    for the attachments of the question [question_id]. *)
Definition numbered_options (question_id correct_index0 : Z) (options : list string)
    : list option_row :=
  (λ '(i, opt_text),
     {| o_question_id := question_id; o_option_index := i; o_text := opt_text;
        o_is_correct := if decide (i = correct_index0) then 1 else 0 |})
  <$> enumerate options.

Definition numbered_attachments (question_id : Z) (attachments : list (string * string))
    : list attachment_row :=
  (λ '(pos, (kind, fid)),
     {| att_owner := question_id; att_kind := kind; att_file_id := fid; att_position := pos |})
  <$> enumerate attachments.

(** The same rows at the positions [start], [start + 1], ... *)
Definition attachments_from (question_id start : Z) (attachments : list (string * string))
    : list attachment_row :=
  (λ '(pos, (kind, fid)),
     {| att_owner := question_id; att_kind := kind; att_file_id := fid;
        att_position := start + pos |})
  <$> enumerate attachments.

(** The options of a question that are marked as correct. *)
Definition correct_options (d : database) (question_id : Z) : list option_row :=
  filter (λ o, o_is_correct o = 1) (options_for_question d question_id).

(** No option and no attachment belongs to a question whose id the table
    has not handed out yet. *)
Definition owned_in_range (d : database) : Prop :=
  Forall (λ o, o_question_id o ≤ qbound d) (options d) ∧
  Forall (λ a, att_owner a ≤ qbound d) (question_attachments d).

(** ** The owner's side

    The handlers of the owner's panel run in a conversation that aiogram
    keeps for the chat and the user, a state and a dictionary of data, and
    they share the module-level [build_session].  A [desk] adds the three
    to the world, with what the owner was shown. *)

Record BuildSession := {
  bs_quiz_id : option Z;
  tmp_question_id : option Z;
  options_needed : Z;
  options_collected : Z;
  att_count : Z }.

(** The file that a message carries: [msg.photo[-1].file_id],
    [msg.voice.file_id], [msg.audio.file_id]. *)
Inductive media :=
| Photo (file_id : string)
| Voice (file_id : string)
| Audio (file_id : string)
| OtherMedia.

(** The buttons of the paged lists, in the order in which they are added.
    A button of a list names its row; the three buttons of the last row
    turn the page. *)
Inductive page_button :=
| PickQuiz (tag : string) (quiz_id : Z) (title : string)
| PickQuestion (tag : string) (quiz_id question_id page : Z) (text : string)
| PickBundle (tag : string) (quiz_id bundle_id : Z) (att_cnt q_cnt : nat)
| PrevPage (tag : string) (prefix : list Z) (page : Z)
| PageNumber (number : Z)
| NextPage (tag : string) (prefix : list Z) (page : Z).

Inductive markup :=
| NoMarkup
| OwnerPanel                                (* owner_panel_reply_kb() *)
| AttachMode                                (* attach_mode_kb() *)
| Paged (buttons : list page_button).

(** One row of the scoreboard. *)
Record score_row := {
  sc_user_id : Z;
  sc_score : Z;
  sc_answered : nat }.

(** The dictionary that [export_quiz_json] returns. *)
Record exported_bundle := {
  xb_id : Z;
  xb_attachments : list (string * string * Z) }.

Record exported_question := {
  xq_id : Z;
  xq_text : string;
  xq_created_at : string;
  xq_media_bundle_id : option Z;
  xq_options : list (Z * string * Z);
  xq_attachments : list (string * string * Z) }.

Record exported_quiz := {
  xz_id : Z;
  xz_title : string;
  xz_created_by : Z;
  xz_created_at : string }.

Record export := {
  exported_at : string;
  x_quiz : exported_quiz;
  x_media_bundles : list exported_bundle;
  x_questions : list exported_question }.

(** The texts shown to the owner, by the handler that sends them. *)
Inductive note :=
| NoteOwnerOnly
| NoteQuizCreated (quiz_id : Z) (title : string)
| NoteQuestionTextUpdated
| NoteChooseAttachMode
| NoteAskQuestionText
| NoteAskNewQuestionText
| NoteChooseBundle
| NoteSendAttachments
| NoteBundleLinked
| NoteSendOrDone
| NoteAskOptionsCount
| NoteMaxAttachments
| NoteUnsupported
| NoteAttachmentSaved (count : Z)
| NoteBadCount
| NoteAskOption (number total : Z)
| NoteAskCorrect (total : Z)
| NoteBadIndex
| NoteQuestionSaved
| NoteAskNewCount
| NoteAskNewOption (number : Z)
| NoteOptionsUpdated
| NoteSendNewAttachments
| NoteAttachmentsUpdated
| NoteSendBundleFiles (bundle_id : Z)
| NoteBundleSaved
| NoteQuestionDeleted
| NoteQuizDeleted
| NoteTitleUpdated
| NoteWiped
| NoteImported (ok_count : nat) (n_errors : nat) (first_errors : list import_error)
| NoteNoQuestions
| NoteNoAnswers
| NoteScoreboard (rows : list score_row)
| NoteExported
| NoteExportFailed (e : exn).

Inductive shown :=
| Reply (t : note) (kb : markup)       (* msg.reply *)
| Answer (t : note) (kb : markup)      (* msg.answer *)
| EditMessage (t : note) (kb : markup) (* cb.message.edit_text *)
| Popup (t : note)                     (* cb.answer *)
| Document (chat_id quiz_id : Z) (stamp : Z) (content : export).  (* bot.send_document *)

Record desk := {
  world_of : world;
  build_session : BuildSession;
  fsm_state : option string;
  fsm_data : gmap string (option Z);
  screen : list shown }.

(** What can go wrong at the desk: a key that the data lack, [int(None)],
    a NOT NULL column that gets [None], and what the world raises. *)
Inductive failure :=
| KeyError (key : string)
| IntOfNone
| NotNull
| Raises (e : exn).

Inductive outcome (A : Type) :=
| Done (a : A)
| Crashed (f : failure).
#[global] Arguments Done {A} a.
#[global] Arguments Crashed {A} f.

Definition Owner (A : Type) : Type := desk → outcome A * desk.

#[global] Instance Owner_ret : MRet Owner := λ A a k, (Done a, k).

#[global] Instance Owner_bind : MBind Owner := λ A B f m k,
  match m k with
  | (Done a, k') => f a k'
  | (Crashed e, k') => (Crashed e, k')
  end.

Definition crash {A} (f : failure) : Owner A := λ k, (Crashed f, k).

Definition with_world (w : world) (k : desk) : desk :=
  {| world_of := w; build_session := build_session k; fsm_state := fsm_state k;
     fsm_data := fsm_data k; screen := screen k |}.

(** A computation of the world, run at the desk. *)
Definition lift {A} (m : M A) : Owner A := λ k,
  match m (world_of k) with
  | (Ok a, w) => (Done a, with_world w k)
  | (Raised e, w) => (Crashed (Raises e), with_world w k)
  end.

(** A statement that changes the database without giving an id back:
    UPDATE, DELETE. *)
Definition sql (f : database → database) : Owner unit := λ k,
  (Done (), with_world (with_store (f (store (world_of k))) (world_of k)) k).

Definition show (s : shown) : Owner unit := λ k,
  (Done (),
   {| world_of := world_of k; build_session := build_session k; fsm_state := fsm_state k;
      fsm_data := fsm_data k; screen := screen k ++ [s] |}).

Definition session : Owner BuildSession := λ k, (Done (build_session k), k).

Definition set_session (s : BuildSession) : Owner unit := λ k,
  (Done (),
   {| world_of := world_of k; build_session := s; fsm_state := fsm_state k;
      fsm_data := fsm_data k; screen := screen k |}).

(** [state.set_state], [state.clear], [state.update_data], [state.get_data] *)
Definition set_state (s : string) : Owner unit := λ k,
  (Done (),
   {| world_of := world_of k; build_session := build_session k; fsm_state := Some s;
      fsm_data := fsm_data k; screen := screen k |}).

Definition clear_state : Owner unit := λ k,
  (Done (),
   {| world_of := world_of k; build_session := build_session k; fsm_state := None;
      fsm_data := ∅; screen := screen k |}).

Definition update_data (key : string) (v : option Z) : Owner unit := λ k,
  (Done (),
   {| world_of := world_of k; build_session := build_session k; fsm_state := fsm_state k;
      fsm_data := <[key := v]> (fsm_data k); screen := screen k |}).

Definition get_data : Owner (gmap string (option Z)) := λ k, (Done (fsm_data k), k).

(** [int(data[key])] and [data[key]] *)
Definition item (data : gmap string (option Z)) (key : string) : Owner (option Z) :=
  match data !! key with
  | Some v => mret v
  | None => crash (KeyError key)
  end.

Definition int_item (data : gmap string (option Z)) (key : string) : Owner Z :=
  v ← item data key;
  match v with
  | Some n => mret n
  | None => crash IntOfNone
  end.

(** Running a handler at the desk. *)
Definition at_desk {A} (m : Owner A) (k : desk) : desk := (m k).2.

(** [ensure_owner] *)
Definition ensure_owner (from_user : Z) : Owner bool :=
  if decide (from_user = OWNER_ID) then mret true
  else show (Reply NoteOwnerOnly OwnerPanel);; mret false.

(** ** The paged lists: [paged_quizzes_kb], [paged_questions_kb] *)

(** [l[a:b]] *)
Definition py_slice {A} (l : list A) (a b : Z) : list A :=
  let n := Z.of_nat (length l) in
  let clamp i := if decide (i < 0) then Z.max (i + n) 0 else Z.min i n in
  take (Z.to_nat (clamp b - clamp a)) (drop (Z.to_nat (clamp a)) l).

(** [SELECT id,title FROM quizzes WHERE is_archived=0 ORDER BY id DESC] *)
Definition open_quizzes (d : database) : list quiz_row :=
  order_by (λ z, - qz_id z) (filter (λ z, qz_is_archived z = 0) (quizzes d)).

(** The last row of a paged list over [n] rows. *)
Definition page_turns (tag : string) (prefix : list Z) (page per : Z) (n : nat)
    : list page_button :=
  let start := page * per in
  (if decide (start > 0) then [PrevPage tag prefix (page - 1)] else []) ++
  [PageNumber (page + 1)] ++
  (if decide (start + per < Z.of_nat n) then [NextPage tag prefix (page + 1)] else []).

(** [per] is 8 wherever the program calls it. *)
Definition paged_quizzes_kb (d : database) (page : Z) (tag : string) (per : Z) : list page_button :=
  let rows := open_quizzes d in
  let start := page * per in
  let chunk := py_slice rows start (start + per) in
  ((λ r, PickQuiz tag (qz_id r) (qz_title r)) <$> chunk) ++
  page_turns tag [] page per (length rows).

(** [per] is 10 wherever the program calls it.  The label of a button is
    the text of the question, cut after 40 characters when it is shown. *)
Definition paged_questions_kb (d : database) (quiz_id page : Z) (tag : string) (per : Z)
    : list page_button :=
  let rows := questions_of_quiz d quiz_id in
  let start := page * per in
  let chunk := py_slice rows start (start + per) in
  ((λ r, PickQuestion tag quiz_id (q_id r) page (q_text r)) <$> chunk) ++
  page_turns tag [quiz_id] page per (length rows).

(** [SELECT id FROM media_bundles WHERE quiz_id=? ORDER BY id DESC] *)
Definition bundles_of_quiz (d : database) (quiz_id : Z) : list bundle_row :=
  order_by (λ b, - b_id b) (filter (λ b, b_quiz_id b = quiz_id) (media_bundles d)).

(** [per] is 8 wherever the program calls it.  A button tells how many
    files the bundle holds and how many questions refer to it. *)
Definition paged_bundles_kb (d : database) (quiz_id page : Z) (tag : string) (per : Z)
    : list page_button :=
  let rows := bundles_of_quiz d quiz_id in
  let start := page * per in
  let chunk := py_slice rows start (start + per) in
  ((λ r,
      let att_cnt := length (filter (λ a, att_owner a = b_id r) (media_bundle_attachments d)) in
      let q_cnt := length (filter (λ q, q_media_bundle_id q = Some (b_id r)) (questions d)) in
      PickBundle tag quiz_id (b_id r) att_cnt q_cnt) <$> chunk) ++
  page_turns tag [quiz_id] page per (length rows).

(** The rows that a page offers, and the page that its last row leads to. *)
Definition is_pick (b : page_button) : bool :=
  match b with
  | PickQuiz _ _ _ | PickQuestion _ _ _ _ _ | PickBundle _ _ _ _ _ => true
  | _ => false
  end.

Definition picks (kb : list page_button) : list page_button :=
  filter (λ b, is_pick b = true) kb.

Definition next_page (kb : list page_button) : option Z :=
  head (omap (λ b, match b with NextPage _ _ p => Some p | _ => None end) kb).

(** Turning the pages from [page] on, as long as there is a next one. *)
Fixpoint leaf_through (fuel : nat) (kb_of : Z → list page_button) (page : Z) : list page_button :=
  match fuel with
  | O => []
  | S fuel' =>
      picks (kb_of page) ++
      match next_page (kb_of page) with
      | Some p => leaf_through fuel' kb_of p
      | None => []
      end
  end.

(** ** Creating a quiz and adding a question *)

Definition with_quiz_id (v : option Z) (s : BuildSession) : BuildSession :=
  {| bs_quiz_id := v; tmp_question_id := tmp_question_id s;
     options_needed := options_needed s; options_collected := options_collected s;
     att_count := att_count s |}.

Definition with_tmp_question_id (v : option Z) (s : BuildSession) : BuildSession :=
  {| bs_quiz_id := bs_quiz_id s; tmp_question_id := v;
     options_needed := options_needed s; options_collected := options_collected s;
     att_count := att_count s |}.

Definition with_options (needed collected : Z) (s : BuildSession) : BuildSession :=
  {| bs_quiz_id := bs_quiz_id s; tmp_question_id := tmp_question_id s;
     options_needed := needed; options_collected := collected;
     att_count := att_count s |}.

Definition with_att_count (n : Z) (s : BuildSession) : BuildSession :=
  {| bs_quiz_id := bs_quiz_id s; tmp_question_id := tmp_question_id s;
     options_needed := options_needed s; options_collected := options_collected s;
     att_count := n |}.

(** The kind and the file of a message that carries one; [None] for a
    file of another kind. *)
Definition kind_and_file (m : media) : option (string * string) :=
  match m with
  | Photo f => Some ("photo", f)
  | Voice f => Some ("voice", f)
  | Audio f => Some ("audio", f)
  | OtherMedia => None
  end.

Definition receive_title (from_user : Z) (text : string) : Owner unit :=
  ok ← ensure_owner from_user;
  if negb ok then clear_state
  else
    let title := strip text in
    created_at ← lift now_iso;
    id ← lift (insert_quiz title OWNER_ID created_at);
    s ← session;
    set_session (with_quiz_id (Some id) s);;
    clear_state;;
    show (Answer (NoteQuizCreated id title) OwnerPanel).

(** [UPDATE questions SET text=? WHERE id=?] *)
Definition update_question_text (question_id : Z) (text : string) (d : database) : database :=
  set_questions
    ((λ q, if decide (q_id q = question_id)
           then {| q_id := q_id q; q_quiz_id := q_quiz_id q; q_text := text;
                   q_created_at := q_created_at q; q_media_bundle_id := q_media_bundle_id q;
                   q_photo := q_photo q; q_audio := q_audio q;
                   q_audio_is_voice := q_audio_is_voice q |}
           else q) <$> questions d) (seq_questions d) d.

(** [picked_quiz_for_addq]: the quiz that the next question goes to. *)
Definition picked_quiz_for_addq (quiz_id : Z) : Owner unit :=
  s ← session;
  set_session (with_quiz_id (Some quiz_id) s);;
  s ← session;
  set_session (with_att_count 0 s);;
  set_state "BuildStates:waiting_q_text";;
  show (EditMessage NoteAskQuestionText NoMarkup).

(** [cb_m_edit_text]: the question whose text the next message gives. *)
Definition cb_m_edit_text (quiz_id question_id page : Z) : Owner unit :=
  update_data "quiz_id" (Some quiz_id);;
  update_data "question_id" (Some question_id);;
  update_data "page" (Some page);;
  set_state "BuildStates:waiting_q_text";;
  show (EditMessage NoteAskNewQuestionText NoMarkup).

(** [receive_q_text]: the new text of a question when the data name one,
    a new question of the quiz of the session otherwise. *)
Definition receive_q_text (from_user : Z) (text : string) : Owner unit :=
  data ← get_data;
  match truthy_int (mjoin (data !! "question_id")) with
  | Some qid_for_edit =>
      ok ← ensure_owner from_user;
      if negb ok then clear_state
      else
        sql (update_question_text qid_for_edit (strip text));;
        clear_state;;
        show (Answer NoteQuestionTextUpdated OwnerPanel)
  | None =>
      ok ← ensure_owner from_user;
      if negb ok then clear_state
      else
        s ← session;
        created_at ← lift now_iso;
        match bs_quiz_id s with
        | None => crash NotNull
        | Some quiz_id =>
            id ← lift (insert_question quiz_id (strip text) created_at None);
            s ← session;
            set_session (with_tmp_question_id (Some id) s);;
            s ← session;
            set_session (with_att_count 0 s);;
            set_state "BuildStates:waiting_attach_mode";;
            show (Answer NoteChooseAttachMode AttachMode)
        end
  end.

(** [choose_attach_mode]: [mode] is what follows [attach_mode:] in the
    data of the button.  A session without a quiz has no bundles to list. *)
Definition choose_attach_mode (mode : string) : Owner unit :=
  if decide (mode = "bundle") then
    set_state "BuildStates:waiting_pick_bundle_for_q";;
    s ← session;
    d ← lift read;
    show (EditMessage NoteChooseBundle
            (Paged match bs_quiz_id s with
                   | Some quiz_id => paged_bundles_kb d quiz_id 0 "pickbundle_for_q" 8
                   | None => [PageNumber 1]
                   end))
  else if decide (mode = "own") then
    set_state "BuildStates:waiting_q_attachments";;
    show (EditMessage NoteSendAttachments NoMarkup)
  else
    set_state "BuildStates:waiting_options_count";;
    show (EditMessage NoteAskOptionsCount NoMarkup).

(** [UPDATE questions SET media_bundle_id=? WHERE id=?]; no row has the id
    NULL. *)
Definition set_media_bundle_id (bundle_id : Z) (question_id : option Z) (d : database)
    : database :=
  set_questions
    ((λ q, if decide (Some (q_id q) = question_id)
           then {| q_id := q_id q; q_quiz_id := q_quiz_id q; q_text := q_text q;
                   q_created_at := q_created_at q; q_media_bundle_id := Some bundle_id;
                   q_photo := q_photo q; q_audio := q_audio q;
                   q_audio_is_voice := q_audio_is_voice q |}
           else q) <$> questions d) (seq_questions d) d.

Definition picked_bundle_for_q (quiz_id bundle_id : Z) : Owner unit :=
  s ← session;
  sql (set_media_bundle_id bundle_id (tmp_question_id s));;
  set_state "BuildStates:waiting_options_count";;
  show (EditMessage NoteBundleLinked NoMarkup).

Definition finish_attachments_if_text (from_user : Z) (text : string) : Owner unit :=
  ok ← ensure_owner from_user;
  if negb ok then clear_state
  else if decide (lower (strip text) = "تم") then
    set_state "BuildStates:waiting_options_count";;
    show (Answer NoteAskOptionsCount OwnerPanel)
  else show (Reply NoteSendOrDone NoMarkup).

Definition receive_attachment (from_user : Z) (m : media) : Owner unit :=
  ok ← ensure_owner from_user;
  if negb ok then clear_state
  else
    s ← session;
    if decide (5 ≤ att_count s) then show (Reply NoteMaxAttachments NoMarkup)
    else
      match kind_and_file m with
      | None => show (Reply NoteUnsupported NoMarkup)
      | Some (kind, file_id) =>
          match tmp_question_id s with
          | None => crash NotNull
          | Some question_id =>
              lift (insert_question_attachment
                      {| att_owner := question_id; att_kind := kind;
                         att_file_id := file_id; att_position := att_count s |});;
              s ← session;
              set_session (with_att_count (att_count s + 1) s);;
              s ← session;
              show (Reply (NoteAttachmentSaved (att_count s)) NoMarkup)
          end
      end.

(** [n] is the number read from the text, [None] when [int] fails on it. *)
Definition receive_options_count (from_user : Z) (n : option Z) : Owner unit :=
  ok ← ensure_owner from_user;
  if negb ok then clear_state
  else
    match n with
    | None => show (Reply NoteBadCount NoMarkup)
    | Some n =>
        if decide (n < 2 ∨ n > 10) then show (Reply NoteBadCount NoMarkup)
        else
          s ← session;
          set_session (with_options n 0 s);;
          set_state "BuildStates:waiting_option_text";;
          show (Answer (NoteAskOption 1 n) OwnerPanel)
    end.

(** [INSERT INTO options(question_id, option_index, text)]: [is_correct]
    takes its default, 0. *)
Definition receive_option_text (from_user : Z) (text : string) : Owner unit :=
  ok ← ensure_owner from_user;
  if negb ok then clear_state
  else
    s ← session;
    let idx := options_collected s in
    match tmp_question_id s with
    | None => crash NotNull
    | Some question_id =>
        lift (insert_option
                {| o_question_id := question_id; o_option_index := idx;
                   o_text := strip text; o_is_correct := 0 |});;
        s ← session;
        set_session (with_options (options_needed s) (options_collected s + 1) s);;
        s ← session;
        if decide (options_collected s < options_needed s) then
          show (Answer (NoteAskOption (options_collected s + 1) (options_needed s)) OwnerPanel)
        else
          set_state "BuildStates:waiting_correct_index";;
          show (Answer (NoteAskCorrect (options_needed s)) OwnerPanel)
    end.

(** [UPDATE options SET is_correct=? WHERE question_id=? AND option_index=?]
    and [UPDATE options SET is_correct=? WHERE question_id=?]; a [None]
    for the question compares with no row. *)
Definition set_is_correct (v : Z) (question_id : option Z) (option_index : option Z)
    (d : database) : database :=
  set_options
    ((λ o, if decide (Some (o_question_id o) = question_id ∧
                      (option_index = None ∨ Some (o_option_index o) = option_index))
           then {| o_question_id := o_question_id o; o_option_index := o_option_index o;
                   o_text := o_text o; o_is_correct := v |}
           else o) <$> options d) d.

Definition receive_correct_index (from_user : Z) (i : option Z) : Owner unit :=
  ok ← ensure_owner from_user;
  if negb ok then clear_state
  else
    s ← session;
    match i with
    | None => show (Reply NoteBadIndex NoMarkup)
    | Some i =>
        if decide (i < 1 ∨ i > options_needed s) then show (Reply NoteBadIndex NoMarkup)
        else
          let correct_idx0 := i - 1 in
          sql (set_is_correct 1 (tmp_question_id s) (Some correct_idx0));;
          clear_state;;
          show (Answer NoteQuestionSaved OwnerPanel)
    end.

(** ** Editing the options and the attachments of a question *)

Definition cb_m_edit_opts (quiz_id question_id page : Z) : Owner unit :=
  update_data "quiz_id" (Some quiz_id);;
  update_data "question_id" (Some question_id);;
  update_data "page" (Some page);;
  set_state "EditOptionStates:waiting_count";;
  show (EditMessage NoteAskNewCount NoMarkup).

Definition m_opts_count (from_user : Z) (n : option Z) : Owner unit :=
  ok ← ensure_owner from_user;
  if negb ok then clear_state
  else
    match n with
    | None => show (Reply NoteBadCount NoMarkup)
    | Some n =>
        if decide (n < 2 ∨ n > 10) then show (Reply NoteBadCount NoMarkup)
        else
          update_data "n" (Some n);;
          update_data "i" (Some 0);;
          set_state "EditOptionStates:waiting_text";;
          show (Answer (NoteAskNewOption 1) OwnerPanel)
    end.

(** [DELETE FROM options WHERE question_id=?] *)
Definition delete_options (question_id : Z) (d : database) : database :=
  set_options (filter (λ o, o_question_id o ≠ question_id) (options d)) d.

Definition m_opts_text (from_user : Z) (text : string) : Owner unit :=
  ok ← ensure_owner from_user;
  if negb ok then clear_state
  else
    data ← get_data;
    n ← int_item data "n";
    i ← int_item data "i";
    qid ← int_item data "question_id";
    (if decide (i = 0) then sql (delete_options qid) else mret ());;
    lift (insert_option
            {| o_question_id := qid; o_option_index := i;
               o_text := strip text; o_is_correct := 0 |});;
    let i := i + 1 in
    update_data "i" (Some i);;
    if decide (i < n) then show (Answer (NoteAskNewOption (i + 1)) OwnerPanel)
    else
      set_state "EditOptionStates:waiting_correct";;
      show (Answer (NoteAskCorrect n) OwnerPanel).

Definition m_opts_correct (from_user : Z) (k : option Z) : Owner unit :=
  ok ← ensure_owner from_user;
  if negb ok then clear_state
  else
    data ← get_data;
    n ← int_item data "n";
    qid ← int_item data "question_id";
    match k with
    | None => show (Reply NoteBadIndex NoMarkup)
    | Some k =>
        if decide (k < 1 ∨ k > n) then show (Reply NoteBadIndex NoMarkup)
        else
          sql (set_is_correct 0 (Some qid) None);;
          sql (set_is_correct 1 (Some qid) (Some (k - 1)));;
          clear_state;;
          show (Answer NoteOptionsUpdated OwnerPanel)
    end.

Definition cb_m_edit_media (quiz_id question_id page : Z) : Owner unit :=
  update_data "question_id" (Some question_id);;
  set_state "BuildStates:waiting_replace_attachments";;
  show (EditMessage NoteSendNewAttachments NoMarkup).

(** [DELETE FROM question_attachments WHERE question_id=?] *)
Definition delete_question_attachments (question_id : Z) (d : database) : database :=
  set_question_attachments
    (filter (λ a, att_owner a ≠ question_id) (question_attachments d)) d.

(** [int(data.get(key, 0))] *)
Definition int_item_or_0 (data : gmap string (option Z)) (key : string) : Owner Z :=
  match data !! key with
  | None => mret 0
  | Some (Some n) => mret n
  | Some None => crash IntOfNone
  end.

Definition ch_media_collect (from_user : Z) (m : media) : Owner unit :=
  ok ← ensure_owner from_user;
  if negb ok then clear_state
  else
    data ← get_data;
    qid ← int_item data "question_id";
    pos ← int_item_or_0 data "pos";
    (if decide (pos = 0) then sql (delete_question_attachments qid) else mret ());;
    if decide (5 ≤ pos) then show (Reply NoteMaxAttachments NoMarkup)
    else
      match kind_and_file m with
      | None => show (Reply NoteUnsupported NoMarkup)
      | Some (kind, file_id) =>
          lift (insert_question_attachment
                  {| att_owner := qid; att_kind := kind;
                     att_file_id := file_id; att_position := pos |});;
          update_data "pos" (Some (pos + 1));;
          show (Reply (NoteAttachmentSaved (pos + 1)) NoMarkup)
      end.

(** ** Shared bundles *)

Definition bundles_for_quiz (quiz_id : Z) : Owner unit :=
  update_data "quiz_id" (Some quiz_id);;
  update_data "bundle_pos" (Some 0);;
  update_data "bundle_id" None;;
  created_at ← lift now_iso;
  bundle_id ← lift (insert_media_bundle quiz_id created_at);
  update_data "bundle_id" (Some bundle_id);;
  set_state "BundleStates:waiting_bundle_files";;
  show (EditMessage (NoteSendBundleFiles bundle_id) NoMarkup).

Definition bundle_add_file (from_user : Z) (m : media) : Owner unit :=
  ok ← ensure_owner from_user;
  if negb ok then clear_state
  else
    data ← get_data;
    pos ← int_item_or_0 data "bundle_pos";
    if decide (5 ≤ pos) then show (Reply NoteMaxAttachments NoMarkup)
    else
      match kind_and_file m with
      | None => show (Reply NoteUnsupported NoMarkup)
      | Some (kind, file_id) =>
          bundle_id ← int_item data "bundle_id";
          lift (insert_bundle_attachment
                  {| att_owner := bundle_id; att_kind := kind;
                     att_file_id := file_id; att_position := pos |});;
          update_data "bundle_pos" (Some (pos + 1));;
          show (Reply (NoteAttachmentSaved (pos + 1)) NoMarkup)
      end.

(** ** Deleting, renaming, wiping *)

(** The largest id that [quizzes] has handed out. *)
Definition zbound (d : database) : Z :=
  Z.max (seq_quizzes d) (max_id (qz_id <$> quizzes d)).

(** [DELETE FROM questions WHERE id=?]; the schema declares no foreign
    key, so no other table follows.  The ids that the table has handed out
    stay handed out. *)
Definition delete_question (question_id : Z) (d : database) : database :=
  set_questions (filter (λ q, q_id q ≠ question_id) (questions d)) (qbound d) d.

Definition cb_m_delete (quiz_id question_id page : Z) : Owner unit :=
  sql (delete_question question_id);;
  d ← lift read;
  show (EditMessage NoteQuestionDeleted
          (Paged (paged_questions_kb d quiz_id page "manageq" 10))).

(** [DELETE FROM quizzes WHERE id=?] *)
Definition delete_quiz (quiz_id : Z) (d : database) : database :=
  set_quizzes (filter (λ z, qz_id z ≠ quiz_id) (quizzes d)) (zbound d) d.

Definition cb_del_quiz_do (quiz_id : Z) : Owner unit :=
  sql (delete_quiz quiz_id);;
  clear_state;;
  show (EditMessage NoteQuizDeleted NoMarkup).

(** [UPDATE quizzes SET title=? WHERE id=?] *)
Definition update_quiz_title (quiz_id : option Z) (title : string) (d : database) : database :=
  set_quizzes
    ((λ z, if decide (Some (qz_id z) = quiz_id)
           then {| qz_id := qz_id z; qz_title := title; qz_created_by := qz_created_by z;
                   qz_created_at := qz_created_at z; qz_is_archived := qz_is_archived z |}
           else z) <$> quizzes d) (seq_quizzes d) d.

Definition cb_renameq_do (from_user : Z) (text : string) : Owner unit :=
  ok ← ensure_owner from_user;
  if negb ok then clear_state
  else
    data ← get_data;
    quiz_id ← item data "quiz_id";
    sql (update_quiz_title quiz_id (strip text));;
    clear_state;;
    show (Answer NoteTitleUpdated OwnerPanel).

(** The script of [cb_wipe_yes]: ten DELETEs without WHERE.  The
    [sqlite_sequence] entries of the AUTOINCREMENT tables stay. *)
Definition wipe (d : database) : database :=
  {| quizzes := []; seq_quizzes := zbound d;
     questions := []; seq_questions := qbound d;
     options := []; responses := []; user_progress := [];
     sent_msgs := []; participant_names := [];
     question_attachments := [];
     media_bundles := []; seq_media_bundles := bbound d;
     media_bundle_attachments := [] |}.

Definition cb_wipe_yes : Owner unit :=
  sql wipe;;
  show (EditMessage NoteWiped NoMarkup).

(** The same handler for each of a list of messages. *)
Fixpoint for_each_message {A} (l : list A) (f : A → Owner unit) : Owner unit :=
  match l with
  | [] => mret ()
  | x :: l' => f x;; for_each_message l' f
  end.

(** ** Bulk import: [_consume_bulk_csv_text] *)

(** The loop over the parsed lines: the number of questions inserted and
    the errors, in order.  An insertion that raises is an error of its
    line. *)
Fixpoint import_items (quiz_id : Z) (idx : Z) (parsed : list bulk_item)
    (ok_count : nat) (errors : list import_error) : M (nat * list import_error) :=
  match parsed with
  | [] => mret (ok_count, errors)
  | BulkError e :: rest =>
      import_items quiz_id (idx + 1) rest ok_count (errors ++ [Rejected e])
  | BulkQuestion question options correct_index0 attachments :: rest =>
      λ w,
        match insert_question_with_data quiz_id question options correct_index0 attachments w with
        | (Ok _, w') => import_items quiz_id (idx + 1) rest (S ok_count) errors w'
        | (Raised e, w') =>
            import_items quiz_id (idx + 1) rest ok_count
              (errors ++ [InsertFailed (idx + 1) e]) w'
        end
  end.

(** A question as an import leaves it in the store [d]: in the quiz of
    the import, with 2 to 10 options of which exactly one is marked as
    correct, and with at most 5 attachments. *)
Definition imported (d : database) (quiz_id : Z) (q : question_row) : Prop :=
  q_quiz_id q = quiz_id ∧
  (2 ≤ length (options_for_question d (q_id q)) ≤ 10)%nat ∧
  length (correct_options d (q_id q)) = 1%nat ∧
  (length (get_question_atts d (q_id q)) ≤ 5)%nat.

Definition _consume_bulk_csv_text (csv_text : string) : Owner unit :=
  data ← get_data;
  quiz_id ← int_item data "quiz_id";
  let parsed := parse_bulk_csv csv_text in
  '(ok_count, errors) ← lift (import_items quiz_id 1 parsed 0 []);
  clear_state;;
  show (Reply (NoteImported ok_count (length errors) (take 10 errors)) OwnerPanel).

Definition bulk_receive_csv_text (from_user : Z) (text : string) : Owner unit :=
  ok ← ensure_owner from_user;
  if negb ok then clear_state
  else _consume_bulk_csv_text text.

(** ** Export: [export_quiz_json], [export_pick] *)

(** [sorted({...})]: the values once each, in ascending order. *)
Definition sorted_set (l : list Z) : list Z := order_by (λ x, x) (remove_dups l).

(** The dictionary is built after the SELECTs: the clock is read first,
    then the row of the quiz is subscripted, which raises [TypeError] when
    there is none. *)
Definition export_quiz_json (quiz_id : Z) : M export :=
  d ← read;
  let quiz := quiz_by_id d quiz_id in
  let questions := questions_of_quiz d quiz_id in
  let bundle_ids := sorted_set (omap q_media_bundle_id questions) in
  let bundles :=
    (λ bid, {| xb_id := bid;
               xb_attachments := attachment_content <$> get_bundle_atts d bid |})
    <$> bundle_ids in
  let qs_out :=
    (λ q, {| xq_id := q_id q; xq_text := q_text q; xq_created_at := q_created_at q;
             xq_media_bundle_id := q_media_bundle_id q;
             xq_options := option_content <$> options_for_question d (q_id q);
             xq_attachments := attachment_content <$> get_question_atts d (q_id q) |})
    <$> questions in
  now ← now_iso;
  match quiz with
  | None => raise TypeError
  | Some z =>
      mret {| exported_at := now;
              x_quiz := {| xz_id := qz_id z; xz_title := qz_title z;
                           xz_created_by := qz_created_by z;
                           xz_created_at := qz_created_at z |};
              x_media_bundles := bundles;
              x_questions := qs_out |}
  end.

(** [export_pick]: whatever the export raises is caught and reported. *)
Definition export_pick (chat_id quiz_id : Z) : Owner unit := λ k,
  match export_quiz_json quiz_id (world_of k) with
  | (Ok content, w) =>
      (stamp ← lift utcnow;
       show (Document chat_id quiz_id stamp content);;
       clear_state;;
       show (Popup NoteExported)) (with_world w k)
  | (Raised e, w) =>
      (clear_state;;
       show (EditMessage (NoteExportFailed e) NoMarkup)) (with_world w k)
  end.

(** ** The scoreboard: [cb_scoreboard_show] *)

(** [SELECT user_id, SUM(is_correct) AS score, COUNT( * ) AS answered
     FROM responses WHERE chat_id=? AND question_id IN (...)
     GROUP BY user_id ORDER BY score DESC, answered DESC LIMIT 20].
    The groups come in the order of [user_id]; the sort keeps that order
    among rows with the same score and the same count. *)
Definition scoreboard (d : database) (chat_id : Z) (q_ids : list Z) : list score_row :=
  let rs := filter (λ r, r_chat_id r = chat_id ∧ r_question_id r ∈ q_ids) (responses d) in
  let users := sorted_set (r_user_id <$> rs) in
  let groups :=
    (λ u, let mine := filter (λ r, r_user_id r = u) rs in
          {| sc_user_id := u;
             sc_score := foldr Z.add 0 (r_is_correct <$> mine);
             sc_answered := length mine |}) <$> users in
  take 20
    (order_by (λ g, - sc_score g)
       (order_by (λ g, - Z.of_nat (sc_answered g)) groups)).

Definition cb_scoreboard_show (chat_id quiz_id : Z) : Owner unit :=
  d ← lift read;
  let q_ids := get_quiz_question_ids d quiz_id in
  if decide (q_ids = []) then show (Popup NoteNoQuestions)
  else
    d ← lift read;
    let rows := scoreboard d chat_id q_ids in
    if decide (rows = []) then show (EditMessage NoteNoAnswers NoMarkup)
    else show (EditMessage (NoteScoreboard rows) NoMarkup).

(** Unfolding the monad of the desk down to functions of the desk. *)
Ltac ounfold :=
  unfold at_desk, mbind, Owner_bind, mret, Owner_ret, ensure_owner, session, set_session,
    set_state, clear_state, update_data, get_data, show, sql, lift, crash, item, int_item,
    int_item_or_0 in *.

(** * Properties *)

(** [_quiz_expired] reads the clock at most once and changes nothing else. *)
Lemma quiz_expired_frame chat_id quiz_id w r w1 :
  _quiz_expired chat_id quiz_id w = (r, w1) →
  store w1 = store w ∧ pending_names w1 = pending_names w ∧
  outbox w1 = outbox w ∧ journal w1 = journal w ∧ api_calls w1 = api_calls w.
Proof.
  unfold _quiz_expired. munfold. simpl.
  repeat case_match; intros [= <- <-]; simpl; auto.
Qed.

(** [_celebrate] sends at most a sticker or an animation. *)
Lemma celebrate_frame chat_id b w :
  ∃ es, _celebrate chat_id b w =
          (Ok (), {| store := store w; pending_names := pending_names w; ticks := ticks w;
                     api_calls := api_calls w; outbox := outbox w ++ es;
                     journal := journal w |})
        ∧ Forall (λ e, ∃ c s, e = SendSticker c s ∨ e = SendAnimation c s) es.
Proof.
  unfold _celebrate. munfold.
  repeat case_match;
    first [ eexists [_]; split; [reflexivity | repeat constructor; eauto]
          | exists []; rewrite app_nil_r; destruct w; split; [reflexivity | constructor] ].
Qed.

(** ** The answer handler, path by path *)

Lemma on_answer_existing chat_id user_id question_id option_index target_user_id w :
  is_Some (response_of (store w) chat_id user_id question_id) →
  let w' := exec (on_answer chat_id user_id question_id option_index target_user_id) w in
  store w' = store w ∧ journal w' = journal w ∧
  (passes_gates w chat_id user_id question_id target_user_id →
   outbox w' = outbox w ++ [CbAnswer PopAlreadyAnswered true] ∧
   pending_names w' = pending_names w).
Proof.
  intros [r Hr]. unfold passes_gates, on_answer. munfold.
  case_decide as Ht; simpl.
  { split; [done|]. split; [done|]. intros [Hn _]. done. }
  destruct (question_by_id (store w) question_id) as [qrow|] eqn:Hq; simpl.
  2:{ split; [done|]. split; [done|]. intros (_ & ? & ? & ? & _). done. }
  destruct (_quiz_expired chat_id (q_quiz_id qrow) w) as [[v|e] w1] eqn:Hx; simpl;
    pose proof (quiz_expired_frame _ _ _ _ _ Hx) as (Hs & Hp & Ho & Hj & _).
  2:{ rewrite Hs, Hj. split; [done|]. split; [done|].
      intros (_ & ? & ? & [= <-] & Hv & _). rewrite Hx in Hv. done. }
  case_decide as Hv; simpl.
  { rewrite Hs, Hj. split; [done|]. split; [done|].
    intros (_ & ? & ? & [= <-] & Hv' & ? & _). rewrite Hx in Hv'. simpl in Hv'. congruence. }
  rewrite Hs.
  destruct (participant_of (store w) chat_id user_id (q_quiz_id qrow)) eqn:Hn; simpl.
  2:{ rewrite Hs, Hj. split; [done|]. split; [done|].
      intros (_ & ? & ? & [= <-] & _ & _ & [? Hn']). congruence. }
  rewrite Hs, Hr. simpl. rewrite Hs, Hj, Ho, Hp. done.
Qed.

Lemma on_answer_records chat_id user_id question_id option_index target_user_id w :
  passes_gates w chat_id user_id question_id target_user_id →
  response_of (store w) chat_id user_id question_id = None →
  records w (exec (on_answer chat_id user_id question_id option_index target_user_id) w)
    chat_id user_id question_id option_index.
Proof.
  intros (Ht & qrow & v & Hq & Hx & Hv & [n Hn]) Hr.
  unfold records, on_answer, insert_response. munfold.
  rewrite decide_False by done. simpl. rewrite Hq. simpl.
  destruct (_quiz_expired chat_id (q_quiz_id qrow) w) as [r w1] eqn:Hx'.
  pose proof (quiz_expired_frame _ _ _ _ _ Hx') as (Hs & Hp & Ho & Hj & _).
  simpl in Hx. subst r. simpl.
  rewrite decide_False by done. simpl. rewrite Hs, Hn. simpl. rewrite Hs, Hr. simpl.
  rewrite Hs, Hr. simpl.
  exists qrow, (isoformat (clock (ticks w1))).
  match goal with |- context [_celebrate ?c ?b ?w0] =>
    destruct (celebrate_frame c b w0) as (cel & -> & Hcel) end.
  simpl. rewrite ?Hs, ?Hj, ?Ho.
  eexists _, cel. split; [done|].
  split.
  2:{ fold (graded_row (store w) chat_id user_id question_id option_index
              (isoformat (clock (ticks w1)))).
      set (d1 := set_responses _ (store w)).
      case_decide as Hc; simpl.
      - destruct (progress_of d1 chat_id user_id (q_quiz_id qrow)) eqn:Hpr; simpl.
        + eexists _, _, _. split; [reflexivity|].
          split; [by rewrite <- app_assoc|]. split; [by right|].
          rewrite <- !app_assoc. simpl. reflexivity.
        + eexists _, _, _. split; [reflexivity|].
          split; [by rewrite <- app_assoc|]. split; [by left|].
          rewrite <- !app_assoc. simpl. reflexivity.
      - split; [done|]. split; [done|]. by rewrite <- app_assoc. }
  constructor; [done|]. eapply Forall_impl; [exact Hcel|].
  intros ? (? & ? & [-> | ->]); done.
Qed.

(** What one call of [on_answer] does: either it rejects the event and
    leaves the database alone, or it records the answer. *)
Lemma on_answer_spec chat_id user_id question_id option_index target_user_id w :
  let w' := exec (on_answer chat_id user_id question_id option_index target_user_id) w in
  (store w' = store w ∧ journal w' = journal w ∧
   ∃ es, outbox w' = outbox w ++ es ∧ Forall quiet es)
  ∨
  (response_of (store w) chat_id user_id question_id = None ∧
   records w w' chat_id user_id question_id option_index).
Proof.
  destruct (response_of (store w) chat_id user_id question_id) as [r|] eqn:Hr.
  { left. destruct (on_answer_existing chat_id user_id question_id option_index
                      target_user_id w) as (Hs & Hj & _); [by eexists|].
    simpl. split; [done|]. split; [done|].
    revert Hs Hj. unfold on_answer. munfold.
    case_decide as Ht; simpl.
    { intros _ _. eexists [_]. split; [done|]. by repeat constructor. }
    destruct (question_by_id (store w) question_id) as [qrow|] eqn:Hq; simpl.
    2:{ intros _ _. eexists [_]. split; [done|]. by repeat constructor. }
    destruct (_quiz_expired chat_id (q_quiz_id qrow) w) as [[v|e] w1] eqn:Hx; simpl;
      pose proof (quiz_expired_frame _ _ _ _ _ Hx) as (Hs & Hp & Ho & Hj & _).
    2:{ intros _ _. rewrite Ho. exists []. by rewrite app_nil_r. }
    case_decide as Hv; simpl.
    { intros _ _. rewrite Ho. eexists [_]. split; [done|]. by repeat constructor. }
    rewrite Hs.
    destruct (participant_of (store w) chat_id user_id (q_quiz_id qrow)) eqn:Hn; simpl.
    2:{ intros _ _. rewrite Ho. eexists [_; _]. split; [by rewrite <- app_assoc|].
        by repeat constructor. }
    rewrite Hs, Hr. simpl. intros _ _. rewrite Ho.
    eexists [_]. split; [done|]. by repeat constructor. }
  destruct (decide (target_user_id ≠ 0 ∧ user_id ≠ target_user_id)) as [Ht|Ht].
  { left. unfold on_answer. munfold. rewrite decide_True by done. simpl.
    split; [done|]. split; [done|]. eexists [_]. split; [done|]. by repeat constructor. }
  destruct (question_by_id (store w) question_id) as [qrow|] eqn:Hq.
  2:{ left. unfold on_answer. munfold. rewrite decide_False by done. simpl. rewrite Hq. simpl.
      split; [done|]. split; [done|]. eexists [_]. split; [done|]. by repeat constructor. }
  destruct (_quiz_expired chat_id (q_quiz_id qrow) w) as [[v|e] w1] eqn:Hx;
    pose proof (quiz_expired_frame _ _ _ _ _ Hx) as (Hs & Hp & Ho & Hj & _).
  2:{ left. unfold on_answer. munfold. rewrite decide_False by done. simpl. rewrite Hq. simpl.
      rewrite Hx. simpl. rewrite Hs, Hj, Ho.
      split; [done|]. split; [done|]. exists []. by rewrite app_nil_r. }
  destruct (decide (v = Some true)) as [Hv|Hv].
  { left. unfold on_answer. munfold. rewrite decide_False by done. simpl. rewrite Hq. simpl.
    rewrite Hx. simpl. rewrite decide_True by done. simpl. rewrite Hs, Hj, Ho.
    split; [done|]. split; [done|]. eexists [_]. split; [done|]. by repeat constructor. }
  destruct (participant_of (store w) chat_id user_id (q_quiz_id qrow)) eqn:Hn.
  2:{ left. unfold on_answer. munfold. rewrite decide_False by done. simpl. rewrite Hq. simpl.
      rewrite Hx. simpl. rewrite decide_False by done. simpl. rewrite Hs, Hn. simpl.
      rewrite Hs, Hj, Ho.
      split; [done|]. split; [done|]. eexists [_; _]. split; [by rewrite <- app_assoc|].
      by repeat constructor. }
  right. split; [done|]. apply on_answer_records; [|done].
  split; [done|]. exists qrow, v. rewrite Hx. by split_and!.
Qed.

(** ** Lists and queries *)

Lemma insert_by_perm {A} (key : A → Z) x l : insert_by key x l ≡ₚ x :: l.
Proof.
  induction l as [|y l IH]; simpl; [done|].
  case_decide; [done|]. rewrite IH. apply Permutation_swap.
Qed.

Lemma order_by_perm {A} (key : A → Z) l : order_by key l ≡ₚ l.
Proof.
  induction l as [|x l IH]; simpl; [done|].
  rewrite insert_by_perm. by rewrite IH.
Qed.

Lemma elem_of_order_by {A} (key : A → Z) l x : x ∈ order_by key l ↔ x ∈ l.
Proof. by rewrite order_by_perm. Qed.

Lemma insert_by_sorted {A} (key : A → Z) x l :
  StronglySorted (λ a b, key a ≤ key b) l →
  StronglySorted (λ a b, key a ≤ key b) (insert_by key x l).
Proof.
  induction 1 as [|y l Hl IH Hy]; simpl.
  - repeat constructor.
  - case_decide.
    + constructor; [by constructor|]. constructor; [done|].
      eapply Forall_impl; [exact Hy|]. simpl. lia.
    + constructor; [done|]. rewrite insert_by_perm. constructor; [lia|done].
Qed.

Lemma order_by_sorted {A} (key : A → Z) l :
  StronglySorted (λ a b, key a ≤ key b) (order_by key l).
Proof.
  induction l; simpl; [constructor|]. by apply insert_by_sorted.
Qed.

Lemma insert_by_fmap {A B} (f : A → B) (key : A → Z) (key' : B → Z) x l :
  (∀ a, key' (f a) = key a) →
  insert_by key' (f x) (f <$> l) = f <$> insert_by key x l.
Proof.
  intros Hk. induction l as [|y l IH]; csimpl; [done|].
  rewrite !Hk. case_decide; csimpl; [done|]. by rewrite IH.
Qed.

Lemma order_by_fmap {A B} (f : A → B) (key : A → Z) (key' : B → Z) l :
  (∀ a, key' (f a) = key a) →
  order_by key' (f <$> l) = f <$> order_by key l.
Proof.
  intros Hk. induction l as [|x l IH]; csimpl; [done|].
  rewrite IH. by apply insert_by_fmap.
Qed.

(** A list that is in order already is left as it is. *)
Lemma order_by_id {A} (key : A → Z) l :
  StronglySorted (λ a b, key a ≤ key b) l → order_by key l = l.
Proof.
  induction 1 as [|x l Hl IH Hx]; simpl; [done|].
  rewrite IH. destruct l as [|y l]; simpl; [done|].
  inversion_clear Hx. by rewrite decide_True.
Qed.

Lemma head_filter_Some {A} (P : A → Prop) `{∀ x, Decision (P x)} l x :
  head (filter P l) = Some x → x ∈ l ∧ P x.
Proof.
  intros Hh. apply head_Some_elem_of in Hh. by apply list_elem_of_filter in Hh as [? ?].
Qed.

Lemma head_filter_None {A} (P : A → Prop) `{∀ x, Decision (P x)} l :
  head (filter P l) = None ↔ Forall (λ x, ¬ P x) l.
Proof.
  rewrite head_None. split.
  - intros Hf. apply Forall_forall. intros x Hx HP.
    assert (x ∈ filter P l) as Hin by (by apply list_elem_of_filter).
    rewrite Hf in Hin. by apply elem_of_nil in Hin.
  - intros Hf. induction Hf as [|x l Hx _ IH]; [done|].
    rewrite filter_cons, decide_False; done.
Qed.

Lemma length_remove_dups_snoc {A} `{EqDecision A} (l : list A) x :
  x ∉ l → length (remove_dups (l ++ [x])) = S (length (remove_dups l)).
Proof.
  induction l as [|a l IH]; simpl; intros Hx; [done|].
  apply not_elem_of_cons in Hx as [Hne Hx].
  destruct (decide_rel elem_of a (l ++ [x])) as [Hin|Hin];
    destruct (decide_rel elem_of a l) as [Hin'|Hin']; simpl; auto.
  - apply elem_of_app in Hin as [?|Hin]; [done|].
    apply list_elem_of_singleton in Hin. congruence.
  - exfalso. apply Hin. apply elem_of_app. by left.
Qed.

Lemma get_quiz_question_ids_ext d d' quiz_id :
  questions d' = questions d →
  get_quiz_question_ids d' quiz_id = get_quiz_question_ids d quiz_id.
Proof. unfold get_quiz_question_ids, questions_of_quiz. by intros ->. Qed.

Lemma elem_of_quiz_question_ids d quiz_id q :
  q ∈ get_quiz_question_ids d quiz_id ↔
  ∃ row, row ∈ questions d ∧ q_id row = q ∧ q_quiz_id row = quiz_id.
Proof.
  unfold get_quiz_question_ids, questions_of_quiz.
  rewrite list_elem_of_fmap. split.
  - intros (row & -> & Hin). rewrite elem_of_order_by in Hin.
    apply list_elem_of_filter in Hin as [? ?]. eauto.
  - intros (row & Hin & <- & Hq). exists row. split; [done|].
    rewrite elem_of_order_by. by apply list_elem_of_filter.
Qed.

Lemma quiz_question_ids_NoDup d quiz_id :
  questions_pk d → NoDup (get_quiz_question_ids d quiz_id).
Proof.
  unfold questions_pk, get_quiz_question_ids, questions_of_quiz. intros Hpk.
  rewrite order_by_perm.
  eapply sublist_NoDup; [exact Hpk|]. apply fmap_sublist, sublist_filter.
Qed.

Lemma question_by_id_Some d q row :
  question_by_id d q = Some row → row ∈ questions d ∧ q_id row = q.
Proof. intros Hh. by apply (head_filter_Some (λ r, q_id r = q)) in Hh. Qed.

(** Under the primary key, the id of a question decides its quiz. *)
Lemma question_quiz_unique d row row' :
  questions_pk d → row ∈ questions d → row' ∈ questions d →
  q_id row = q_id row' → row = row'.
Proof.
  unfold questions_pk. intros Hpk Hin Hin' Heq.
  apply list_elem_of_lookup in Hin as [i Hi]. apply list_elem_of_lookup in Hin' as [j Hj].
  assert (i = j) as ->.
  { eapply NoDup_lookup; [exact Hpk| |]; rewrite list_lookup_fmap.
    - by rewrite Hi.
    - rewrite Hj. simpl. by rewrite Heq. }
  congruence.
Qed.

(** ** Counting answers *)

Lemma responses_in_snoc d chat_id user_id q_ids r :
  responses_in (set_responses (responses d ++ [r]) d) chat_id user_id q_ids =
  responses_in d chat_id user_id q_ids ++
  (if decide (r_chat_id r = chat_id ∧ r_user_id r = user_id ∧ r_question_id r ∈ q_ids)
   then [r] else []).
Proof.
  unfold responses_in. simpl. rewrite filter_app, filter_cons, filter_nil.
  by case_decide.
Qed.

Lemma response_of_None d chat_id user_id q :
  response_of d chat_id user_id q = None →
  ∀ q_ids, q ∉ (r_question_id <$> responses_in d chat_id user_id q_ids).
Proof.
  unfold response_of, responses_in. intros Hn q_ids Hin.
  apply (head_filter_None
           (λ r, r_chat_id r = chat_id ∧ r_user_id r = user_id ∧ r_question_id r = q)) in Hn.
  apply list_elem_of_fmap in Hin as (r & -> & Hr).
  apply list_elem_of_filter in Hr as [(? & ? & _) Hr].
  rewrite Forall_forall in Hn. by apply (Hn r).
Qed.

Lemma answered_cnt_snoc_new d chat_id user_id q_ids r :
  r_chat_id r = chat_id → r_user_id r = user_id → r_question_id r ∈ q_ids →
  response_of d chat_id user_id (r_question_id r) = None →
  answered_cnt (set_responses (responses d ++ [r]) d) chat_id user_id q_ids =
  S (answered_cnt d chat_id user_id q_ids).
Proof.
  intros Hc Hu Hq Hn. unfold answered_cnt.
  rewrite responses_in_snoc, decide_True by done.
  rewrite fmap_app. simpl. apply length_remove_dups_snoc. by apply response_of_None.
Qed.

Lemma responses_in_snoc_other d chat_id user_id q_ids r :
  ¬ (r_chat_id r = chat_id ∧ r_user_id r = user_id ∧ r_question_id r ∈ q_ids) →
  responses_in (set_responses (responses d ++ [r]) d) chat_id user_id q_ids =
  responses_in d chat_id user_id q_ids.
Proof. intros Hn. rewrite responses_in_snoc, decide_False by done. apply app_nil_r. Qed.

(** When the count reaches the number of questions, every question of the
    quiz has its response. *)
Lemma answered_all d chat_id user_id q_ids q :
  NoDup q_ids →
  answered_cnt d chat_id user_id q_ids = length q_ids →
  q ∈ q_ids → is_Some (response_of d chat_id user_id q).
Proof.
  unfold answered_cnt. intros Hnd Hlen Hq.
  set (a := remove_dups (r_question_id <$> responses_in d chat_id user_id q_ids)) in Hlen |- *.
  assert (a ≡ₚ q_ids) as Hperm.
  { apply submseteq_length_Permutation; [|lia].
    apply NoDup_submseteq; [apply NoDup_remove_dups|].
    intros x Hx. apply elem_of_remove_dups, list_elem_of_fmap in Hx as (r & -> & Hr).
    by apply list_elem_of_filter in Hr as [(_ & _ & ?) _]. }
  rewrite <- Hperm in Hq.
  apply elem_of_remove_dups, list_elem_of_fmap in Hq as (r & -> & Hr).
  apply list_elem_of_filter in Hr as [(Hc & Hu & _) Hr].
  unfold response_of.
  destruct (head _) eqn:Hh; [by eexists|].
  apply (head_filter_None
           (λ r0, r_chat_id r0 = chat_id ∧ r_user_id r0 = user_id ∧
                  r_question_id r0 = r_question_id r)) in Hh.
  rewrite Forall_forall in Hh. by destruct (Hh r Hr).
Qed.

Lemma sum_graded (l : list response_row) :
  Forall (λ r, r_is_correct r = 0 ∨ r_is_correct r = 1) l →
  foldr Z.add 0 (r_is_correct <$> l) =
  Z.of_nat (length (filter (λ r, r_is_correct r = 1) l)).
Proof.
  induction 1 as [|r l Hr _ IH]; [done|].
  csimpl. rewrite IH, filter_cons. case_decide; simpl; lia.
Qed.

(** With grades 0 and 1 the sum of [is_correct] counts the correct answers. *)
Lemma score_graded d chat_id user_id q_ids :
  responses_graded d →
  score_of d chat_id user_id q_ids =
  Z.of_nat (length (correct_responses d chat_id user_id q_ids)).
Proof.
  unfold responses_graded, score_of, correct_responses. intros Hg.
  apply sum_graded. unfold responses_in.
  apply Forall_forall. intros r Hr. apply list_elem_of_filter in Hr as [_ Hr].
  rewrite Forall_forall in Hg. by apply Hg.
Qed.

Lemma graded_row_graded d chat_id user_id q idx ts :
  r_is_correct (graded_row d chat_id user_id q idx ts) = 0 ∨
  r_is_correct (graded_row d chat_id user_id q idx ts) = 1.
Proof. simpl. repeat case_match; auto. Qed.

(** ** The other two handlers of the participants *)

Lemma cb_start_quiz_calm chat_id user_id payload w :
  calm w (exec (cb_start_quiz chat_id user_id payload) w).
Proof.
  unfold calm, cb_start_quiz. munfold.
  destruct payload as [quiz_id|]; simpl.
  2:{ split; [done|]. split; [done|]. split.
      - exists []. by rewrite app_nil_r.
      - eexists [_]. split; [done|]. by repeat constructor. }
  destruct (_quiz_expired chat_id quiz_id w) as [[v|e] w1] eqn:Hx; simpl;
    pose proof (quiz_expired_frame _ _ _ _ _ Hx) as (Hs & Hp & Ho & Hj & _).
  2:{ rewrite Hs, Hj, Ho. split; [done|]. split; [done|].
      split; exists []; by rewrite app_nil_r. }
  case_decide; simpl.
  { rewrite Hs, Hj, Ho. split; [done|]. split; [done|]. split.
    - exists []. by rewrite app_nil_r.
    - eexists [_]. split; [done|]. by repeat constructor. }
  destruct (participant_of (store w1) chat_id user_id quiz_id); simpl;
    rewrite Hs, Hj, Ho; (split; [done|]); (split; [done|]); split;
    try (exists []; by rewrite app_nil_r).
  - eexists [_]. split; [done|]. by repeat constructor.
  - eexists [_; _]. split; [by rewrite <- app_assoc|]. by repeat constructor.
Qed.

Lemma catch_name_in_group_calm in_group chat_id user_id text w :
  calm w (exec (catch_name_in_group in_group chat_id user_id text) w).
Proof.
  unfold calm, catch_name_in_group, upsert_participant. munfold.
  destruct in_group; simpl.
  2:{ split; [done|]. split; [done|]. split; exists []; by rewrite app_nil_r. }
  destruct (head _) as [[[c u] z]|]; simpl.
  2:{ split; [done|]. split; [done|]. split; exists []; by rewrite app_nil_r. }
  case_decide; simpl.
  { split; [done|]. split; [done|]. split; exists []; by rewrite app_nil_r. }
  split; [done|]. split; [done|]. split.
  - eexists [_]. split; [done|]. by repeat constructor.
  - eexists [_]. split; [done|]. by repeat constructor.
Qed.

(** ** Completion *)

Lemma finish_writes_app chat_id user_id quiz_id j1 j2 :
  finish_writes chat_id user_id quiz_id (j1 ++ j2) =
  (finish_writes chat_id user_id quiz_id j1 + finish_writes chat_id user_id quiz_id j2)%nat.
Proof. unfold finish_writes. by rewrite filter_app, length_app. Qed.

Lemma finish_writes_cons chat_id user_id quiz_id j js :
  finish_writes chat_id user_id quiz_id (j :: js) =
  ((if is_finish_write chat_id user_id quiz_id j then 1 else 0) +
   finish_writes chat_id user_id quiz_id js)%nat.
Proof.
  unfold finish_writes. rewrite filter_cons.
  destruct (is_finish_write chat_id user_id quiz_id j); by case_decide.
Qed.

Lemma finish_writes_none chat_id user_id quiz_id js :
  Forall (λ j, ∀ c u z, is_finish_write c u z j = false) js →
  finish_writes chat_id user_id quiz_id js = 0%nat.
Proof.
  unfold finish_writes. induction 1 as [|j js Hj _ IH]; [done|].
  rewrite filter_cons, decide_False; [done|]. by rewrite Hj.
Qed.

Lemma final_results_app chat_id user_id quiz_id o1 o2 :
  final_results chat_id user_id quiz_id (o1 ++ o2) =
  final_results chat_id user_id quiz_id o1 ++ final_results chat_id user_id quiz_id o2.
Proof. apply omap_app. Qed.

Lemma final_results_quiet chat_id user_id quiz_id es :
  Forall quiet es → final_results chat_id user_id quiz_id es = [].
Proof.
  unfold final_results. induction 1 as [|e es He _ IH]; [done|].
  assert (final_result_of chat_id user_id quiz_id e = None) as Hn
    by (destruct e as [| ? []| | | | | | |]; done).
  csimpl. by rewrite Hn.
Qed.

Lemma answered_cnt_ext d d' chat_id user_id q_ids :
  responses d' = responses d →
  answered_cnt d' chat_id user_id q_ids = answered_cnt d chat_id user_id q_ids.
Proof. unfold answered_cnt, responses_in. by intros ->. Qed.

Lemma score_of_ext d d' chat_id user_id q_ids :
  responses d' = responses d →
  score_of d' chat_id user_id q_ids = score_of d chat_id user_id q_ids.
Proof. unfold score_of, responses_in. by intros ->. Qed.

Lemma completion_inv_calm chat_id user_id quiz_id q_ids a b w w' :
  calm w w' →
  completion_inv chat_id user_id quiz_id q_ids a b w →
  completion_inv chat_id user_id quiz_id q_ids a b w'.
Proof.
  intros (Hr & Hq & (js & Hj & Hjs) & (es & Ho & Hes)) (HQ & Hpk & Hfw & Hfr).
  unfold completion_inv, questions_pk.
  rewrite (answered_cnt_ext (store w)), (score_of_ext (store w)) by done.
  rewrite Hq, Hj, Ho, finish_writes_app, final_results_app.
  rewrite (finish_writes_none _ _ _ js), (final_results_quiet _ _ _ es) by done.
  rewrite Nat.add_0_r, app_nil_r.
  split; [|done]. by rewrite (get_quiz_question_ids_ext (store w)).
Qed.

Lemma completion_inv_step chat_id user_id quiz_id q_ids a b e w :
  completion_inv chat_id user_id quiz_id q_ids a b w →
  completion_inv chat_id user_id quiz_id q_ids a b (exec (handle e) w).
Proof.
  intros Hinv. destruct e as [c u p | g c u t | c u q idx t]; simpl.
  { eapply completion_inv_calm; [apply cb_start_quiz_calm|done]. }
  { eapply completion_inv_calm; [apply catch_name_in_group_calm|done]. }
  destruct (on_answer_spec c u q idx t w) as
    [(Hs & Hj & es & Ho & Hes) | (Hr & qrow & ts & fb & cel & Hq & Hquiet & Hrec)].
  { eapply completion_inv_calm; [|done]. split; [by rewrite Hs|]. split; [by rewrite Hs|].
    split; [exists []; by rewrite app_nil_r|]. by exists es. }
  destruct Hinv as (HQ & Hpk & Hfw & Hfr).
  apply question_by_id_Some in Hq as [Hin Hid].
  set (r := graded_row (store w) c u q idx ts) in Hrec |- *.
  set (d1 := set_responses (responses (store w) ++ [r]) (store w)) in Hrec |- *.
  set (w' := exec (on_answer c u q idx t) w) in Hrec |- *.
  assert (∀ z, get_quiz_question_ids d1 z = get_quiz_question_ids (store w) z) as HQ1
    by (intros; by apply get_quiz_question_ids_ext).
  simpl in Hrec. rewrite HQ1 in Hrec.
  assert (q ∈ get_quiz_question_ids (store w) (q_quiz_id qrow)) as Hqin
    by (apply elem_of_quiz_question_ids; eauto).
  inversion_clear Hquiet as [|?? Hfb Hcel].
  (* what the step leaves, whichever way it ends *)
  assert (questions (store w') = questions (store w) ∧ responses (store w') = responses d1)
    as [Hqs Hrs].
  { case_decide.
    - destruct Hrec as (up & j & name & -> & _). done.
    - destruct Hrec as (-> & _). done. }
  unfold completion_inv, questions_pk.
  rewrite (answered_cnt_ext d1), (score_of_ext d1), Hqs by done.
  rewrite (get_quiz_question_ids_ext (store w)) by done.
  split; [done|]. split; [done|].
  destruct (decide (c = chat_id ∧ u = user_id ∧ q_quiz_id qrow = quiz_id))
    as [(-> & -> & Hz)|Hother].
  - (* an answer of this participant to a question of this quiz *)
    rewrite Hz, HQ in Hrec, Hqin.
    assert (answered_cnt d1 chat_id user_id q_ids =
            S (answered_cnt (store w) chat_id user_id q_ids)) as Hcnt
      by (by apply answered_cnt_snoc_new).
    assert (answered_cnt (store w) chat_id user_id q_ids ≠ length q_ids) as Hnot.
    { intros Hall.
      eapply answered_all in Hall as [? Hsome];
        [|by rewrite <- HQ; apply quiz_question_ids_NoDup|exact Hqin].
      congruence. }
    rewrite decide_False in Hfw by done. rewrite decide_False in Hfr by done.
    rewrite Nat.add_0_r in Hfw. rewrite app_nil_r in Hfr.
    destruct (decide (answered_cnt d1 chat_id user_id q_ids = length q_ids)) as [Hdone|Hdone].
    + destruct Hrec as (up & j & name & Hs & Hj & Hjj & Ho).
      rewrite Hj, Ho, finish_writes_app, Hfw.
      rewrite app_comm_cons, !final_results_app, Hfr.
      rewrite (final_results_quiet _ _ _ (fb :: cel)) by (by constructor).
      split.
      * f_equal. rewrite !finish_writes_cons.
        destruct Hjj as [-> | ->]; simpl; rewrite bool_decide_true by done; done.
      * unfold final_results. csimpl. by rewrite decide_True.
    + destruct Hrec as (Hs & Hj & Ho).
      rewrite Hj, Ho, finish_writes_app, Hfw, final_results_app, Hfr.
      rewrite (final_results_quiet _ _ _ (fb :: cel)) by (by constructor).
      rewrite app_nil_r. split; [|done]. rewrite finish_writes_cons. simpl.
      unfold finish_writes. simpl. done.
  - (* an answer of somebody else, or to a question of another quiz *)
    assert (¬ (r_chat_id r = chat_id ∧ r_user_id r = user_id ∧ r_question_id r ∈ q_ids)) as Hout.
    { simpl. intros (-> & -> & Hq'). apply Hother. split; [done|]. split; [done|].
      rewrite <- HQ in Hq'. apply elem_of_quiz_question_ids in Hq' as (row & Hrow & Hrid & <-).
      f_equal. apply (question_quiz_unique (store w)); [done..|congruence]. }
    assert (responses_in d1 chat_id user_id q_ids = responses_in (store w) chat_id user_id q_ids)
      as Hsame by (by apply responses_in_snoc_other).
    unfold answered_cnt, score_of. rewrite Hsame.
    fold (answered_cnt (store w) chat_id user_id q_ids).
    fold (score_of (store w) chat_id user_id q_ids).
    assert (∀ j, j = InsProgress c u (q_quiz_id qrow) ∨ j = UpdProgress c u (q_quiz_id qrow) →
                 is_finish_write chat_id user_id quiz_id j = false) as Hjno.
    { intros j [-> | ->]; simpl; by apply bool_decide_eq_false. }
    destruct (decide (answered_cnt d1 c u (get_quiz_question_ids (store w) (q_quiz_id qrow)) =
                      length (get_quiz_question_ids (store w) (q_quiz_id qrow)))) as [Hdone|Hdone].
    + destruct Hrec as (up & j & name & Hs & Hj & Hjj & Ho).
      rewrite Hj, Ho, finish_writes_app, Hfw.
      rewrite app_comm_cons, !final_results_app, Hfr.
      rewrite (final_results_quiet _ _ _ (fb :: cel)) by (by constructor).
      split.
      * rewrite !finish_writes_cons, (Hjno j Hjj). simpl. unfold finish_writes. simpl. done.
      * unfold final_results. csimpl. rewrite (decide_False _ _ Hother).
        by rewrite !app_nil_r.
    + destruct Hrec as (Hs & Hj & Ho).
      rewrite Hj, Ho, finish_writes_app, Hfw, final_results_app, Hfr.
      rewrite (final_results_quiet _ _ _ (fb :: cel)) by (by constructor).
      rewrite app_nil_r. split; [|done]. rewrite finish_writes_cons. simpl.
      unfold finish_writes. simpl. done.
Qed.

(** What an event does to the table of responses. *)
Lemma handle_responses e w :
  let w' := exec (handle e) w in
  (responses (store w') = responses (store w) ∧ questions (store w') = questions (store w))
  ∨ ∃ c u q idx t ts,
      e = EvAnswer c u q idx t ∧
      response_of (store w) c u q = None ∧
      questions (store w') = questions (store w) ∧
      responses (store w') = responses (store w) ++ [graded_row (store w) c u q idx ts].
Proof.
  destruct e as [c u p | g c u t | c u q idx t]; simpl.
  - left. by destruct (cb_start_quiz_calm c u p w) as (? & ? & _).
  - left. by destruct (catch_name_in_group_calm g c u t w) as (? & ? & _).
  - destruct (on_answer_spec c u q idx t w) as
      [(Hs & _) | (Hr & qrow & ts & fb & cel & Hq & _ & Hrec)].
    + left. by rewrite Hs.
    + right. exists c, u, q, idx, t, ts. split; [done|]. split; [done|].
      simpl in Hrec. case_decide.
      * destruct Hrec as (up & j & name & -> & _). done.
      * destruct Hrec as (-> & _). done.
Qed.

Lemma handle_graded e w :
  responses_graded (store w) → responses_graded (store (exec (handle e) w)).
Proof.
  unfold responses_graded. intros Hg.
  destruct (handle_responses e w) as [[-> _] | (c & u & q & idx & t & ts & _ & _ & _ & ->)];
    [done|].
  apply Forall_app. split; [done|]. constructor; [|done]. apply graded_row_graded.
Qed.

Lemma run_graded es w :
  responses_graded (store w) → responses_graded (store (run es w)).
Proof.
  revert w. induction es as [|e es IH]; intros w Hg; simpl; [done|].
  by apply IH, handle_graded.
Qed.

(** The UNIQUE constraint holds after every event. *)
Lemma handle_unique e w :
  responses_unique (store w) → responses_unique (store (exec (handle e) w)).
Proof.
  unfold responses_unique. intros Hu.
  destruct (handle_responses e w) as [[-> _] | (c & u & q & idx & t & ts & _ & Hn & _ & ->)];
    [done|].
  rewrite fmap_app. apply NoDup_app. split; [done|]. split; [|apply NoDup_singleton].
  intros k Hk Hk'. apply list_elem_of_singleton in Hk'. subst k.
  apply list_elem_of_fmap in Hk as (r & Hkey & Hr).
  apply (head_filter_None
           (λ r, r_chat_id r = c ∧ r_user_id r = u ∧ r_question_id r = q)) in Hn.
  rewrite Forall_forall in Hn. apply (Hn r Hr).
  unfold response_key in Hkey. simpl in Hkey. by inversion Hkey.
Qed.

Lemma run_unique es w :
  responses_unique (store w) → responses_unique (store (run es w)).
Proof.
  revert w. induction es as [|e es IH]; intros w Hu; simpl; [done|].
  by apply IH, handle_unique.
Qed.

Lemma run_completion_inv chat_id user_id quiz_id q_ids a b es w :
  completion_inv chat_id user_id quiz_id q_ids a b w →
  completion_inv chat_id user_id quiz_id q_ids a b (run es w).
Proof.
  revert w. induction es as [|e es IH]; intros w Hinv; simpl; [done|].
  by apply IH, completion_inv_step.
Qed.

(** ** The claims about the answer machine *)

(** C1, as amended.  When a response of the user to the question exists in
    the chat, an answer event changes nothing in the database: no row is
    inserted or overwritten and nothing is written at all.  The event is
    rejected; the rejection is "already answered" when the event passes the
    gates that stand before that check (the control is for this user, the
    question exists, the session is not expired, the user has given a name),
    and with it the dictionary of pending names is left alone.  And whatever
    the participants do, the table of responses keeps at most one row per
    chat, user and question. *)
Theorem answer_already_recorded chat_id user_id question_id option_index target_user_id w es :
  responses_unique (store w) →
  is_Some (response_of (store w) chat_id user_id question_id) →
  let w' := exec (on_answer chat_id user_id question_id option_index target_user_id) w in
  store w' = store w ∧ journal w' = journal w ∧
  (passes_gates w chat_id user_id question_id target_user_id →
   outbox w' = outbox w ++ [CbAnswer PopAlreadyAnswered true] ∧
   pending_names w' = pending_names w) ∧
  responses_unique (store (run es w)).
Proof.
  intros Hu Hr.
  destruct (on_answer_existing chat_id user_id question_id option_index target_user_id w Hr)
    as (Hs & Hj & Hg).
  simpl. split; [done|]. split; [done|]. split; [done|]. by apply run_unique.
Qed.

(** C2.  In a run of the participants' events that starts before a user has
    answered every question of a quiz in a chat, [finished_at] of that user
    is written once and one final result is posted for them if the run ends
    with all the questions answered, and neither happens otherwise; the
    result posted is the number of their correct answers out of the number
    of questions. *)
Theorem completion_exactly_once chat_id user_id quiz_id es w :
  questions_pk (store w) →
  responses_graded (store w) →
  let q_ids := get_quiz_question_ids (store w) quiz_id in
  (answered_cnt (store w) chat_id user_id q_ids < length q_ids)%nat →
  let w' := run es w in
  let completed := answered_cnt (store w') chat_id user_id q_ids = length q_ids in
  finish_writes chat_id user_id quiz_id (journal w') =
    (finish_writes chat_id user_id quiz_id (journal w) + if decide completed then 1 else 0)%nat ∧
  final_results chat_id user_id quiz_id (outbox w') =
    final_results chat_id user_id quiz_id (outbox w) ++
    (if decide completed
     then [(Z.of_nat (length (correct_responses (store w') chat_id user_id q_ids)),
            length q_ids)]
     else []).
Proof.
  intros Hpk Hg q_ids Hlt w' completed.
  assert (completion_inv chat_id user_id quiz_id q_ids
            (finish_writes chat_id user_id quiz_id (journal w))
            (final_results chat_id user_id quiz_id (outbox w)) w) as Hinv.
  { split; [done|]. split; [done|].
    rewrite !decide_False by lia. by rewrite Nat.add_0_r, app_nil_r. }
  apply (run_completion_inv _ _ _ _ _ _ es) in Hinv as (_ & _ & Hfw & Hfr).
  fold w' in Hfw, Hfr. subst completed.
  rewrite <- score_graded by (by apply run_graded). done.
Qed.

(** C6, as amended.  A begin event on a session that is not expired marks
    the chat, the user and the quiz as pending a name and asks for the name
    when the user has no name for the quiz in the chat; when the user has
    one, it only wishes good luck, and marks and asks nothing.  The database
    is not touched. *)
Theorem begin_asks_name_unless_named chat_id user_id quiz_id w v :
  (_quiz_expired chat_id quiz_id w).1 = Ok v →
  v ≠ Some true →
  let w' := exec (cb_start_quiz chat_id user_id (Some quiz_id)) w in
  store w' = store w ∧
  match participant_of (store w) chat_id user_id quiz_id with
  | None =>
      (chat_id, user_id, quiz_id) ∈ pending_names w' ∧
      outbox w' = outbox w ++ [CbAnswer PopNone false; BotSendMessage chat_id (TxtAskName user_id)]
  | Some _ =>
      pending_names w' = pending_names w ∧
      outbox w' = outbox w ++ [CbAnswer PopGoodLuck false]
  end.
Proof.
  intros Hx Hv. unfold cb_start_quiz. munfold. simpl.
  destruct (_quiz_expired chat_id quiz_id w) as [r w1] eqn:Hx'.
  pose proof (quiz_expired_frame _ _ _ _ _ Hx') as (Hs & Hp & Ho & Hj & _).
  simpl in Hx. subst r. simpl. rewrite decide_False by done. simpl. rewrite Hs.
  destruct (participant_of (store w) chat_id user_id quiz_id); simpl; rewrite Hs, Ho, ?Hp.
  - done.
  - split; [done|]. split; [|by rewrite <- app_assoc].
    unfold dict_set. case_decide; [done|]. apply elem_of_app. right. by apply list_elem_of_singleton.
Qed.

(** C7, as amended.  An answer event for a question that does not exist is
    aborted with nothing written, and reported as not found when the control
    is for this user.  An event for a question that exists and an option
    index that it does not have is not aborted: once it passes the gates and
    meets no earlier response, one response is stored for the chat, the
    user and the question, with the index as submitted and graded wrong. *)
Theorem missing_option_is_graded_wrong chat_id user_id question_id option_index target_user_id w :
  option_of (store w) question_id option_index = None →
  let w' := exec (on_answer chat_id user_id question_id option_index target_user_id) w in
  (question_by_id (store w) question_id = None →
   store w' = store w ∧ journal w' = journal w ∧
   (¬ (target_user_id ≠ 0 ∧ user_id ≠ target_user_id) →
    outbox w' = outbox w ++ [CbAnswer PopQuestionMissing true])) ∧
  (passes_gates w chat_id user_id question_id target_user_id →
   response_of (store w) chat_id user_id question_id = None →
   ∃ ts, responses (store w') =
         responses (store w) ++
         [ {| r_chat_id := chat_id; r_user_id := user_id; r_question_id := question_id;
              r_option_index := option_index; r_is_correct := 0; r_answered_at := ts |} ]).
Proof.
  intros Hopt. simpl. split.
  - intros Hq. unfold on_answer. munfold. case_decide; simpl; [done|]. rewrite Hq. simpl. done.
  - intros Hg Hr.
    destruct (on_answer_records chat_id user_id question_id option_index target_user_id w Hg Hr)
      as (qrow & ts & fb & cel & Hq & _ & Hrec).
    exists ts. simpl in Hrec. unfold graded_row in Hrec. rewrite Hopt in Hrec.
    case_decide.
    + destruct Hrec as (up & j & name & -> & _). done.
    + destruct Hrec as (-> & _). done.
Qed.

(** ** The publish pass *)

Lemma sends_only_refl chat_id quiz_id expires_at w :
  sends_only chat_id quiz_id expires_at w w [].
Proof.
  exists [], []. rewrite !app_nil_r. split; [by destruct w as [[]]|]. by split_and!.
Qed.

Lemma sends_only_trans chat_id quiz_id expires_at w1 w2 w3 es1 es2 :
  sends_only chat_id quiz_id expires_at w1 w2 es1 →
  sends_only chat_id quiz_id expires_at w2 w3 es2 →
  sends_only chat_id quiz_id expires_at w1 w3 (es1 ++ es2).
Proof.
  intros (r1 & j1 & Hs1 & Hr1 & Hp1 & Ht1 & Ho1 & Hj1 & Hf1 & Hl1)
         (r2 & j2 & Hs2 & Hr2 & Hp2 & Ht2 & Ho2 & Hj2 & Hf2 & Hl2).
  exists (r1 ++ r2), (j1 ++ j2).
  rewrite Hs2, Hs1, Hp2, Hp1, Ht2, Ht1, Ho2, Ho1, Hj2, Hj1. simpl.
  rewrite !app_assoc, !length_app, Hl1, Hl2. split_and!; try done; by apply Forall_app.
Qed.

(** A stretch of the pass leaves every table but [sent_msgs] as it was. *)
Lemma sends_only_tables chat_id quiz_id expires_at w w' es :
  sends_only chat_id quiz_id expires_at w w' es →
  quizzes (store w') = quizzes (store w) ∧
  questions (store w') = questions (store w) ∧
  options (store w') = options (store w) ∧
  question_attachments (store w') = question_attachments (store w) ∧
  media_bundle_attachments (store w') = media_bundle_attachments (store w).
Proof. intros (r & j & -> & _). done. Qed.

Lemma safe_send_spec o u w :
  ∃ m k, _safe_send o u w =
    (Ok m, {| store := store w; pending_names := pending_names w; ticks := ticks w;
              api_calls := k; outbox := outbox w ++ [SafeSend o u m];
              journal := journal w |}).
Proof.
  unfold _safe_send, call_transport. munfold. simpl.
  destruct (transport (api_calls w)); simpl; [by eexists _, _| |by eexists _, _].
  destruct (transport (S (api_calls w))); by eexists _, _.
Qed.

(** One unit sent and recorded. *)
Lemma send_and_record chat_id quiz_id expires_at o u w :
  ∃ w' m,
    (m ← _safe_send o u; record_sent chat_id quiz_id expires_at m) w = (Ok (), w') ∧
    sends_only chat_id quiz_id expires_at w w' [SafeSend o u m].
Proof.
  destruct (safe_send_spec o u w) as (m & k & Hsend).
  unfold mbind, M_bind at 1. rewrite Hsend. unfold record_sent, execute.
  destruct m as [id|]; simpl.
  - eexists _, _. split; [done|]. eexists [_], [_]. simpl. by split_and!; try repeat constructor.
  - eexists _, _. split; [munfold; done|]. exists [], []. rewrite !app_nil_r. simpl.
    split; [by destruct w as [[]]|]. by split_and!.
Qed.

(** The attachments [atts], each sent bare from [o] and recorded. *)
Lemma send_attachments chat_id quiz_id expires_at o atts w :
  ∃ w' es,
    for_each atts (λ att,
      m ← _safe_send o (attachment_unit chat_id att None None);
      record_sent chat_id quiz_id expires_at m) w = (Ok (), w') ∧
    sends_only chat_id quiz_id expires_at w w' es ∧
    Forall2 (λ e att, ∃ m, e = SafeSend o (attachment_unit chat_id att None None) m) es atts.
Proof.
  revert w. induction atts as [|att atts IH]; intros w; simpl.
  - exists w, []. split; [done|]. split; [apply sends_only_refl|constructor].
  - destruct (send_and_record chat_id quiz_id expires_at o
                (attachment_unit chat_id att None None) w) as (w1 & m & Hrun & Hs1).
    destruct (IH w1) as (w2 & es & Hrun2 & Hs2 & Hes).
    exists w2, ([SafeSend o (attachment_unit chat_id att None None) m] ++ es).
    split.
    + unfold mbind at 1, M_bind at 1. rewrite Hrun. exact Hrun2.
    + split; [by eapply sends_only_trans|]. constructor; [by eexists|done].
Qed.

Lemma publish_bundle_spec chat_id quiz_id expires_at bundle_id w :
  ∃ w' es,
    publish_bundle chat_id quiz_id expires_at bundle_id w = (Ok (), w') ∧
    sends_only chat_id quiz_id expires_at w w' es ∧
    bundle_sends (store w) chat_id bundle_id es.
Proof.
  unfold publish_bundle, bundle_sends. unfold mbind at 1, M_bind at 1, read. simpl.
  apply send_attachments.
Qed.

Lemma publish_question_spec chat_id quiz_id expires_at q w :
  ∃ w' es,
    publish_question chat_id quiz_id expires_at q w = (Ok (), w') ∧
    sends_only chat_id quiz_id expires_at w w' es ∧
    question_sends q es.
Proof.
  unfold publish_question, question_sends.
  unfold mbind at 1 2, M_bind at 1 2, read. simpl.
  destruct (get_question_atts (store w) (q_id q)) as [|att rest].
  - destruct (send_and_record chat_id quiz_id expires_at (OfQuestion (q_id q))
                {| out_method := send_message; out_chat := chat_id;
                   out_body := PlainText (q_text q); out_caption := None;
                   out_markup := Some (build_options_kb (store w) (q_id q) 0) |} w)
      as (w1 & m & Hrun & Hs1).
    exists w1, [SafeSend (OfQuestion (q_id q))
                  {| out_method := send_message; out_chat := chat_id;
                     out_body := PlainText (q_text q); out_caption := None;
                     out_markup := Some (build_options_kb (store w) (q_id q) 0) |} m].
    split; [exact Hrun|]. split; [done|]. split; [done|].
    constructor; [by eexists _, _|constructor].
  - set (u := attachment_unit chat_id att (Some (q_text q))
                (Some (build_options_kb (store w) (q_id q) 0))).
    destruct (send_and_record chat_id quiz_id expires_at (OfQuestion (q_id q)) u w)
      as (w1 & m & Hrun & Hs1).
    destruct (send_attachments chat_id quiz_id expires_at (OfQuestion (q_id q)) rest w1)
      as (w2 & es & Hrun2 & Hs2 & Hes).
    exists w2, ([SafeSend (OfQuestion (q_id q)) u m] ++ es).
    split.
    + revert Hrun. unfold mbind, M_bind.
      destruct (_safe_send (OfQuestion (q_id q)) u w) as [[m'|] w0]; [|done].
      intros ->. exact Hrun2.
    + split; [by eapply sends_only_trans|]. split; [done|].
      constructor; [by eexists _, _|].
      clear -Hes. induction Hes as [|e a es atts (m' & ->) _ IH]; constructor;
        [by eexists _, _|done].
Qed.

Lemma get_bundle_atts_ext d d' bundle_id :
  media_bundle_attachments d' = media_bundle_attachments d →
  get_bundle_atts d' bundle_id = get_bundle_atts d bundle_id.
Proof. unfold get_bundle_atts. by intros ->. Qed.

Lemma bundle_sends_ext d d' chat_id bundle_id es :
  media_bundle_attachments d' = media_bundle_attachments d →
  bundle_sends d' chat_id bundle_id es → bundle_sends d chat_id bundle_id es.
Proof. unfold bundle_sends. intros Heq. by rewrite (get_bundle_atts_ext d d'). Qed.

Lemma pass_units_ext d d' chat_id qs sent es :
  media_bundle_attachments d' = media_bundle_attachments d →
  pass_units d' chat_id qs sent es → pass_units d chat_id qs sent es.
Proof.
  intros Heq. induction 1; [by constructor|by constructor|by eapply pass_seen|].
  eapply pass_fresh; eauto using bundle_sends_ext.
Qed.

(** The loop of [_do_publish] ends, and what it sends is a pass over its
    questions. *)
Lemma publish_questions_spec chat_id quiz_id expires_at qs sent w :
  ∃ w' es,
    publish_questions chat_id quiz_id expires_at qs sent w = (Ok (), w') ∧
    sends_only chat_id quiz_id expires_at w w' es ∧
    pass_units (store w) chat_id qs sent es.
Proof.
  revert sent w. induction qs as [|q rest IH]; intros sent w; simpl.
  { exists w, []. split; [done|]. split; [apply sends_only_refl|constructor]. }
  unfold mbind at 1, M_bind at 1.
  destruct (truthy_int (q_media_bundle_id q)) as [b|] eqn:Hb.
  - destruct (decide (b ∈ sent)) as [Hin|Hin].
    + unfold mret at 1, M_ret at 1. unfold mbind at 1, M_bind at 1.
      destruct (publish_question_spec chat_id quiz_id expires_at q w)
        as (w1 & qu & -> & Hs1 & Hqu).
      destruct (IH sent w1) as (w2 & es & -> & Hs2 & Hes).
      exists w2, (qu ++ es). split; [done|]. split; [by eapply sends_only_trans|].
      eapply pass_seen; eauto.
      eapply pass_units_ext; [|exact Hes]. by apply sends_only_tables in Hs1 as (_ & _ & _ & _ & ?).
    + unfold mbind at 1, M_bind at 1.
      destruct (publish_bundle_spec chat_id quiz_id expires_at b w)
        as (w0 & bs & -> & Hs0 & Hbs).
      unfold mret at 1, M_ret at 1. unfold mbind at 1, M_bind at 1.
      destruct (publish_question_spec chat_id quiz_id expires_at q w0)
        as (w1 & qu & -> & Hs1 & Hqu).
      destruct (IH ({[b]} ∪ sent) w1) as (w2 & es & -> & Hs2 & Hes).
      exists w2, (bs ++ qu ++ es). split; [done|].
      split; [eapply sends_only_trans; [done|]; by eapply sends_only_trans|].
      eapply pass_fresh; eauto.
      eapply pass_units_ext; [|exact Hes].
      apply sends_only_tables in Hs0 as (_ & _ & _ & _ & H0).
      apply sends_only_tables in Hs1 as (_ & _ & _ & _ & H1). congruence.
  - unfold mret at 1, M_ret at 1. unfold mbind at 1, M_bind at 1.
    destruct (publish_question_spec chat_id quiz_id expires_at q w)
      as (w1 & qu & -> & Hs1 & Hqu).
    destruct (IH sent w1) as (w2 & es & -> & Hs2 & Hes).
    exists w2, (qu ++ es). split; [done|]. split; [by eapply sends_only_trans|].
    eapply pass_plain; eauto.
    eapply pass_units_ext; [|exact Hes]. by apply sends_only_tables in Hs1 as (_ & _ & _ & _ & ?).
Qed.

(** ** The migration of legacy media in front of a publish *)

Lemma set_question_attachments_id d :
  set_question_attachments (question_attachments d ++ []) d = d.
Proof. rewrite app_nil_r. by destruct d. Qed.

Lemma migrate_question_frame r w :
  ∃ added js,
    migrate_question r w =
    (Ok (),
     {| store := set_question_attachments (question_attachments (store w) ++ added) (store w);
        pending_names := pending_names w; ticks := ticks w; api_calls := api_calls w;
        outbox := outbox w; journal := journal w ++ js |}) ∧
    Forall (λ a, att_owner a = q_id r) added ∧
    (added = [] → js = []) ∧
    (settled (store w) r → added = []) ∧
    (truthy_text (q_photo r) = None ∧ truthy_text (q_audio r) = None ∨ added ≠ []
     ∨ filter (λ a, att_owner a = q_id r) (question_attachments (store w)) ≠ []).
Proof.
  unfold migrate_question, insert_question_attachment, settled. munfold. simpl.
  case_decide as Hhas; simpl.
  { exists [], []. rewrite !app_nil_r. split; [by destruct w as [[]]|]. split_and!; auto. }
  destruct (truthy_text (q_photo r)) as [f|], (truthy_text (q_audio r)) as [g|]; simpl.
  - eexists [_; _], [_; _]. rewrite <- !app_assoc. split; [done|].
    split_and!; [by repeat constructor|done|intros [[? _]|?]; done|auto].
  - eexists [_], [_]. split; [done|].
    split_and!; [by repeat constructor|done|intros [[? _]|?]; done|auto].
  - eexists [_], [_]. split; [done|].
    split_and!; [by repeat constructor|done|intros [[_ ?]|?]; done|auto].
  - exists [], []. rewrite !app_nil_r. split; [by destruct w as [[]]|]. split_and!; auto.
Qed.

Lemma settled_mono d added q :
  settled d q → settled (set_question_attachments (question_attachments d ++ added) d) q.
Proof.
  unfold settled. simpl. intros [?|Hne]; [by left|right].
  rewrite filter_app. intros Heq. by apply app_eq_nil in Heq as [? _].
Qed.

Lemma migrate_loop l w :
  ∃ added js,
    for_each l migrate_question w =
    (Ok (),
     {| store := set_question_attachments (question_attachments (store w) ++ added) (store w);
        pending_names := pending_names w; ticks := ticks w; api_calls := api_calls w;
        outbox := outbox w; journal := journal w ++ js |}) ∧
    (Forall (settled (store w)) l → added = [] ∧ js = []) ∧
    Forall (settled (set_question_attachments (question_attachments (store w) ++ added)
                       (store w))) l.
Proof.
  revert w. induction l as [|r l IH]; intros w; simpl.
  { exists [], []. rewrite !app_nil_r. split; [by destruct w as [[]]|]. split; [done|constructor]. }
  unfold mbind at 1, M_bind at 1.
  destruct (migrate_question_frame r w) as (a1 & j1 & -> & Hown & Hj1 & Hno1 & Hdone).
  match goal with |- context [for_each l migrate_question ?w1] =>
    destruct (IH w1) as (a2 & j2 & -> & Hno2 & Hall) end.
  simpl in Hno2, Hall |- *. exists (a1 ++ a2), (j1 ++ j2). rewrite !app_assoc. split; [done|]. split.
  - intros Hm. inversion_clear Hm as [|?? Hr Hl].
    specialize (Hno1 Hr). subst a1. specialize (Hj1 eq_refl). subst j1.
    rewrite set_question_attachments_id in Hno2. by destruct (Hno2 Hl) as [-> ->].
  - constructor; [|exact Hall].
    unfold settled. simpl. destruct Hdone as [?|[Hne|Hne]]; [by left|right..].
    + rewrite !filter_app. intros Heq.
      apply app_eq_nil in Heq as [Heq _]. apply app_eq_nil in Heq as [_ Heq].
      destruct a1 as [|a a1]; [done|]. inversion_clear Hown as [|?? Ha _].
      by rewrite filter_cons, decide_True in Heq.
    + rewrite !filter_app. intros Heq.
      apply app_eq_nil in Heq as [Heq _]. by apply app_eq_nil in Heq as [Heq _].
Qed.

Lemma migrate_frame w :
  ∃ added js,
    migrate_legacy_media w =
    (Ok (),
     {| store := set_question_attachments (question_attachments (store w) ++ added) (store w);
        pending_names := pending_names w; ticks := ticks w; api_calls := api_calls w;
        outbox := outbox w; journal := journal w ++ js |}) ∧
    (legacy_migrated (store w) → added = [] ∧ js = []) ∧
    legacy_migrated (set_question_attachments (question_attachments (store w) ++ added)
                       (store w)).
Proof.
  unfold migrate_legacy_media, legacy_migrated.
  unfold mbind at 1, M_bind at 1, read. simpl.
  destruct (migrate_loop (filter (λ q, q_photo q ≠ None ∨ q_audio q ≠ None) (questions (store w))) w)
    as (added & js & -> & Hno & Hall).
  exists added, js. split; [done|]. split.
  - intros Hm. apply Hno. apply Forall_forall. intros q Hq.
    apply list_elem_of_filter in Hq as [_ Hq]. rewrite Forall_forall in Hm. by apply Hm.
  - simpl. apply Forall_forall. intros q Hq.
    destruct (decide (q_photo q ≠ None ∨ q_audio q ≠ None)) as [Hleg|Hleg].
    + rewrite Forall_forall in Hall. apply Hall. by apply list_elem_of_filter.
    + left. destruct (q_photo q), (q_audio q); try done; exfalso; apply Hleg; auto.
Qed.

(** When the program starts it runs [migrate_legacy_media]; from then on
    no legacy media is waiting. *)
Lemma migrate_establishes w : legacy_migrated (store (exec migrate_legacy_media w)).
Proof.
  unfold exec. destruct (migrate_frame w) as (added & js & -> & _ & Hm). exact Hm.
Qed.

Lemma migrate_noop w :
  legacy_migrated (store w) → migrate_legacy_media w = (Ok (), w).
Proof.
  intros Hm. destruct (migrate_frame w) as (added & js & -> & Hno & _).
  destruct (Hno Hm) as [-> ->]. rewrite !app_nil_r. by destruct w as [[]].
Qed.

(** ** [_do_publish] as a whole *)

Lemma publishable_quiz d quiz_id :
  (∃ z, z ∈ quizzes d ∧ qz_id z = quiz_id ∧ qz_is_archived z = 0) ↔
  is_Some (head (filter (λ z, qz_id z = quiz_id ∧ qz_is_archived z = 0) (quizzes d))).
Proof.
  split.
  - intros (z & Hin & Hid & Ha).
    destruct (head _) eqn:Hh; [by eexists|].
    apply (head_filter_None (λ z, qz_id z = quiz_id ∧ qz_is_archived z = 0)) in Hh.
    rewrite Forall_forall in Hh. by destruct (Hh z Hin).
  - intros [z Hz].
    apply (head_filter_Some (λ z, qz_id z = quiz_id ∧ qz_is_archived z = 0)) in Hz
      as (? & ? & ?). eauto.
Qed.

Lemma do_publish_invalid chat_id quiz_id expires_at w :
  ¬ publishable (store w) quiz_id →
  ∃ added js,
    _do_publish chat_id quiz_id expires_at w =
    (Ok (),
     {| store := set_question_attachments (question_attachments (store w) ++ added) (store w);
        pending_names := pending_names w; ticks := ticks w;
        api_calls := api_calls w;
        outbox := outbox w ++ [BotSendMessage chat_id TxtInvalidQuiz];
        journal := journal w ++ js |}) ∧
    (legacy_migrated (store w) → added = [] ∧ js = []).
Proof.
  intros Hno. unfold _do_publish.
  unfold mbind at 1, M_bind at 1.
  destruct (migrate_frame w) as (added & js & -> & Hnone & _).
  exists added, js. split; [|done].
  munfold. simpl.
  change (questions_of_quiz (set_question_attachments _ (store w)) quiz_id)
    with (questions_of_quiz (store w) quiz_id).
  destruct (head _) as [z|] eqn:Hz; [|done].
  case_decide as Hqs; [done|].
  exfalso. apply Hno. split; [|done]. apply publishable_quiz. by eexists.
Qed.

Lemma do_publish_spec chat_id quiz_id expires_at w :
  publishable (store w) quiz_id →
  ∃ w' z m es rows added,
    _do_publish chat_id quiz_id expires_at w = (Ok (), w') ∧
    z ∈ quizzes (store w) ∧ qz_id z = quiz_id ∧ qz_is_archived z = 0 ∧
    outbox w' =
      outbox w ++
      SafeSend OfHead (head_unit chat_id quiz_id (qz_title z) expires_at) m :: es ∧
    pass_units (store w) chat_id (questions_of_quiz (store w) quiz_id) ∅ es ∧
    store w' =
      set_sent_msgs (sent_msgs (store w) ++ rows)
        (set_question_attachments (question_attachments (store w) ++ added) (store w)) ∧
    Forall (λ s, s_chat_id s = chat_id ∧ s_quiz_id s = quiz_id ∧ s_expires_at s = expires_at)
      rows ∧
    (legacy_migrated (store w) → added = []) ∧
    ticks w' = ticks w ∧ pending_names w' = pending_names w.
Proof.
  intros [Hz Hqs]. apply publishable_quiz in Hz as [z Hz].
  unfold _do_publish.
  unfold mbind at 1, M_bind at 1.
  destruct (migrate_frame w) as (added & js & -> & Hno & _).
  unfold mbind at 1, M_bind at 1, read. simpl. rewrite Hz.
  change (questions_of_quiz (set_question_attachments _ (store w)) quiz_id)
    with (questions_of_quiz (store w) quiz_id).
  rewrite decide_False by done.
  fold (head_unit chat_id quiz_id (qz_title z) expires_at).
  set (wm := {| store := set_question_attachments _ (store w) |}).
  destruct (send_and_record chat_id quiz_id expires_at OfHead
              (head_unit chat_id quiz_id (qz_title z) expires_at) wm)
    as (w1 & m & Hrun & Hs1).
  destruct (publish_questions_spec chat_id quiz_id expires_at
              (questions_of_quiz (store w) quiz_id) ∅ w1) as (w2 & es & Hrun2 & Hs2 & Hes).
  revert Hrun. unfold mbind, M_bind.
  destruct (_safe_send OfHead _ wm) as [[m'|e] w0]; [|done].
  intros ->. rewrite Hrun2.
  pose proof (sends_only_tables _ _ _ _ _ _ Hs1) as (_ & _ & _ & _ & Hb1).
  pose proof (sends_only_trans _ _ _ _ _ _ _ _ Hs1 Hs2)
    as (rows & js' & Hst & Hrows & Hp & Ht & Ho & _).
  apply (head_filter_Some (λ z, qz_id z = quiz_id ∧ qz_is_archived z = 0)) in Hz
    as (Hin & Hid & Ha).
  exists w2, z, m, es, rows, added.
  split; [done|]. split; [done|]. split; [done|]. split; [done|].
  split; [by rewrite Ho|].
  split; [eapply pass_units_ext; [|exact Hes]; by rewrite Hb1|].
  split; [by rewrite Hst|]. split; [done|]. split; [intros Hm; by destruct (Hno Hm)|].
  by rewrite Ht, Hp.
Qed.

(** ** One bundle, once *)

Lemma refers_to_truthy q bundle_id :
  refers_to q bundle_id ↔ truthy_int (q_media_bundle_id q) = Some bundle_id.
Proof.
  unfold refers_to, truthy_int. destruct (q_media_bundle_id q) as [n|].
  - case_decide as Hn; split.
    + intros [[= ->] Hne]. done.
    + done.
    + by intros [[= ->] _].
    + by intros [= ->].
  - split; [by intros [? _]|done].
Qed.

Lemma bundle_units_app bundle_id o1 o2 :
  bundle_units bundle_id (o1 ++ o2) = bundle_units bundle_id o1 ++ bundle_units bundle_id o2.
Proof. apply omap_app. Qed.

Lemma bundle_units_question q bundle_id es :
  question_sends q es → bundle_units bundle_id es = [].
Proof.
  intros [_ Hes]. unfold bundle_units.
  induction Hes as [|e es (u & m & ->) _ IH]; [done|]. csimpl. exact IH.
Qed.

Lemma bundle_units_other d chat_id b b' es :
  bundle_sends d chat_id b' es → b' ≠ b → bundle_units b es = [].
Proof.
  unfold bundle_sends, bundle_units. intros Hes Hne.
  induction Hes as [|e a es atts (m & ->) _ IH]; [done|].
  csimpl. by rewrite decide_False.
Qed.

Lemma bundle_units_own d chat_id b es :
  bundle_sends d chat_id b es →
  bundle_units b es = (λ att, attachment_unit chat_id att None None) <$> get_bundle_atts d b.
Proof.
  unfold bundle_sends, bundle_units. intros Hes.
  induction Hes as [|e a es atts (m & ->) _ IH]; [done|].
  csimpl. rewrite decide_True by done. by rewrite IH.
Qed.

(** Once a bundle is in [sent_bundles] the pass sends no unit of it. *)
Lemma pass_units_sent d chat_id qs sent es b :
  pass_units d chat_id qs sent es → b ∈ sent → bundle_units b es = [].
Proof.
  induction 1 as [|q rest sent qu es Hq Hqu _ IH|q rest sent b' qu es Hq Hin Hqu _ IH
                 |q rest sent b' bs qu es Hq Hin Hbs Hqu _ IH]; intros Hb; [done|..].
  - rewrite bundle_units_app, (bundle_units_question q), IH; done.
  - rewrite bundle_units_app, (bundle_units_question q), IH; done.
  - rewrite !bundle_units_app, (bundle_units_question q _ qu), IH
      by (done || (clear -Hb; set_solver)).
    rewrite (bundle_units_other d chat_id b b'); [done..|]. intros ->. done.
Qed.

(** The first question that refers to a bundle not yet sent has the units of
    the bundle right in front of its own, and no unit of the bundle stands
    anywhere else. *)
Lemma pass_units_first d chat_id qs sent es b :
  pass_units d chat_id qs sent es → b ∉ sent →
  Exists (λ q, refers_to q b) qs →
  ∃ pre us qu post qs1 q qs2,
    es = pre ++ us ++ qu ++ post ∧
    qs = qs1 ++ q :: qs2 ∧ refers_to q b ∧ Forall (λ q', ¬ refers_to q' b) qs1 ∧
    bundle_sends d chat_id b us ∧ question_sends q qu ∧
    bundle_units b pre = [] ∧ bundle_units b post = [].
Proof.
  induction 1 as [|q rest sent qu es Hq Hqu Hrest IH|q rest sent b' qu es Hq Hin Hqu Hrest IH
                 |q rest sent b' bs qu es Hq Hin Hbs Hqu Hrest IH]; intros Hb Hex.
  - by apply Exists_nil in Hex.
  - apply Exists_cons in Hex as [Hex|Hex]; [apply refers_to_truthy in Hex; congruence|].
    destruct (IH Hb Hex) as (pre & us & qu' & post & qs1 & q' & qs2 & Hes & Hqs & Hrf & Hqs1 & Hus & Hqu' & Hpre & Hpost).
    subst es rest. exists (qu ++ pre), us, qu', post, (q :: qs1), q', qs2.
    rewrite <- !app_assoc. split_and!; try done.
    + constructor; [|done]. rewrite refers_to_truthy. congruence.
    + by rewrite bundle_units_app, (bundle_units_question q), Hpre.
  - assert (b' ≠ b) as Hne by (intros ->; done).
    apply Exists_cons in Hex as [Hex|Hex]; [apply refers_to_truthy in Hex; congruence|].
    destruct (IH Hb Hex) as (pre & us & qu' & post & qs1 & q' & qs2 & Hes & Hqs & Hrf & Hqs1 & Hus & Hqu' & Hpre & Hpost).
    subst es rest. exists (qu ++ pre), us, qu', post, (q :: qs1), q', qs2.
    rewrite <- !app_assoc. split_and!; try done.
    + constructor; [|done]. rewrite refers_to_truthy. congruence.
    + by rewrite bundle_units_app, (bundle_units_question q), Hpre.
  - destruct (decide (b' = b)) as [->|Hne].
    + exists [], bs, qu, es, [], q, rest. simpl. split_and!; try done.
      * by apply refers_to_truthy.
      * eapply pass_units_sent; [exact Hrest|clear; set_solver].
    + apply Exists_cons in Hex as [Hex|Hex]; [apply refers_to_truthy in Hex; congruence|].
      destruct IH as (pre & us & qu' & post & qs1 & q' & qs2 & Hes & Hqs & Hrf & Hqs1 & Hus & Hqu' & Hpre & Hpost);
        [|done|].
      { intros Hu. apply elem_of_union in Hu as [Hu|Hu]; [|done].
        apply elem_of_singleton in Hu. congruence. }
      subst es rest. exists (bs ++ qu ++ pre), us, qu', post, (q :: qs1), q', qs2.
      rewrite <- !app_assoc. split_and!; try done.
      * constructor; [|done]. rewrite refers_to_truthy. congruence.
      * rewrite !bundle_units_app, (bundle_units_question q _ qu), Hpre by done.
        by rewrite (bundle_units_other d chat_id b b').
Qed.

Lemma questions_of_quiz_sorted d quiz_id :
  StronglySorted (λ q q', q_id q ≤ q_id q') (questions_of_quiz d quiz_id).
Proof. apply order_by_sorted. Qed.

Lemma get_bundle_atts_sorted d bundle_id :
  StronglySorted (λ a a', att_position a ≤ att_position a') (get_bundle_atts d bundle_id).
Proof. apply order_by_sorted. Qed.

(** ** The claims about publishing *)

(** C8.  A publish of a quiz that is missing, archived or without questions
    is rejected: the failure is reported to the chat, no unit is sent, no
    row of [sent_msgs] is written, and the pending names are left alone.
    On a store where no legacy media waits to be migrated, which is every
    store after the program has started, the database and the journal of
    writes are unchanged altogether. *)
Theorem invalid_publish_changes_nothing chat_id quiz_id expires_at w :
  legacy_migrated (store w) →
  ¬ publishable (store w) quiz_id →
  let w' := exec (_do_publish chat_id quiz_id expires_at) w in
  store w' = store w ∧ journal w' = journal w ∧
  pending_names w' = pending_names w ∧
  outbox w' = outbox w ++ [BotSendMessage chat_id TxtInvalidQuiz] ∧
  filter (λ e, is_unit e = true) (outbox w') = filter (λ e, is_unit e = true) (outbox w).
Proof.
  intros Hm Hno. unfold exec.
  destruct (do_publish_invalid chat_id quiz_id expires_at w Hno) as (added & js & -> & Hnone).
  destruct (Hnone Hm) as [-> ->]. simpl.
  rewrite set_question_attachments_id, app_nil_r, filter_app. split_and!; try done.
  rewrite filter_cons, decide_False by done. by rewrite filter_nil, app_nil_r.
Qed.

(** C4.  In a publish pass the questions are walked by ascending id.  For a
    bundle that one of them refers to, the units sent for the bundle are
    its attachments by ascending position, each once: they stand together,
    right in front of the units of the first question that refers to the
    bundle, and no unit of the bundle is sent before or after, however many
    later questions refer to it. *)
Theorem shared_bundle_sent_once chat_id quiz_id expires_at w bundle_id :
  publishable (store w) quiz_id →
  Exists (λ q, refers_to q bundle_id) (questions_of_quiz (store w) quiz_id) →
  let w' := exec (_do_publish chat_id quiz_id expires_at) w in
  let qs := questions_of_quiz (store w) quiz_id in
  let atts := get_bundle_atts (store w) bundle_id in
  StronglySorted (λ q q', q_id q ≤ q_id q') qs ∧
  StronglySorted (λ a a', att_position a ≤ att_position a') atts ∧
  ∃ sent,
    outbox w' = outbox w ++ sent ∧
    bundle_units bundle_id sent = (λ att, attachment_unit chat_id att None None) <$> atts ∧
    ∃ pre us qu post qs1 q qs2,
      sent = pre ++ us ++ qu ++ post ∧
      qs = qs1 ++ q :: qs2 ∧
      refers_to q bundle_id ∧ Forall (λ q', ¬ refers_to q' bundle_id) qs1 ∧
      bundle_sends (store w) chat_id bundle_id us ∧
      question_sends q qu ∧
      bundle_units bundle_id pre = [] ∧ bundle_units bundle_id post = [].
Proof.
  intros Hp Hex. simpl.
  split; [apply questions_of_quiz_sorted|]. split; [apply get_bundle_atts_sorted|].
  destruct (do_publish_spec chat_id quiz_id expires_at w Hp)
    as (w' & z & m & es & rows & added & Hrun & _ & _ & _ & Ho & Hes & _).
  unfold exec. rewrite Hrun. simpl.
  destruct (pass_units_first _ _ _ _ _ bundle_id Hes) as
    (pre & us & qu & post & qs1 & q & qs2 & -> & Hqs & Hq & Hqs1 & Hus & Hqu & Hpre & Hpost);
    [by apply not_elem_of_empty|done|].
  eexists. split; [exact Ho|]. split.
  - rewrite app_comm_cons, !bundle_units_app, (bundle_units_question q _ qu), Hpost by done.
    rewrite (bundle_units_own _ _ _ _ Hus), app_nil_r.
    unfold bundle_units at 1. csimpl. fold (bundle_units bundle_id pre). by rewrite Hpre.
  - exists (SafeSend OfHead (head_unit chat_id quiz_id (qz_title z) expires_at) m :: pre),
      us, qu, post, qs1, q, qs2.
    by split_and!.
Qed.

(** ** The expiry of a session *)

(** The verdict when the newest row with an expiry holds a timestamp with
    an offset. *)
Lemma quiz_expired_aware chat_id quiz_id w row text e :
  last (expiry_rows (store w) chat_id quiz_id) = Some row →
  s_expires_at row = Some text → text ≠ EmptyString →
  fromisoformat text = Some (Aware e) →
  (_quiz_expired chat_id quiz_id w).1 = Ok (Some (bool_decide (e < clock (ticks w)))).
Proof.
  intros Hl Ht Hne Hf. unfold _quiz_expired. munfold. simpl.
  rewrite Hl, Ht. simpl. rewrite decide_False by done. by rewrite Hf.
Qed.

Lemma quiz_expired_iff chat_id quiz_id w :
  (_quiz_expired chat_id quiz_id w).1 = Ok (Some true) ↔
  ∃ row text e,
    last (expiry_rows (store w) chat_id quiz_id) = Some row ∧
    s_expires_at row = Some text ∧ text ≠ EmptyString ∧
    fromisoformat text = Some (Aware e) ∧ e < clock (ticks w).
Proof.
  split.
  - unfold _quiz_expired. munfold. simpl.
    destruct (last _) as [row|]; [|done].
    destruct (s_expires_at row) as [text|] eqn:Ht; [|done]. simpl.
    case_decide as Hne; [done|].
    destruct (fromisoformat text) as [[e|n]|] eqn:Hf; [|done..]. simpl.
    intros [= He]. apply bool_decide_eq_true in He. by exists row, text, e.
  - intros (row & text & e & Hl & Ht & Hne & Hf & He).
    rewrite (quiz_expired_aware _ _ _ _ _ _ Hl Ht Hne Hf). by rewrite bool_decide_true.
Qed.

Lemma quiz_expired_open chat_id quiz_id w :
  (last (expiry_rows (store w) chat_id quiz_id) = None →
   (_quiz_expired chat_id quiz_id w).1 = Ok None) ∧
  (∀ row text,
     last (expiry_rows (store w) chat_id quiz_id) = Some row →
     s_expires_at row = Some text → fromisoformat text = None →
     (_quiz_expired chat_id quiz_id w).1 = Ok None).
Proof.
  unfold _quiz_expired. munfold. simpl. split.
  - by intros ->.
  - intros row text -> -> Hf. simpl. case_decide; [done|]. by rewrite Hf.
Qed.

(** A row of [sent_msgs] with a NULL expiry does not count. *)
Lemma expiry_rows_not_null d chat_id quiz_id row :
  row ∈ expiry_rows d chat_id quiz_id →
  row ∈ sent_msgs d ∧ s_chat_id row = chat_id ∧ s_quiz_id row = quiz_id ∧
  is_Some (s_expires_at row).
Proof.
  unfold expiry_rows. intros Hin. apply list_elem_of_filter in Hin as [(? & ? & Hn) ?].
  split_and!; try done. by destruct (s_expires_at row).
Qed.

(** An expired session closes the answer controls. *)
Lemma on_answer_expired chat_id user_id question_id option_index target_user_id w qrow :
  ¬ (target_user_id ≠ 0 ∧ user_id ≠ target_user_id) →
  question_by_id (store w) question_id = Some qrow →
  (_quiz_expired chat_id (q_quiz_id qrow) w).1 = Ok (Some true) →
  let w' := exec (on_answer chat_id user_id question_id option_index target_user_id) w in
  store w' = store w ∧ journal w' = journal w ∧
  outbox w' = outbox w ++ [CbAnswer PopExpiredAnswer true].
Proof.
  intros Ht Hq Hx. unfold on_answer. munfold. rewrite decide_False by done. simpl.
  rewrite Hq. simpl.
  destruct (_quiz_expired chat_id (q_quiz_id qrow) w) as [r w1] eqn:Hx'.
  pose proof (quiz_expired_frame _ _ _ _ _ Hx') as (Hs & Hp & Ho & Hj & _).
  simpl in Hx. subst r. simpl. by rewrite Hs, Hj, Ho.
Qed.

(** What a publish with a custom number of hours leaves in [sent_msgs]. *)
Lemma custom_publish_rows chat_id quiz_id hours w :
  publishable (store w) quiz_id → 0 < hours ≤ 240 →
  let w' := exec (cb_pub_custom_hours chat_id OWNER_ID quiz_id (Some hours)) w in
  ∃ rows,
    sent_msgs (store w') = sent_msgs (store w) ++ rows ∧
    Forall (λ s, s_chat_id s = chat_id ∧ s_quiz_id s = quiz_id ∧
                 s_expires_at s = Some (isoformat (clock (ticks w) + hours_us hours))) rows.
Proof.
  intros Hp Hh. unfold cb_pub_custom_hours.
  rewrite decide_False by (intros Hne; by apply Hne).
  rewrite decide_False by lia.
  unfold exec, utcnow. unfold mbind at 1, M_bind at 1.
  set (wt := {| store := store w; ticks := S (ticks w) |}).
  destruct (do_publish_spec chat_id quiz_id
              (Some (isoformat (clock (ticks w) + hours_us hours))) wt Hp)
    as (w' & z & m & es & rows & added & Hrun & _ & _ & _ & _ & _ & Hst & Hrows & _).
  unfold mbind, M_bind. rewrite Hrun. simpl. exists rows. by rewrite Hst.
Qed.

Lemma last_expiry_rows_app d chat_id quiz_id text rows d' :
  sent_msgs d' = sent_msgs d ++ rows → rows ≠ [] →
  Forall (λ s, s_chat_id s = chat_id ∧ s_quiz_id s = quiz_id ∧ s_expires_at s = Some text) rows →
  ∃ row, last (expiry_rows d' chat_id quiz_id) = Some row ∧ s_expires_at row = Some text.
Proof.
  intros Hs Hne Hrows. unfold expiry_rows. rewrite Hs, filter_app.
  assert (filter (λ s, s_chat_id s = chat_id ∧ s_quiz_id s = quiz_id ∧ s_expires_at s ≠ None)
            rows = rows) as ->.
  { clear Hne Hs. induction Hrows as [|s rows (? & ? & Ht) _ IH]; [done|].
    rewrite filter_cons, decide_True, IH; [done|]. split_and!; try done. by rewrite Ht. }
  destruct (last rows) as [row|] eqn:Hl.
  - exists row. split.
    + apply last_Some in Hl as [l' ->]. by rewrite app_assoc, last_snoc.
    + rewrite Forall_forall in Hrows. apply last_Some_elem_of in Hl. by apply Hrows.
  - apply last_None in Hl. done.
Qed.

(** C3.  The session of a quiz in a chat is evaluated as expired exactly
    when the newest row of [sent_msgs] for them whose expiry is not NULL
    holds a timestamp that parses and lies before now; rows with a NULL
    expiry do not count, and without such a row, or with one that does not
    parse, the session is not expired.  An expired session rejects an answer
    and stores nothing; a session that is not expired lets the answer of a
    named participant through.  In particular, after the owner has published
    a quiz for one hour and a unit of the pass was recorded, the session is
    open 59 minutes later and expired 61 minutes later. *)
Theorem session_expiry chat_id quiz_id w :
  let verdict := (_quiz_expired chat_id quiz_id w).1 in
  (verdict = Ok (Some true) ↔
   ∃ row text e,
     last (expiry_rows (store w) chat_id quiz_id) = Some row ∧
     s_expires_at row = Some text ∧ text ≠ EmptyString ∧
     fromisoformat text = Some (Aware e) ∧ e < clock (ticks w)) ∧
  (∀ row, row ∈ expiry_rows (store w) chat_id quiz_id →
     row ∈ sent_msgs (store w) ∧ s_chat_id row = chat_id ∧ s_quiz_id row = quiz_id ∧
     is_Some (s_expires_at row)) ∧
  (last (expiry_rows (store w) chat_id quiz_id) = None → verdict = Ok None) ∧
  (∀ row text,
     last (expiry_rows (store w) chat_id quiz_id) = Some row →
     s_expires_at row = Some text → fromisoformat text = None → verdict = Ok None) ∧
  (∀ user_id question_id option_index target_user_id qrow,
     ¬ (target_user_id ≠ 0 ∧ user_id ≠ target_user_id) →
     question_by_id (store w) question_id = Some qrow → q_quiz_id qrow = quiz_id →
     let w' := exec (on_answer chat_id user_id question_id option_index target_user_id) w in
     (verdict = Ok (Some true) →
      store w' = store w ∧ journal w' = journal w ∧
      outbox w' = outbox w ++ [CbAnswer PopExpiredAnswer true]) ∧
     (∀ v, verdict = Ok v → v ≠ Some true →
        is_Some (participant_of (store w) chat_id user_id quiz_id) →
        response_of (store w) chat_id user_id question_id = None →
        records w w' chat_id user_id question_id option_index)) ∧
  (∀ w0,
     publishable (store w0) quiz_id →
     let t0 := clock (ticks w0) in
     let deadline := t0 + hours_us 1 in
     let published := exec (cb_pub_custom_hours chat_id OWNER_ID quiz_id (Some 1)) w0 in
     sent_msgs (store published) ≠ sent_msgs (store w0) →
     isoformat deadline ≠ EmptyString →
     fromisoformat (isoformat deadline) = Some (Aware deadline) →
     expiry_rows (store w) chat_id quiz_id = expiry_rows (store published) chat_id quiz_id →
     (clock (ticks w) = t0 + 59 * 60000000 → verdict = Ok (Some false)) ∧
     (clock (ticks w) = t0 + 61 * 60000000 → verdict = Ok (Some true))).
Proof.
  simpl. split; [apply quiz_expired_iff|].
  split; [intros row; apply expiry_rows_not_null|].
  split; [apply quiz_expired_open|]. split; [apply quiz_expired_open|].
  split.
  - intros user_id question_id option_index target_user_id qrow Ht Hq <-. split.
    + by apply on_answer_expired.
    + intros v Hv Hne Hn Hr. apply on_answer_records; [|done].
      split; [done|]. by exists qrow, v.
  - intros w0 Hp Hchg Hne Hf Hrows.
    destruct (custom_publish_rows chat_id quiz_id 1 w0 Hp) as (rows & Hs & Hall); [lia|].
    assert (rows ≠ []) as Hrne.
    { intros ->. rewrite app_nil_r in Hs. done. }
    destruct (last_expiry_rows_app _ chat_id quiz_id _ _ _ Hs Hrne Hall) as (row & Hl & Ht).
    rewrite <- Hrows in Hl.
    rewrite (quiz_expired_aware _ _ _ _ _ _ Hl Ht Hne Hf).
    unfold hours_us. split; intros ->.
    + by rewrite bool_decide_false by lia.
    + by rewrite bool_decide_true by lia.
Qed.

(** ** Merge *)

(** C9.  A merge of a quiz with itself is rejected with an alert before
    anything is read or written: the database, the journal of writes, the
    clock and the conversation are as before, so no quiz, question, option,
    attachment or bundle row is created. *)
Theorem self_merge_rejected quiz_id w :
  let w' := exec (merge_do quiz_id quiz_id) w in
  store w' = store w ∧ journal w' = journal w ∧ ticks w' = ticks w ∧
  pending_names w' = pending_names w ∧
  outbox w' = outbox w ++ [CbAnswer PopSameQuiz true].
Proof. unfold merge_do. rewrite decide_True by done. done. Qed.

(** The INSERT loops of the merge. *)
Lemma insert_options_run (f : option_row → option_row) l w :
  for_each l (λ o, insert_option (f o)) w =
  (Ok (),
   {| store := set_options (options (store w) ++ (f <$> l)) (store w);
      pending_names := pending_names w; ticks := ticks w; api_calls := api_calls w;
      outbox := outbox w;
      journal := journal w ++ ((λ o, InsOption (o_question_id (f o))) <$> l) |}).
Proof.
  revert w. induction l as [|o l IH]; intros w; csimpl.
  - rewrite !app_nil_r. by destruct w as [[]].
  - unfold mbind at 1, M_bind at 1, insert_option at 1, execute.
    rewrite IH. simpl. by rewrite <- !app_assoc.
Qed.

Lemma insert_question_attachments_run (f : attachment_row → attachment_row) l w :
  for_each l (λ a, insert_question_attachment (f a)) w =
  (Ok (),
   {| store := set_question_attachments (question_attachments (store w) ++ (f <$> l)) (store w);
      pending_names := pending_names w; ticks := ticks w; api_calls := api_calls w;
      outbox := outbox w;
      journal := journal w ++ ((λ a, InsQuestionAttachment (att_owner (f a))) <$> l) |}).
Proof.
  revert w. induction l as [|o l IH]; intros w; csimpl.
  - rewrite !app_nil_r. by destruct w as [[]].
  - unfold mbind at 1, M_bind at 1, insert_question_attachment at 1, execute.
    rewrite IH. simpl. by rewrite <- !app_assoc.
Qed.

Lemma insert_bundle_attachments_run (f : attachment_row → attachment_row) l w :
  for_each l (λ a, insert_bundle_attachment (f a)) w =
  (Ok (),
   {| store := set_media_bundle_attachments
                 (media_bundle_attachments (store w) ++ (f <$> l)) (store w);
      pending_names := pending_names w; ticks := ticks w; api_calls := api_calls w;
      outbox := outbox w;
      journal := journal w ++ ((λ a, InsBundleAttachment (att_owner (f a))) <$> l) |}).
Proof.
  revert w. induction l as [|o l IH]; intros w; csimpl.
  - rewrite !app_nil_r. by destruct w as [[]].
  - unfold mbind at 1, M_bind at 1, insert_bundle_attachment at 1, execute.
    rewrite IH. simpl. by rewrite <- !app_assoc.
Qed.

(** Ids and bounds. *)
Lemma max_id_nonneg ids : 0 ≤ max_id ids.
Proof. induction ids; simpl; lia. Qed.

Lemma max_id_ge ids x : x ∈ ids → x ≤ max_id ids.
Proof.
  induction ids as [|y ids IH]; [by intros ?%elem_of_nil|].
  intros [->|Hin]%elem_of_cons; simpl; [lia|]. specialize (IH Hin). lia.
Qed.

Lemma max_id_snoc ids x : max_id (ids ++ [x]) = Z.max (max_id ids) (Z.max x 0).
Proof. induction ids as [|y ids IH]; simpl; [lia|]. rewrite IH. lia. Qed.

Lemma qbound_ge d q : q ∈ questions d → q_id q ≤ qbound d.
Proof.
  intros Hin. unfold qbound.
  assert (q_id q ≤ max_id (q_id <$> questions d)); [|lia].
  apply max_id_ge, list_elem_of_fmap. eauto.
Qed.

Lemma bbound_ge d r : r ∈ media_bundles d → b_id r ≤ bbound d.
Proof.
  intros Hin. unfold bbound.
  assert (b_id r ≤ max_id (b_id <$> media_bundles d)); [|lia].
  apply max_id_ge, list_elem_of_fmap. eauto.
Qed.

Lemma next_id_fresh ids seq : next_id ids seq ∉ ids.
Proof. intros Hin%max_id_ge. unfold next_id in Hin. lia. Qed.

(** [_copy_bundle], when the bundle was cloned before and when it was not. *)
Lemma copy_bundle_hit quiz_dst bundle_id bundle_map new_b w :
  bundle_map !! bundle_id = Some new_b →
  _copy_bundle quiz_dst bundle_id bundle_map w = (Ok (new_b, bundle_map), w).
Proof. intros Hb. unfold _copy_bundle. by rewrite Hb. Qed.

Lemma copy_bundle_miss quiz_dst bundle_id bundle_map w :
  bundle_map !! bundle_id = None →
  let new_b := bbound (store w) + 1 in
  _copy_bundle quiz_dst bundle_id bundle_map w =
  (Ok (new_b, <[bundle_id := new_b]> bundle_map),
   {| store :=
        set_media_bundle_attachments
          (media_bundle_attachments (store w) ++
           (retag_att new_b <$> get_bundle_atts (store w) bundle_id))
          (set_media_bundles
             (media_bundles (store w) ++
              [ {| b_id := new_b; b_quiz_id := quiz_dst;
                   b_created_at := isoformat (clock (ticks w)) |} ])
             new_b (store w));
      pending_names := pending_names w; ticks := S (ticks w); api_calls := api_calls w;
      outbox := outbox w;
      journal := journal w ++ InsBundle new_b ::
                 ((λ a, InsBundleAttachment new_b) <$> get_bundle_atts (store w) bundle_id) |}).
Proof.
  intros Hb. unfold _copy_bundle. rewrite Hb.
  unfold insert_media_bundle. munfold. simpl.
  change (get_bundle_atts (set_media_bundles _ _ (store w)) bundle_id)
    with (get_bundle_atts (store w) bundle_id).
  fold (bbound (store w)).
  rewrite (insert_bundle_attachments_run (retag_att (bbound (store w) + 1))). simpl.
  by rewrite <- app_assoc.
Qed.

(** Reading the rows of one owner out of a table that has grown. *)
Lemma filter_none {A} (P : A → Prop) `{∀ x, Decision (P x)} l :
  Forall (λ x, ¬ P x) l → filter P l = [].
Proof.
  induction 1 as [|x l Hx _ IH]; [done|]. by rewrite filter_cons, decide_False.
Qed.

Lemma filter_all {A} (P : A → Prop) `{∀ x, Decision (P x)} l :
  Forall P l → filter P l = l.
Proof.
  induction 1 as [|x l Hx _ IH]; [done|]. by rewrite filter_cons, decide_True, IH.
Qed.

Lemma read_other {A} (key owner : A → Z) (l extra : list A) k :
  Forall (λ x, owner x ≠ k) extra →
  order_by key (filter (λ x, owner x = k) (l ++ extra)) =
  order_by key (filter (λ x, owner x = k) l).
Proof.
  intros Hx. rewrite filter_app, (filter_none _ extra), app_nil_r; [done|].
  eapply Forall_impl; [exact Hx|]. naive_solver.
Qed.

Lemma read_own {A} (key owner : A → Z) (l own : list A) k :
  Forall (λ x, owner x ≠ k) l → Forall (λ x, owner x = k) own →
  StronglySorted (λ a b, key a ≤ key b) own →
  order_by key (filter (λ x, owner x = k) (l ++ own)) = own.
Proof.
  intros Hl Hown Hs. rewrite filter_app, (filter_none _ l), (filter_all _ own); [|done|].
  - by apply order_by_id.
  - eapply Forall_impl; [exact Hl|]. naive_solver.
Qed.

Lemma StronglySorted_snoc {A} (R : A → A → Prop) l x :
  StronglySorted R l → Forall (λ y, R y x) l → StronglySorted R (l ++ [x]).
Proof.
  induction 1 as [|y l Hl IH Hy]; intros Hx; simpl.
  - repeat constructor.
  - inversion_clear Hx as [|?? Hyx Hlx]. constructor; [by apply IH|].
    apply Forall_app. split; [done|]. by constructor.
Qed.

Lemma StronglySorted_fmap_key {A B} (f : A → B) (key : A → Z) (key' : B → Z) l :
  (∀ a, key' (f a) = key a) →
  StronglySorted (λ a b, key a ≤ key b) l →
  StronglySorted (λ a b, key' a ≤ key' b) (f <$> l).
Proof.
  intros Hk. induction 1 as [|x l Hl IH Hx]; csimpl; constructor; [done|].
  apply Forall_fmap. eapply Forall_impl; [exact Hx|]. simpl. intros y. by rewrite !Hk.
Qed.

Lemma next_bound s ids :
  Z.max (Z.max s (max_id ids) + 1) (max_id (ids ++ [Z.max s (max_id ids) + 1])) =
  Z.max s (max_id ids) + 1.
Proof. rewrite max_id_snoc. pose proof (max_id_nonneg ids). lia. Qed.

(** [_copy_question_to_quiz] once the bundle of the question is settled:
    [w1] is the world after the clone, if one was made. *)
Lemma copy_question_run qrow quiz_dst bundle_map w new_bundle_id bundle_map' w1 :
  match truthy_int (q_media_bundle_id qrow) with
  | Some b => ∃ new_b, _copy_bundle quiz_dst b bundle_map w = (Ok (new_b, bundle_map'), w1) ∧
                       new_bundle_id = Some new_b
  | None => w1 = w ∧ bundle_map' = bundle_map ∧ new_bundle_id = None
  end →
  let new_qid := qbound (store w1) + 1 in
  _copy_question_to_quiz qrow quiz_dst bundle_map w =
  (Ok (new_qid, bundle_map'),
   {| store :=
        set_question_attachments
          (question_attachments (store w1) ++
           (retag_att new_qid <$> get_question_atts (store w1) (q_id qrow)))
          (set_options
             (options (store w1) ++
              (retag_option new_qid <$> options_for_question (store w1) (q_id qrow)))
             (set_questions
                (questions (store w1) ++
                 [ {| q_id := new_qid; q_quiz_id := quiz_dst; q_text := q_text qrow;
                      q_created_at := isoformat (clock (ticks w1));
                      q_media_bundle_id := new_bundle_id;
                      q_photo := None; q_audio := None; q_audio_is_voice := Some 0 |} ])
                new_qid (store w1)));
      pending_names := pending_names w1; ticks := S (ticks w1); api_calls := api_calls w1;
      outbox := outbox w1;
      journal := journal w1 ++ InsQuestion new_qid ::
                 ((λ o, InsOption new_qid) <$> options_for_question (store w1) (q_id qrow)) ++
                 ((λ a, InsQuestionAttachment new_qid) <$> get_question_atts (store w1) (q_id qrow)) |}).
Proof.
  intros Hb new_qid. unfold _copy_question_to_quiz.
  assert ((match truthy_int (q_media_bundle_id qrow) with
           | Some bundle_id =>
               '(new_b, bundle_map') ← _copy_bundle quiz_dst bundle_id bundle_map;
               mret (Some new_b, bundle_map')
           | None => mret (None, bundle_map)
           end : M (option Z * gmap Z Z)) w = (Ok (new_bundle_id, bundle_map'), w1)) as Hpre.
  { destruct (truthy_int (q_media_bundle_id qrow)) as [b|].
    - destruct Hb as (new_b & Hrun & ->). munfold. by rewrite Hrun.
    - by destruct Hb as (-> & -> & ->). }
  unfold mbind at 1, M_bind at 1. rewrite Hpre. clear Hpre Hb.
  unfold insert_question. munfold. simpl.
  fold (qbound (store w1)). fold new_qid.
  change (options_for_question (set_questions _ _ (store w1)) (q_id qrow))
    with (options_for_question (store w1) (q_id qrow)).
  rewrite (insert_options_run (retag_option new_qid)). simpl.
  change (get_question_atts (set_options _ _) (q_id qrow))
    with (get_question_atts (store w1) (q_id qrow)).
  rewrite (insert_question_attachments_run (retag_att new_qid)). simpl.
  by rewrite <- !app_assoc.
Qed.

(** A copy stays a copy while its rows are left alone. *)
Lemma copied_mono d0 d d' bundle_map bundle_map' t0 t1 t1' quiz_dst old new :
  copied d0 d bundle_map t0 t1 quiz_dst old new →
  options_for_question d' (q_id new) = options_for_question d (q_id new) →
  get_question_atts d' (q_id new) = get_question_atts d (q_id new) →
  bundle_map ⊆ bundle_map' → (t1 ≤ t1')%nat →
  copied d0 d' bundle_map' t0 t1' quiz_dst old new.
Proof.
  intros (Hz & Htext & (k & Hk & Hat) & Hopts & Hatts & Hb & Hsome) Ho Ha Hsub Ht.
  split_and!; try done.
  - exists k. split; [lia|done].
  - by rewrite Ho.
  - by rewrite Ha.
  - rewrite Hb. destruct (truthy_int (q_media_bundle_id old)) as [b|]; [|done]. simpl.
    destruct (Hsome b eq_refl) as [nb Hnb]. rewrite Hnb.
    symmetry. by eapply lookup_weaken.
  - intros b Hbt. destruct (Hsome b Hbt) as [nb Hnb]. exists nb. by eapply lookup_weaken.
Qed.

Lemma retag_att_content owner (l : list attachment_row) :
  attachment_content <$> (retag_att owner <$> l) = attachment_content <$> l.
Proof. rewrite <- list_fmap_compose. by apply list_fmap_ext. Qed.

Lemma retag_option_content owner (l : list option_row) :
  option_content <$> (retag_option owner <$> l) = option_content <$> l.
Proof. rewrite <- list_fmap_compose. by apply list_fmap_ext. Qed.


(** * Further properties of the program

    ** [migrate_legacy_media] *)

(** One row of the SELECT, exactly. *)
Lemma migrate_question_run r w :
  migrate_question r w =
  (Ok (),
   let added := if decide (filter (λ a, att_owner a = q_id r) (question_attachments (store w)) ≠ [])
                then [] else legacy_atts r in
   {| store := set_question_attachments (question_attachments (store w) ++ added) (store w);
      pending_names := pending_names w; ticks := ticks w; api_calls := api_calls w;
      outbox := outbox w;
      journal := journal w ++ ((λ a, InsQuestionAttachment (att_owner a)) <$> added) |}).
Proof.
  unfold migrate_question, legacy_atts. munfold. simpl.
  destruct (decide (filter _ _ ≠ [])) as [Hex|Hno]; simpl.
  { rewrite !app_nil_r. by destruct w as [[]]. }
  unfold insert_question_attachment, execute.
  destruct (truthy_text (q_photo r)), (truthy_text (q_audio r)); simpl;
    rewrite ?app_nil_r, <- ?app_assoc; try done.
  by destruct w as [[]].
Qed.

Lemma legacy_atts_owner q : Forall (λ a, att_owner a = q_id q) (legacy_atts q).
Proof.
  unfold legacy_atts.
  destruct (truthy_text (q_photo q)), (truthy_text (q_audio q)); repeat constructor.
Qed.

Lemma legacy_atts_sorted q :
  StronglySorted (λ a a', att_position a ≤ att_position a') (legacy_atts q).
Proof.
  unfold legacy_atts.
  destruct (truthy_text (q_photo q)), (truthy_text (q_audio q)); simpl;
    repeat constructor; simpl; lia.
Qed.

Lemma order_by_nil {A} (key : A → Z) l : order_by key l = [] ↔ l = [].
Proof.
  split; [|by intros ->]. intros Hnil.
  apply Permutation_nil_r. rewrite <- Hnil. symmetry. apply order_by_perm.
Qed.

(** The loop over the rows of the SELECT. *)
Lemma migrate_loop_run l w :
  NoDup (q_id <$> l) →
  ∃ added js,
    for_each l migrate_question w =
    (Ok (),
     {| store := set_question_attachments (question_attachments (store w) ++ added) (store w);
        pending_names := pending_names w; ticks := ticks w; api_calls := api_calls w;
        outbox := outbox w; journal := journal w ++ js |}) ∧
    (∀ r, r ∈ l →
       filter (λ a, att_owner a = q_id r) added =
       if decide (filter (λ a, att_owner a = q_id r) (question_attachments (store w)) ≠ [])
       then [] else legacy_atts r) ∧
    (∀ id, id ∉ (q_id <$> l) → filter (λ a, att_owner a = id) added = []).
Proof.
  revert w. induction l as [|r l IH]; intros w Hnd.
  - exists [], []. simpl. rewrite !app_nil_r. split; [by destruct w as [[]]|].
    split; [by intros r ?%elem_of_nil|done].
  - apply NoDup_cons in Hnd as [Hr Hnd]. simpl.
    unfold mbind at 1, M_bind at 1. rewrite migrate_question_run. cbv zeta.
    set (add_r := if decide (filter (λ a, att_owner a = q_id r)
                               (question_attachments (store w)) ≠ [])
                  then [] else legacy_atts r).
    assert (Forall (λ a, att_owner a = q_id r) add_r) as Hown.
    { unfold add_r. case_decide; [constructor|apply legacy_atts_owner]. }
    match goal with |- context [for_each l migrate_question ?w1] =>
      destruct (IH w1 Hnd) as (added & js & -> & Hin & Hout) end.
    simpl in *. exists (add_r ++ added), (((λ a, InsQuestionAttachment (att_owner a)) <$> add_r) ++ js).
    rewrite <- !app_assoc. split; [done|]. split.
    + intros r' [->|Hr']%elem_of_cons; rewrite filter_app.
      * rewrite (filter_all _ add_r) by done. rewrite Hout by done. by rewrite app_nil_r.
      * assert (q_id r' ≠ q_id r) as Hne.
        { intros Heq. apply Hr. rewrite <- Heq. apply list_elem_of_fmap. eauto. }
        rewrite (filter_none _ add_r).
        2:{ eapply Forall_impl; [exact Hown|]. simpl. intros a -> ?. done. }
        rewrite (Hin r' Hr'), filter_app, (filter_none _ add_r), app_nil_r; [done|].
        eapply Forall_impl; [exact Hown|]. simpl. intros a -> ?. done.
    + intros id [Hne Hid]%not_elem_of_cons. rewrite filter_app, Hout by done.
      rewrite filter_none; [done|].
      eapply Forall_impl; [exact Hown|]. simpl. intros a -> ?. done.
Qed.

(** X1.  [migrate_legacy_media] gives every question that has no attachment
    its legacy media as attachments (the photo at position 0, the audio
    behind it) and leaves the attachments of the other questions as they
    are; it only adds rows to [question_attachments]. *)
Theorem migrate_legacy_media_outcome w q :
  questions_pk (store w) → q ∈ questions (store w) →
  let d := store w in
  let d' := store (exec migrate_legacy_media w) in
  get_question_atts d' (q_id q) =
    (if decide (get_question_atts d (q_id q) = []) then legacy_atts q
     else get_question_atts d (q_id q)) ∧
  ∃ added, d' = set_question_attachments (question_attachments d ++ added) d.
Proof.
  intros Hpk Hq.
  set (l := filter (λ q, q_photo q ≠ None ∨ q_audio q ≠ None) (questions (store w))).
  assert (NoDup (q_id <$> l)) as Hnd.
  { eapply sublist_NoDup; [exact Hpk|]. apply fmap_sublist, sublist_filter. }
  destruct (migrate_loop_run l w Hnd) as (added & js & Hrun & Hin & Hout).
  assert (exec migrate_legacy_media w = (for_each l migrate_question w).2) as -> by done.
  rewrite Hrun. simpl.
  split; [|by eexists]. unfold get_question_atts. simpl. rewrite filter_app.
  assert (q ∉ l → filter (λ a, att_owner a = q_id q) added = [] ∧ legacy_atts q = []) as Hnl.
  { intros Hl. split.
    - apply Hout. intros (q' & Heq & Hq')%list_elem_of_fmap. apply Hl.
      assert (q' = q) as ->; [|done].
      apply list_elem_of_filter in Hq' as [_ Hq'].
      by apply (question_quiz_unique (store w)).
    - unfold legacy_atts.
      assert (q_photo q = None ∧ q_audio q = None) as [-> ->]; [|done].
      apply dec_stable. intros Hn. apply Hl. apply list_elem_of_filter. split; [|done].
      destruct (q_photo q), (q_audio q); try (by left); try (by right). by destruct Hn. }
  destruct (decide (filter (λ a, att_owner a = q_id q) (question_attachments (store w)) = []))
    as [Hnil|Hex].
  - rewrite Hnil. simpl.
    destruct (decide (q ∈ l)) as [Hl|Hl].
    + rewrite (Hin q Hl), Hnil, decide_False by (by intros ?).
      apply order_by_id, legacy_atts_sorted.
    + destruct (Hnl Hl) as [-> ->]. done.
  - rewrite decide_False by (by rewrite order_by_nil).
    destruct (decide (q ∈ l)) as [Hl|Hl].
    + by rewrite (Hin q Hl), decide_True, app_nil_r.
    + destruct (Hnl Hl) as [-> _]. by rewrite app_nil_r.
Qed.

(** ** The bookkeeping of a publish pass *)

Lemma logged_refl chat_id quiz_id expires_at w :
  logged chat_id quiz_id expires_at w w [].
Proof.
  unfold logged, rows_of_units. simpl. rewrite !app_nil_r.
  split; [by destruct w as [[]]|]. split_and!; try done; lia.
Qed.

Lemma logged_trans chat_id quiz_id expires_at w1 w2 w3 es1 es2 :
  logged chat_id quiz_id expires_at w1 w2 es1 →
  logged chat_id quiz_id expires_at w2 w3 es2 →
  logged chat_id quiz_id expires_at w1 w3 (es1 ++ es2).
Proof.
  intros (Hs1 & Ho1 & Hu1 & Ha1 & Ht1 & Hp1) (Hs2 & Ho2 & Hu2 & Ha2 & Ht2 & Hp2).
  unfold logged, rows_of_units in *. rewrite omap_app, length_app.
  rewrite Hs2, Hs1, Ho2, Ho1, Ht2, Ht1, Hp2, Hp1. simpl. rewrite !app_assoc.
  split_and!; try done; [by apply Forall_app|lia..].
Qed.

Lemma send_and_record_logged chat_id quiz_id expires_at o u w :
  ∃ w' m,
    (m ← _safe_send o u; record_sent chat_id quiz_id expires_at m) w = (Ok (), w') ∧
    logged chat_id quiz_id expires_at w w' [SafeSend o u m].
Proof.
  unfold _safe_send, call_transport, record_sent, logged, rows_of_units. munfold. simpl.
  destruct (transport (api_calls w)) as [id| |]; simpl.
  - eexists _, (Some id). split; [done|]. simpl. split_and!; try done; [by repeat constructor|lia..].
  - destruct (transport (S (api_calls w))) as [id| |]; simpl.
    + eexists _, (Some id). split; [done|]. simpl.
      split_and!; try done; [by repeat constructor|lia..].
    + eexists _, None. split; [done|]. simpl. rewrite app_nil_r.
      split; [by destruct w as [[]]|]. split_and!; try done; [by repeat constructor|lia..].
    + eexists _, None. split; [done|]. simpl. rewrite app_nil_r.
      split; [by destruct w as [[]]|]. split_and!; try done; [by repeat constructor|lia..].
  - eexists _, None. split; [done|]. simpl. rewrite app_nil_r.
    split; [by destruct w as [[]]|]. split_and!; try done; [by repeat constructor|lia..].
Qed.

Lemma send_attachments_logged chat_id quiz_id expires_at o atts w :
  ∃ w' es,
    for_each atts (λ att,
      m ← _safe_send o (attachment_unit chat_id att None None);
      record_sent chat_id quiz_id expires_at m) w = (Ok (), w') ∧
    logged chat_id quiz_id expires_at w w' es.
Proof.
  revert w. induction atts as [|att atts IH]; intros w; simpl.
  - exists w, []. split; [done|apply logged_refl].
  - destruct (send_and_record_logged chat_id quiz_id expires_at o
                (attachment_unit chat_id att None None) w) as (w1 & m & Hrun & Hs1).
    destruct (IH w1) as (w2 & es & Hrun2 & Hs2).
    exists w2, ([SafeSend o (attachment_unit chat_id att None None) m] ++ es).
    split; [|by eapply logged_trans].
    unfold mbind at 1, M_bind at 1. rewrite Hrun. exact Hrun2.
Qed.

Lemma publish_bundle_logged chat_id quiz_id expires_at bundle_id w :
  ∃ w' es,
    publish_bundle chat_id quiz_id expires_at bundle_id w = (Ok (), w') ∧
    logged chat_id quiz_id expires_at w w' es.
Proof.
  unfold publish_bundle. unfold mbind at 1, M_bind at 1, read. simpl.
  apply send_attachments_logged.
Qed.

Lemma publish_question_logged chat_id quiz_id expires_at q w :
  ∃ w' es,
    publish_question chat_id quiz_id expires_at q w = (Ok (), w') ∧
    logged chat_id quiz_id expires_at w w' es.
Proof.
  unfold publish_question.
  unfold mbind at 1 2, M_bind at 1 2, read. simpl.
  destruct (get_question_atts (store w) (q_id q)) as [|att rest].
  - destruct (send_and_record_logged chat_id quiz_id expires_at (OfQuestion (q_id q))
                {| out_method := send_message; out_chat := chat_id;
                   out_body := PlainText (q_text q); out_caption := None;
                   out_markup := Some (build_options_kb (store w) (q_id q) 0) |} w)
      as (w1 & m & Hrun & Hs1).
    by eexists _, _.
  - set (u := attachment_unit chat_id att (Some (q_text q))
                (Some (build_options_kb (store w) (q_id q) 0))).
    destruct (send_and_record_logged chat_id quiz_id expires_at (OfQuestion (q_id q)) u w)
      as (w1 & m & Hrun & Hs1).
    destruct (send_attachments_logged chat_id quiz_id expires_at (OfQuestion (q_id q)) rest w1)
      as (w2 & es & Hrun2 & Hs2).
    exists w2, ([SafeSend (OfQuestion (q_id q)) u m] ++ es).
    split; [|by eapply logged_trans].
    revert Hrun. unfold mbind, M_bind.
    destruct (_safe_send (OfQuestion (q_id q)) u w) as [[m'|] w0]; [|done].
    intros ->. exact Hrun2.
Qed.

Lemma publish_questions_logged chat_id quiz_id expires_at qs sent w :
  ∃ w' es,
    publish_questions chat_id quiz_id expires_at qs sent w = (Ok (), w') ∧
    logged chat_id quiz_id expires_at w w' es.
Proof.
  revert sent w. induction qs as [|q rest IH]; intros sent w; simpl.
  { exists w, []. split; [done|apply logged_refl]. }
  unfold mbind at 1, M_bind at 1.
  destruct (truthy_int (q_media_bundle_id q)) as [b|] eqn:Hb.
  - destruct (decide (b ∈ sent)) as [Hin|Hin].
    + unfold mret at 1, M_ret at 1. unfold mbind at 1, M_bind at 1.
      destruct (publish_question_logged chat_id quiz_id expires_at q w)
        as (w1 & qu & -> & Hs1).
      destruct (IH sent w1) as (w2 & es & -> & Hs2).
      exists w2, (qu ++ es). split; [done|by eapply logged_trans].
    + unfold mbind at 1, M_bind at 1.
      destruct (publish_bundle_logged chat_id quiz_id expires_at b w)
        as (w0 & bs & -> & Hs0).
      unfold mret at 1, M_ret at 1. unfold mbind at 1, M_bind at 1.
      destruct (publish_question_logged chat_id quiz_id expires_at q w0)
        as (w1 & qu & -> & Hs1).
      destruct (IH ({[b]} ∪ sent) w1) as (w2 & es & -> & Hs2).
      exists w2, (bs ++ qu ++ es). split; [done|].
      eapply logged_trans; [done|]. by eapply logged_trans.
  - unfold mret at 1, M_ret at 1. unfold mbind at 1, M_bind at 1.
    destruct (publish_question_logged chat_id quiz_id expires_at q w)
      as (w1 & qu & -> & Hs1).
    destruct (IH sent w1) as (w2 & es & -> & Hs2).
    exists w2, (qu ++ es). split; [done|by eapply logged_trans].
Qed.

Lemma do_publish_logged chat_id quiz_id expires_at w :
  ∃ w' es added,
    _do_publish chat_id quiz_id expires_at w = (Ok (), w') ∧
    outbox w' = outbox w ++ es ∧
    store w' =
      set_sent_msgs (sent_msgs (store w) ++ rows_of_units chat_id quiz_id expires_at es)
        (set_question_attachments (question_attachments (store w) ++ added) (store w)) ∧
    (let units := length (filter (λ e, is_unit e = true) es) in
     api_calls w + units ≤ api_calls w' ≤ api_calls w + 2 * units)%nat ∧
    ticks w' = ticks w ∧ pending_names w' = pending_names w.
Proof.
  unfold _do_publish. unfold mbind at 1, M_bind at 1.
  destruct (migrate_frame w) as (added & js & -> & _ & _).
  unfold mbind at 1, M_bind at 1, read. simpl.
  set (wm := {| store := set_question_attachments _ (store w) |}).
  assert (∀ w', (emit (BotSendMessage chat_id TxtInvalidQuiz) wm) = (Ok (), w') →
            outbox w' = outbox w ++ [BotSendMessage chat_id TxtInvalidQuiz] ∧
            store w' =
              set_sent_msgs
                (sent_msgs (store w) ++
                 rows_of_units chat_id quiz_id expires_at [BotSendMessage chat_id TxtInvalidQuiz])
                (set_question_attachments (question_attachments (store w) ++ added) (store w)) ∧
            api_calls w' = api_calls w ∧ ticks w' = ticks w ∧
            pending_names w' = pending_names w) as Hinv.
  { intros w' [= <-]. simpl. rewrite app_nil_r. by split_and!. }
  destruct (head _) as [z|].
  2:{ eexists _, [_], added. split; [done|].
      destruct (Hinv _ eq_refl) as (? & ? & Ha & ? & ?). split_and!; try done; simpl; lia. }
  case_decide as Hqs.
  { eexists _, [_], added. split; [done|].
    destruct (Hinv _ eq_refl) as (? & ? & Ha & ? & ?). split_and!; try done; simpl; lia. }
  clear Hinv.
  destruct (send_and_record_logged chat_id quiz_id expires_at OfHead
              {| out_method := send_message; out_chat := chat_id;
                 out_body := HeadText (qz_title z) expires_at; out_caption := None;
                 out_markup := Some [ {| btn_glyph := None; btn_text := "🎓 ابدأ الحل";
                                         btn_data := CbStart quiz_id |} ] |} wm)
    as (w1 & m & Hrun & Hs1).
  destruct (publish_questions_logged chat_id quiz_id expires_at
              (questions_of_quiz (set_question_attachments
                 (question_attachments (store w) ++ added) (store w)) quiz_id) ∅ w1)
    as (w2 & es & Hrun2 & Hs2).
  revert Hrun. unfold mbind, M_bind.
  destruct (_safe_send OfHead _ wm) as [[m'|e] w0]; [|done].
  intros ->. rewrite Hrun2.
  destruct (logged_trans _ _ _ _ _ _ _ _ Hs1 Hs2) as (Hst & Ho & Hu & Ha & Ht & Hp).
  eexists w2, _, added. split; [done|]. split; [exact Ho|]. split; [exact Hst|].
  cbv zeta. rewrite filter_all by done. clear Hrun2 Hs1 Hs2 Hst Ho Hu. subst wm. simpl in *.
  split; [exact Ha|done].
Qed.


(** A pass without a time limit leaves the rows that carry an expiry as
    they are. *)
Lemma expiry_rows_unlimited d added chat_id quiz_id es c z :
  expiry_rows
    (set_sent_msgs (sent_msgs d ++ rows_of_units chat_id quiz_id None es)
       (set_question_attachments added d)) c z
  = expiry_rows d c z.
Proof.
  unfold expiry_rows. simpl. rewrite filter_app.
  rewrite (filter_none _ (rows_of_units _ _ _ _)); [by rewrite app_nil_r|].
  apply Forall_forall. intros s Hs. unfold rows_of_units in Hs.
  apply list_elem_of_omap in Hs as (e & _ & He).
  destruct e as [| | | |o u [id|]| | | |]; try done.
  injection He as <-. simpl. intros (_ & _ & Hn). done.
Qed.

(** The verdict of [_quiz_expired] is read off the rows that carry an
    expiry and the clock. *)
Lemma quiz_expired_ext chat_id quiz_id w w' :
  expiry_rows (store w') chat_id quiz_id = expiry_rows (store w) chat_id quiz_id →
  ticks w' = ticks w →
  (_quiz_expired chat_id quiz_id w').1 = (_quiz_expired chat_id quiz_id w).1.
Proof.
  intros Hr Ht. unfold _quiz_expired. munfold. simpl. rewrite Hr.
  destruct (last _) as [row|]; [|done].
  destruct (truthy_text (s_expires_at row)) as [text|]; [|done].
  destruct (fromisoformat text) as [[e|n]|]; [|done..]. simpl. by rewrite Ht.
Qed.

(** X3.  Publishing a quiz without a time limit does not lift a time limit
    that an earlier publication set: the rows of [sent_msgs] that carry an
    expiry stay the newest ones with an expiry, so [_quiz_expired] gives
    for every chat and quiz the verdict it gave before. *)
Theorem unlimited_publish_keeps_expiry chat_id quiz_id c z w :
  let w' := exec (cb_pub_duration_selected chat_id quiz_id "none") w in
  expiry_rows (store w') c z = expiry_rows (store w) c z ∧
  (_quiz_expired c z w').1 = (_quiz_expired c z w).1.
Proof.
  destruct (do_publish_logged chat_id quiz_id None w)
    as (w1 & es & added & Hrun & Ho & Hs & Ha & Ht & Hp).
  assert (exec (cb_pub_duration_selected chat_id quiz_id "none") w
          = exec (emit StateClear) w1) as ->.
  { unfold cb_pub_duration_selected, exec.
    rewrite decide_False by done. rewrite decide_True by done.
    unfold mbind at 1, M_bind at 1, mret at 1, M_ret at 1.
    unfold mbind at 1, M_bind at 1. by rewrite Hrun. }
  unfold exec, emit. simpl.
  assert (expiry_rows (store w1) c z = expiry_rows (store w) c z) as Hr.
  { rewrite Hs. apply expiry_rows_unlimited. }
  split; [done|]. by apply quiz_expired_ext.
Qed.

(** X4.  [cb_pub_custom_hours] turns away everybody but the owner, and
    from the owner a text that is no number or a number of hours outside
    1..240: it answers with the reason and publishes nothing; no call of the
    Bot API is made and no row is written.  The owner's conversation stays
    in its state and waits for another number; a stranger's is cleared. *)
Theorem custom_hours_rejected chat_id from_user quiz_id hours w :
  from_user ≠ OWNER_ID ∨ (∀ h, hours = Some h → h ≤ 0 ∨ 240 < h) →
  let w' := exec (cb_pub_custom_hours chat_id from_user quiz_id hours) w in
  store w' = store w ∧ journal w' = journal w ∧ api_calls w' = api_calls w ∧
  ticks w' = ticks w ∧ pending_names w' = pending_names w ∧
  outbox w' = outbox w ++
    (if decide (from_user = OWNER_ID) then [MsgReply TxtBadHours]
     else [MsgReply TxtOwnerOnly; StateClear]).
Proof.
  intros Hrej. simpl. unfold cb_pub_custom_hours. munfold.
  destruct (decide (from_user = OWNER_ID)) as [->|Hne].
  - destruct Hrej as [Hne|Hbad]; [done|].
    rewrite decide_False by (by intros ?).
    destruct hours as [h|]; [|done].
    rewrite decide_True; [done|]. destruct (Hbad h eq_refl); [left|right]; lia.
  - rewrite decide_True by done. simpl. by rewrite <- app_assoc.
Qed.

(** ** The participants' side: names *)


Lemma cb_start_quiz_store chat_id user_id payload w :
  store (exec (cb_start_quiz chat_id user_id payload) w) = store w.
Proof.
  unfold cb_start_quiz. munfold.
  destruct payload as [quiz_id|]; simpl; [|done].
  destruct (_quiz_expired chat_id quiz_id w) as [[v|e] w1] eqn:Hx; simpl;
    pose proof (quiz_expired_frame _ _ _ _ _ Hx) as (Hs & _); [|done].
  case_decide; simpl; [done|].
  by destruct (participant_of (store w1) chat_id user_id quiz_id).
Qed.

(** A text in a group either changes nothing in the store or registers a
    name for one key. *)
Lemma catch_name_in_group_store in_group chat_id user_id text w :
  let w' := exec (catch_name_in_group in_group chat_id user_id text) w in
  store w' = store w ∨
  ∃ quiz_id,
    (chat_id, user_id, quiz_id) ∈ pending_names w ∧ strip text ≠ EmptyString ∧
    store w' =
      set_participant_names
        (filter (λ n, ¬ (n_origin_chat_id n = chat_id ∧ n_user_id n = user_id ∧
                         n_quiz_id n = quiz_id)) (participant_names (store w))
         ++ [ {| n_origin_chat_id := chat_id; n_user_id := user_id;
                 n_quiz_id := quiz_id; n_name := strip text |} ]) (store w).
Proof.
  simpl. unfold catch_name_in_group, upsert_participant. munfold.
  destruct in_group; simpl; [|by left].
  destruct (head _) as [[[c u] z]|] eqn:Hh; simpl; [|by left].
  apply (head_filter_Some (λ k, k.1.1 = chat_id ∧ k.1.2 = user_id)) in Hh as (Hin & Hc & Hu).
  simpl in Hc, Hu. subst c u.
  case_decide as Hname; simpl; [by left|]. right. by exists z.
Qed.

Lemma on_answer_store chat_id user_id question_id option_index target_user_id w :
  let w' := exec (on_answer chat_id user_id question_id option_index target_user_id) w in
  ∃ rs up, store w' = set_user_progress up (set_responses (responses (store w) ++ rs) (store w)).
Proof.
  simpl.
  destruct (on_answer_spec chat_id user_id question_id option_index target_user_id w)
    as [(Hs & _)|(_ & qrow & ts & fb & cel & _ & _ & Hrec)].
  - exists [], (user_progress (store w)). rewrite Hs, app_nil_r. by destruct (store w).
  - simpl in Hrec. case_decide.
    + destruct Hrec as (up & j & name & -> & _). by eexists [_], up.
    + destruct Hrec as (-> & _). by eexists [_], (user_progress (store w)).
Qed.

(** What one event of a participant can do to the store. *)
Lemma handle_store e w :
  let d := store w in
  let d' := store (exec (handle e) w) in
  same_content d d' ∧ sent_msgs d' = sent_msgs d ∧
  (∃ rs, responses d' = responses d ++ rs) ∧
  (participant_names d' = participant_names d ∨
   ∃ row, participant_names d' =
            filter (λ n, participant_key n ≠ participant_key row) (participant_names d) ++ [row]).
Proof.
  simpl. destruct e as [c u p|g c u t|c u q i t]; simpl.
  - rewrite cb_start_quiz_store. split_and!; try done; [|by left].
    exists []. by rewrite app_nil_r.
  - destruct (catch_name_in_group_store g c u t w) as [->|(z & _ & _ & ->)].
    + split_and!; try done; [|by left]. exists []. by rewrite app_nil_r.
    + simpl. split_and!; try done; [exists []; by rewrite app_nil_r|].
      right. eexists {| n_origin_chat_id := c |}. f_equal.
      apply list_filter_iff. intros n. unfold participant_key. simpl.
      split; [intros Hn [= ? ? ?]; by apply Hn|intros Hn (? & ? & ?); apply Hn; congruence].
  - destruct (on_answer_store c u q i t w) as (rs & up & ->). simpl.
    split_and!; try done; [by exists rs|by left].
Qed.

(** X5.  What the participants do never changes the quizzes: whatever
    events they send, the tables of quizzes, questions, options, attachments
    and bundles and the log of sent messages stay as they are, and
    [responses] only grows at its end. *)
Theorem participants_keep_content es w :
  let d := store w in
  let d' := store (run es w) in
  same_content d d' ∧ sent_msgs d' = sent_msgs d ∧
  ∃ rs, responses d' = responses d ++ rs.
Proof.
  simpl. revert w. induction es as [|e es IH]; intros w; simpl.
  { split_and!; try done. exists []. by rewrite app_nil_r. }
  destruct (IH (exec (handle e) w)) as (Hc & Hs & rs & Hr).
  destruct (handle_store e w) as (Hc0 & Hs0 & (rs0 & Hr0) & _). simpl in *.
  split; [|split; [congruence|]].
  - unfold same_content in *. destruct Hc as (? & ? & ? & ? & ? & ? & ? & ? & ?).
    destruct Hc0 as (? & ? & ? & ? & ? & ? & ? & ? & ?). split_and!; congruence.
  - exists (rs0 ++ rs). by rewrite Hr, Hr0, app_assoc.
Qed.








(** ** Bulk import *)

Lemma parse_attachments_field_spec field :
  (length (parse_attachments_field field) ≤ 5)%nat ∧
  Forall (λ a, a.1 ∈ ["photo"; "voice"; "audio"] ∧ a.2 ≠ EmptyString)
    (parse_attachments_field field) ∧
  (strip field = EmptyString → parse_attachments_field field = []).
Proof.
  unfold parse_attachments_field. case_decide as Hf.
  { split; [simpl; lia|]. split; [constructor|done]. }
  split; [rewrite length_take; lia|]. split; [|done].
  apply Forall_take, Forall_forall. intros [kind fid] Hin.
  apply list_elem_of_omap in Hin as (p & _ & Hp).
  destruct (split_once ":" p) as [[kind' fid']|]; [|done].
  case_decide as Hok; [|done]. injection Hp as <- <-. done.
Qed.

(** X9.  [parse_attachments_field] never gives more than five
    attachments; each one has the kind photo, voice or audio and a file id
    that is not empty; a blank field gives none. *)
Theorem parse_attachments_field_valid field :
  let out := parse_attachments_field field in
  (length out ≤ 5)%nat ∧
  Forall (λ a, a.1 ∈ ["photo"; "voice"; "audio"] ∧ a.2 ≠ EmptyString) out ∧
  (strip field = EmptyString → out = []).
Proof.
  simpl. unfold parse_attachments_field.
  destruct (decide (strip field = EmptyString)) as [Hf|Hf].
  { split; [simpl; lia|]. split; [constructor|done]. }
  split; [rewrite length_take; lia|]. split; [|done].
  apply Forall_take, Forall_forall. intros [kind fid] Hin.
  apply list_elem_of_omap in Hin as (p & _ & Hp).
  destruct (split_once ":" p) as [[kind' fid']|]; [|done].
  destruct (decide (lower (strip kind') ∈ ["photo"; "voice"; "audio"] ∧
                    strip fid' ≠ EmptyString)) as [Hok|Hno]; [|done].
  injection Hp as <- <-. exact Hok.
Qed.

Lemma parse_bulk_row_spec ln row :
  well_formed_item (parse_bulk_row ln row) ∧
  ∀ e, parse_bulk_row ln row = BulkError e → error_line e = ln.
Proof.
  unfold parse_bulk_row.
  case_decide as Hmiss; [by split; [|intros e [= <-]]|].
  case_decide as Hcount; [by split; [|intros e [= <-]]|].
  destruct (int _) as [correct|]; [|by split; [|intros e [= <-]]].
  case_decide as Hrange; [by split; [|intros e [= <-]]|].
  split; [|done]. simpl.
  try apply dec_stable in Hcount. try apply dec_stable in Hrange.
  destruct (parse_attachments_field_spec
              (strip (default EmptyString (row !! "attachments")))) as (Hlen & Hatts & _).
  split_and!; try done; try lia.
  - intros Hq. apply Hmiss. by left.
  - apply Forall_forall. by intros o [? _]%list_elem_of_filter.
Qed.

Lemma parse_bulk_csv_well_formed text : Forall well_formed_item (parse_bulk_csv text).
Proof.
  unfold parse_bulk_csv. apply Forall_forall. intros it Hin.
  apply list_elem_of_lookup in Hin as [i Hi]. rewrite list_lookup_imap in Hi.
  destruct (DictReader text !! i) as [row|]; [|done]. injection Hi as <-.
  apply parse_bulk_row_spec.
Qed.


Lemma for_each_ext {A} (f g : A → M unit) l :
  (∀ x, f x = g x) → for_each l f = for_each l g.
Proof. intros Hfg. induction l as [|x l IH]; simpl; [done|]. by rewrite Hfg, IH. Qed.

Lemma for_each_fmap {A B} (h : A → B) (f : B → M unit) l :
  for_each (h <$> l) f = for_each l (λ x, f (h x)).
Proof. induction l as [|x l IH]; csimpl; [done|]. by rewrite IH. Qed.

(** Numbered rows: their owner, their order, and the one that is marked. *)
Lemma imap_sorted {A B} (key : B → Z) (g : Z * A → B) (l : list A) (k : nat) :
  (∀ i x, key (g (i, x)) = i) →
  StronglySorted (λ a b, key a ≤ key b) (g <$> imap (λ i x, (Z.of_nat (k + i), x)) l) ∧
  Forall (λ b, Z.of_nat k ≤ key b) (g <$> imap (λ i x, (Z.of_nat (k + i), x)) l).
Proof.
  intros Hkey. revert k. induction l as [|x l IH]; intros k; csimpl.
  { split; constructor. }
  destruct (IH (S k)) as [Hs Hf].
  assert (imap ((λ i x, (Z.of_nat (k + i), x)) ∘ S) l =
          imap (λ i x, (Z.of_nat (S k + i), x)) l) as ->.
  { apply imap_ext. intros i y _. simpl. by rewrite Nat.add_succ_r. }
  split.
  - constructor; [done|]. eapply Forall_impl; [exact Hf|].
    simpl. intros b Hb. rewrite Hkey. lia.
  - constructor; [rewrite Hkey; lia|]. eapply Forall_impl; [exact Hf|]. simpl. lia.
Qed.

Lemma numbered_options_sorted question_id correct_index0 options :
  StronglySorted (λ a b, o_option_index a ≤ o_option_index b)
    (numbered_options question_id correct_index0 options).
Proof.
  unfold numbered_options, enumerate.
  by apply (imap_sorted o_option_index _ options 0).
Qed.

Lemma numbered_attachments_sorted question_id attachments :
  StronglySorted (λ a b, att_position a ≤ att_position b)
    (numbered_attachments question_id attachments).
Proof.
  unfold numbered_attachments, enumerate.
  apply (imap_sorted att_position
           (λ '(pos, (kind, fid)),
              {| att_owner := question_id; att_kind := kind; att_file_id := fid;
                 att_position := pos |}) attachments 0).
  by intros i [kind fid].
Qed.

Lemma numbered_options_owner question_id correct_index0 options :
  Forall (λ o, o_question_id o = question_id)
    (numbered_options question_id correct_index0 options).
Proof.
  unfold numbered_options. apply Forall_fmap, Forall_forall. by intros [i t] _.
Qed.

Lemma numbered_attachments_owner question_id attachments :
  Forall (λ a, att_owner a = question_id) (numbered_attachments question_id attachments).
Proof.
  unfold numbered_attachments. apply Forall_fmap, Forall_forall. by intros [i [kind fid]] _.
Qed.

Lemma numbered_options_correct question_id correct_index0 options :
  0 ≤ correct_index0 < Z.of_nat (length options) →
  length (filter (λ o, o_is_correct o = 1)
            (numbered_options question_id correct_index0 options)) = 1%nat.
Proof.
  unfold numbered_options, enumerate.
  assert (∀ (k : nat) l,
            length (filter (λ o, o_is_correct o = 1)
              ((λ '(i, opt_text),
                  {| o_question_id := question_id; o_option_index := i; o_text := opt_text;
                     o_is_correct := if decide (i = correct_index0) then 1 else 0 |})
               <$> imap (λ i x, (Z.of_nat (k + i), x)) l)) =
            if decide (Z.of_nat k ≤ correct_index0 < Z.of_nat (k + length l)) then 1%nat
            else 0%nat) as Hcount.
  { intros k l. revert k. induction l as [|x l IH]; intros k; csimpl.
    - rewrite decide_False; [done|lia].
    - assert (imap ((λ i x, (Z.of_nat (k + i), x)) ∘ S) l =
              imap (λ i x, (Z.of_nat (S k + i), x)) l) as ->.
      { apply imap_ext. intros i y _. simpl. by rewrite Nat.add_succ_r. }
      rewrite filter_cons. cbn [o_is_correct length]. rewrite Nat.add_0_r.
      destruct (decide (Z.of_nat k = correct_index0)) as [Heq|Hne].
      + rewrite decide_True by done. cbn [length]. rewrite IH.
        rewrite decide_False by lia. rewrite decide_True by lia. done.
      + rewrite decide_False by done. rewrite IH.
        destruct (decide (Z.of_nat (S k) ≤ correct_index0 < Z.of_nat (S k + length l))).
        * rewrite decide_True by lia. done.
        * rewrite decide_False by lia. done. }
  intros Hc. rewrite (Hcount 0%nat). rewrite decide_True; [done|simpl; lia].
Qed.

Lemma insert_question_with_data_run quiz_id q_text opts correct_index0 attachments w :
  let qid := qbound (store w) + 1 in
  ∃ js,
    insert_question_with_data quiz_id q_text opts correct_index0 attachments w =
    (Ok qid,
     {| store :=
          set_question_attachments
            (question_attachments (store w) ++ numbered_attachments qid (take 5 attachments))
            (set_options
               (options (store w) ++ numbered_options qid correct_index0 opts)
               (set_questions
                  (questions (store w) ++
                   [ {| q_id := qid; q_quiz_id := quiz_id; q_text := q_text;
                        q_created_at := isoformat (clock (ticks w));
                        q_media_bundle_id := None;
                        q_photo := None; q_audio := None; q_audio_is_voice := Some 0 |} ])
                  qid (store w)));
        pending_names := pending_names w; ticks := S (ticks w); api_calls := api_calls w;
        outbox := outbox w; journal := journal w ++ js |}).
Proof.
  intros qid. unfold insert_question_with_data, insert_question. munfold. simpl.
  fold (qbound (store w)). fold qid.
  rewrite (for_each_ext _ (λ x, insert_option
             ((λ '(i, opt_text),
                 {| o_question_id := qid; o_option_index := i; o_text := opt_text;
                    o_is_correct := if decide (i = correct_index0) then 1 else 0 |}) x)))
    by (by intros [i t]).
  rewrite <- (for_each_fmap _ (λ o, insert_option o)).
  rewrite (insert_options_run (λ o, o)). simpl.
  rewrite (for_each_ext _ (λ x, insert_question_attachment
             ((λ '(pos, (kind, fid)),
                 {| att_owner := qid; att_kind := kind; att_file_id := fid;
                    att_position := pos |}) x)))
    by (by intros [i [kind fid]]).
  rewrite <- (for_each_fmap _ (λ a, insert_question_attachment a)).
  rewrite (insert_question_attachments_run (λ a, a)). simpl.
  rewrite !list_fmap_id. fold (numbered_options qid correct_index0 opts).
  fold (numbered_attachments qid (take 5 attachments)).
  eexists. by rewrite <- !app_assoc.
Qed.

(** What one call of [insert_question_with_data] does to the store. *)
Lemma insert_question_with_data_spec quiz_id q_text opts correct_index0 attachments w :
  owned_in_range (store w) →
  let qid := qbound (store w) + 1 in
  ∃ w',
    insert_question_with_data quiz_id q_text opts correct_index0 attachments w = (Ok qid, w') ∧
    questions (store w') =
      questions (store w) ++
      [ {| q_id := qid; q_quiz_id := quiz_id; q_text := q_text;
           q_created_at := isoformat (clock (ticks w)); q_media_bundle_id := None;
           q_photo := None; q_audio := None; q_audio_is_voice := Some 0 |} ] ∧
    options_for_question (store w') qid = numbered_options qid correct_index0 opts ∧
    get_question_atts (store w') qid = numbered_attachments qid (take 5 attachments) ∧
    (∀ q', q' ≠ qid →
      options_for_question (store w') q' = options_for_question (store w) q' ∧
      get_question_atts (store w') q' = get_question_atts (store w) q') ∧
    qbound (store w') = qid ∧ owned_in_range (store w').
Proof.
  intros [Ho Ha] qid.
  destruct (insert_question_with_data_run quiz_id q_text opts correct_index0 attachments w)
    as (js & Hrun).
  match type of Hrun with _ = (_, ?x) => set (w' := x) in * end.
  exists w'. split; [exact Hrun|].
  assert (qbound (store w') = qid) as Hb.
  { unfold qbound, w'. simpl. rewrite fmap_app. simpl. apply next_bound. }
  split_and!.
  - done.
  - unfold options_for_question, w'. simpl. apply read_own.
    + eapply Forall_impl; [exact Ho|]. simpl. unfold qid. lia.
    + apply numbered_options_owner.
    + apply numbered_options_sorted.
  - unfold get_question_atts, w'. simpl. apply read_own.
    + eapply Forall_impl; [exact Ha|]. simpl. unfold qid. lia.
    + apply numbered_attachments_owner.
    + apply numbered_attachments_sorted.
  - intros q' Hq'. split.
    + unfold options_for_question, w'. simpl. apply read_other.
      eapply Forall_impl; [apply numbered_options_owner|]. simpl.
      intros o Hown Heq. apply Hq'. by rewrite <- Heq, Hown.
    + unfold get_question_atts, w'. simpl. apply read_other.
      eapply Forall_impl; [apply numbered_attachments_owner|]. simpl.
      intros a Hown Heq. apply Hq'. by rewrite <- Heq, Hown.
  - exact Hb.
  - unfold owned_in_range. rewrite Hb. unfold w'. simpl. split; apply Forall_app; split.
    + eapply Forall_impl; [exact Ho|]. simpl. unfold qid. lia.
    + eapply Forall_impl; [apply numbered_options_owner|]. simpl. lia.
    + eapply Forall_impl; [exact Ha|]. simpl. unfold qid. lia.
    + eapply Forall_impl; [apply numbered_attachments_owner|]. simpl. lia.
Qed.

(** X11.  [insert_question_with_data] and the SELECTs that read a
    question back: the new question has an id that no question had, it
    stands at the end of [questions] without a bundle, its options read
    back in the order given, numbered from 0, with the one at
    [correct_index0] marked, and its attachments are the first five, at
    the positions 0 to 4; exactly one option is marked when
    [correct_index0] is the index of an option; the options and the
    attachments of every other question read as before. *)
Theorem insert_question_with_data_reads quiz_id q_text opts correct_index0 attachments w :
  owned_in_range (store w) →
  let qid := qbound (store w) + 1 in
  ∃ w',
    insert_question_with_data quiz_id q_text opts correct_index0 attachments w = (Ok qid, w') ∧
    (¬ qid ∈ (q_id <$> questions (store w))) ∧
    questions (store w') =
      questions (store w) ++
      [ {| q_id := qid; q_quiz_id := quiz_id; q_text := q_text;
           q_created_at := isoformat (clock (ticks w)); q_media_bundle_id := None;
           q_photo := None; q_audio := None; q_audio_is_voice := Some 0 |} ] ∧
    options_for_question (store w') qid = numbered_options qid correct_index0 opts ∧
    get_question_atts (store w') qid = numbered_attachments qid (take 5 attachments) ∧
    (0 ≤ correct_index0 < Z.of_nat (length opts) →
     length (correct_options (store w') qid) = 1%nat) ∧
    (∀ q', q' ≠ qid →
      options_for_question (store w') q' = options_for_question (store w) q' ∧
      get_question_atts (store w') q' = get_question_atts (store w) q').
Proof.
  intros Hown qid.
  destruct (insert_question_with_data_spec quiz_id q_text opts correct_index0 attachments w Hown)
    as (w' & Hrun & Hq & Hopts & Hatts & Hother & _).
  exists w'. split_and!; try done.
  - intros Hin%max_id_ge. unfold qid, qbound in Hin. lia.
  - intros Hc. unfold correct_options. fold qid in Hopts. rewrite Hopts.
    by apply numbered_options_correct.
Qed.

Lemma length_numbered_options question_id correct_index0 opts :
  length (numbered_options question_id correct_index0 opts) = length opts.
Proof. unfold numbered_options, enumerate. by rewrite length_fmap, length_imap. Qed.

Lemma length_numbered_attachments question_id attachments :
  length (numbered_attachments question_id attachments) = length attachments.
Proof. unfold numbered_attachments, enumerate. by rewrite length_fmap, length_imap. Qed.

(** The loop of [_consume_bulk_csv_text]. *)
Lemma import_items_spec quiz_id idx parsed ok_count errors w :
  Forall well_formed_item parsed → owned_in_range (store w) →
  ∃ news ok' errors' w',
    import_items quiz_id idx parsed ok_count errors w = (Ok (ok', errors'), w') ∧
    (ok' + length errors' = ok_count + length errors + length parsed)%nat ∧
    ok' = (ok_count + length news)%nat ∧
    questions (store w') = questions (store w) ++ news ∧
    Forall (λ q, qbound (store w) < q_id q ∧ imported (store w') quiz_id q) news ∧
    (∀ q, q ≤ qbound (store w) →
       options_for_question (store w') q = options_for_question (store w) q ∧
       get_question_atts (store w') q = get_question_atts (store w) q) ∧
    qbound (store w) ≤ qbound (store w').
Proof.
  intros Hwf. revert idx ok_count errors w.
  induction Hwf as [|it parsed Hit _ IH]; intros idx ok_count errors w Hown.
  { exists [], ok_count, errors, w. simpl. rewrite app_nil_r.
    split_and!; try done; lia. }
  destruct it as [e|question opts c atts]; simpl.
  - destruct (IH (idx + 1) ok_count (errors ++ [Rejected e]) w Hown)
      as (news & ok' & errors' & w' & -> & Hsum & Hok & Hq & Hnews & Hold & Hb).
    exists news, ok', errors', w'. rewrite length_app in Hsum. simpl in Hsum.
    split_and!; try done; lia.
  - destruct Hit as (_ & Hn & _ & Hc & _).
    destruct (insert_question_with_data_spec quiz_id question opts c atts w Hown)
      as (w1 & -> & Hq1 & Hopts & Hatts & Hother & Hb1 & Hown1).
    destruct (IH (idx + 1) (S ok_count) errors w1 Hown1)
      as (news & ok' & errors' & w' & -> & Hsum & Hok & Hq & Hnews & Hold & Hb).
    eexists (_ :: news), ok', errors', w'. split; [done|].
    rewrite Hb1 in *. simpl.
    split_and!; try lia.
    + by rewrite Hq, Hq1, <- app_assoc.
    + constructor.
      * split; [simpl; lia|]. unfold imported, correct_options. simpl.
        destruct (Hold (qbound (store w) + 1)) as [-> ->]; [lia|].
        rewrite Hopts, Hatts, length_numbered_options, length_numbered_attachments.
        rewrite numbered_options_correct by done.
        split_and!; try done; try lia. rewrite length_take. lia.
      * eapply Forall_impl; [exact Hnews|]. simpl. intros q [? ?]. split; [lia|done].
    + intros q Hle. destruct (Hold q) as [-> ->]; [lia|]. apply Hother. lia.
Qed.

(** X12.  A bulk import as a whole: [_consume_bulk_csv_text] reports one
    outcome for every row of the CSV text, adds one question to the quiz
    of the conversation for every row it counts as imported, and each of
    them has 2 to 10 options, exactly one marked as correct, and at most 5
    attachments; the questions that were there keep their options and
    attachments, and the conversation is cleared. *)
Theorem bulk_import_adds_well_formed csv_text quiz_id k :
  fsm_data k !! "quiz_id" = Some (Some quiz_id) →
  owned_in_range (store (world_of k)) →
  let k' := at_desk (_consume_bulk_csv_text csv_text) k in
  let d := store (world_of k) in
  let d' := store (world_of k') in
  ∃ news errors,
    screen k' = screen k ++
      [Reply (NoteImported (length news) (length errors) (take 10 errors)) OwnerPanel] ∧
    (length news + length errors = length (DictReader csv_text))%nat ∧
    fsm_state k' = None ∧ fsm_data k' = ∅ ∧
    questions d' = questions d ++ news ∧
    Forall (λ q, qbound d < q_id q ∧ imported d' quiz_id q) news ∧
    ∀ q, q ≤ qbound d →
      options_for_question d' q = options_for_question d q ∧
      get_question_atts d' q = get_question_atts d q.
Proof.
  intros Hdata Hown.
  pose proof (parse_bulk_csv_well_formed csv_text) as Hwf.
  assert (length (parse_bulk_csv csv_text) = length (DictReader csv_text)) as Hlen
    by (unfold parse_bulk_csv; by rewrite length_imap).
  destruct (import_items_spec quiz_id 1 (parse_bulk_csv csv_text) 0 [] (world_of k) Hwf Hown)
    as (news & ok' & errors' & w' & Hrun & Hsum & Hok & Hq & Hnews & Hold & _).
  assert (at_desk (_consume_bulk_csv_text csv_text) k =
            {| world_of := w'; build_session := build_session k; fsm_state := None;
               fsm_data := ∅;
               screen := screen k ++
                 [Reply (NoteImported ok' (length errors') (take 10 errors')) OwnerPanel] |})
    as ->.
  { unfold at_desk, _consume_bulk_csv_text, get_data, int_item, item.
    unfold mbind, Owner_bind, mret, Owner_ret. simpl. rewrite Hdata. simpl.
    unfold lift. rewrite Hrun. done. }
  simpl. subst ok'. simpl in *. exists news, errors'.
  split_and!; try done. lia.
Qed.

(** ** The owner's side: the options of a question *)

(** The row that [receive_option_text] and [m_opts_text] insert. *)
Lemma imap_shift {A B} (f : Z → A → B) (c : Z) x (l : list A) :
  f c x :: imap (λ j t, f (c + 1 + Z.of_nat j) t) l = imap (λ j t, f (c + Z.of_nat j) t) (x :: l).
Proof.
  csimpl. f_equal; [f_equal; lia|]. apply imap_ext. intros j t _. simpl. f_equal. lia.
Qed.

Lemma receive_option_text_run qid text k :
  tmp_question_id (build_session k) = Some qid →
  ∃ k',
    receive_option_text OWNER_ID text k = (Done (), k') ∧
    store (world_of k') =
      set_options
        (options (store (world_of k)) ++
         [ {| o_question_id := qid; o_option_index := options_collected (build_session k);
              o_text := strip text; o_is_correct := 0 |} ]) (store (world_of k)) ∧
    tmp_question_id (build_session k') = Some qid ∧
    options_needed (build_session k') = options_needed (build_session k) ∧
    options_collected (build_session k') = options_collected (build_session k) + 1 ∧
    fsm_data k' = fsm_data k.
Proof.
  intros Htmp. unfold receive_option_text. ounfold. rewrite decide_True by done. simpl.
  rewrite Htmp. unfold insert_option, execute. simpl.
  case_decide; simpl; eexists; (split; [reflexivity|]); simpl; by split_and!.
Qed.

Lemma receive_option_texts_run qid texts k :
  tmp_question_id (build_session k) = Some qid →
  ∃ k',
    for_each_message texts (receive_option_text OWNER_ID) k = (Done (), k') ∧
    store (world_of k') =
      set_options
        (options (store (world_of k)) ++
         imap (λ j t, {| o_question_id := qid;
                         o_option_index := options_collected (build_session k) + Z.of_nat j;
                         o_text := strip t; o_is_correct := 0 |}) texts)
        (store (world_of k)) ∧
    tmp_question_id (build_session k') = Some qid ∧
    options_needed (build_session k') = options_needed (build_session k) ∧
    fsm_data k' = fsm_data k.
Proof.
  revert k. induction texts as [|t texts IH]; intros k Htmp.
  { exists k. simpl. rewrite app_nil_r. split_and!; try done. by destruct (store (world_of k)). }
  destruct (receive_option_text_run qid t k Htmp) as (k1 & Hrun1 & Hs1 & Ht1 & Hn1 & Hc1 & Hd1).
  destruct (IH k1 Ht1) as (k' & Hrun & Hs & Ht & Hn & Hd).
  exists k'. split.
  { simpl. unfold mbind, Owner_bind. by rewrite Hrun1. }
  split_and!; try congruence.
  rewrite Hs, Hs1, Hc1. unfold set_options. simpl. f_equal. rewrite <- app_assoc. f_equal.
  apply (imap_shift (λ c t, {| o_question_id := qid; o_option_index := c;
                               o_text := strip t; o_is_correct := 0 |})).
Qed.

(** Marking the correct one among the options just entered. *)
Lemma mark_correct qid c old texts d :
  Forall (λ o, o_question_id o ≠ qid) old →
  options d = old ++ imap (λ j t, {| o_question_id := qid; o_option_index := 0 + Z.of_nat j;
                                      o_text := strip t; o_is_correct := 0 |}) texts →
  options (set_is_correct 1 (Some qid) (Some c) d) =
    old ++ numbered_options qid c (strip <$> texts).
Proof.
  intros Hold Hd. unfold set_is_correct. simpl. rewrite Hd, fmap_app. f_equal.
  - rewrite <- (list_fmap_id old) at 2. apply Forall_fmap_ext_1.
    eapply Forall_impl; [exact Hold|]. simpl. intros o Ho.
    rewrite decide_False; [done|]. intros [[= ?] _]. done.
  - apply list_eq. intros j. unfold numbered_options, enumerate.
    rewrite !list_lookup_fmap, !list_lookup_imap, list_lookup_fmap.
    destruct (texts !! j) as [t|]; [|done]. simpl. f_equal.
    destruct (decide (Z.of_nat j = c)) as [Hj|Hj].
    + rewrite decide_True; [by rewrite Z.add_0_l|]. split; [done|]. right. f_equal. lia.
    + rewrite decide_False; [by rewrite Z.add_0_l|].
      intros [_ [?|[= ?]]]; [done|]. apply Hj. lia.
Qed.

(** X13.  The options of a new question: after the owner has given a
    number of options between 2 and 10, that many texts, and the number of
    the correct one, the question of the session has exactly these
    options, stripped, numbered from 0 in the order in which they were
    sent, and exactly the chosen one is marked as correct; no other
    question's options changed, and the conversation is cleared. *)
Theorem new_options_have_one_correct qid n texts i k :
  tmp_question_id (build_session k) = Some qid →
  options_for_question (store (world_of k)) qid = [] →
  2 ≤ n ≤ 10 → Z.of_nat (length texts) = n → 1 ≤ i ≤ n →
  ∃ k',
    (receive_options_count OWNER_ID (Some n);;
     for_each_message texts (receive_option_text OWNER_ID);;
     receive_correct_index OWNER_ID (Some i)) k = (Done (), k') ∧
    let d := store (world_of k) in
    let d' := store (world_of k') in
    options_for_question d' qid = numbered_options qid (i - 1) (strip <$> texts) ∧
    length (correct_options d' qid) = 1%nat ∧
    (∀ q, q ≠ qid → options_for_question d' q = options_for_question d q) ∧
    questions d' = questions d ∧
    fsm_state k' = None ∧ fsm_data k' = ∅.
Proof.
  intros Htmp Hnone Hn Hlen Hi.
  assert (Forall (λ o, o_question_id o ≠ qid) (options (store (world_of k)))) as Hold.
  { apply order_by_nil in Hnone. apply Forall_forall. intros o Ho Hq.
    assert (o ∈ filter (λ o, o_question_id o = qid) (options (store (world_of k)))) as Hin
      by (by apply list_elem_of_filter).
    rewrite Hnone in Hin. by apply elem_of_nil in Hin. }
  set (k1 := {| world_of := world_of k;
                build_session := with_options n 0 (build_session k);
                fsm_state := Some "BuildStates:waiting_option_text";
                fsm_data := fsm_data k;
                screen := screen k ++ [Answer (NoteAskOption 1 n) OwnerPanel] |}).
  assert (receive_options_count OWNER_ID (Some n) k = (Done (), k1)) as Hrun1.
  { unfold receive_options_count. ounfold. rewrite decide_True by done. simpl.
    rewrite decide_False by lia. done. }
  destruct (receive_option_texts_run qid texts k1 Htmp) as (k2 & Hrun2 & Hs2 & Ht2 & Hn2 & Hd2).
  simpl in Hs2, Hn2.
  eexists. split.
  { unfold mbind, Owner_bind. rewrite Hrun1, Hrun2.
    unfold receive_correct_index. ounfold. rewrite decide_True by done. simpl.
    rewrite Hn2, decide_False by lia. rewrite Ht2. reflexivity. }
  simpl.
  assert (options (set_is_correct 1 (Some qid) (Some (i - 1)) (store (world_of k2))) =
            options (store (world_of k)) ++ numbered_options qid (i - 1) (strip <$> texts))
    as Hopts.
  { apply mark_correct; [done|]. by rewrite Hs2. }
  assert (options_for_question (set_is_correct 1 (Some qid) (Some (i - 1)) (store (world_of k2)))
            qid = numbered_options qid (i - 1) (strip <$> texts)) as Hread.
  { unfold options_for_question. rewrite Hopts. apply read_own.
    - done.
    - apply numbered_options_owner.
    - apply numbered_options_sorted. }
  split_and!; try done.
  - unfold correct_options. rewrite Hread. apply numbered_options_correct.
    rewrite length_fmap. lia.
  - intros q Hq. unfold options_for_question. rewrite Hopts. apply read_other.
    eapply Forall_impl; [apply numbered_options_owner|]. simpl.
    intros o Hown Heq. apply Hq. by rewrite <- Heq, Hown.
  - by rewrite Hs2.
Qed.

Lemma m_opts_text_run qid n i text k :
  fsm_data k !! "n" = Some (Some n) →
  fsm_data k !! "i" = Some (Some i) →
  fsm_data k !! "question_id" = Some (Some qid) →
  ∃ k',
    m_opts_text OWNER_ID text k = (Done (), k') ∧
    store (world_of k') =
      set_options
        ((if decide (i = 0)
          then filter (λ o, o_question_id o ≠ qid) (options (store (world_of k)))
          else options (store (world_of k))) ++
         [ {| o_question_id := qid; o_option_index := i;
              o_text := strip text; o_is_correct := 0 |} ]) (store (world_of k)) ∧
    fsm_data k' = <["i" := Some (i + 1)]> (fsm_data k).
Proof.
  intros Hn Hi Hq. unfold m_opts_text. ounfold. ounfold. rewrite decide_True by done. simpl.
  rewrite Hn, Hi, Hq. simpl.
  unfold insert_option, execute, delete_options.
  destruct (decide (i = 0)) as [->|Hne]; simpl.
  - case_decide; simpl; eexists; (split; [reflexivity|]); simpl; by split_and!.
  - case_decide; simpl; eexists; (split; [reflexivity|]); simpl; split; try done;
      by destruct (store (world_of k)).
Qed.

Lemma m_opts_texts_run qid n i texts k :
  0 < i →
  fsm_data k !! "n" = Some (Some n) →
  fsm_data k !! "i" = Some (Some i) →
  fsm_data k !! "question_id" = Some (Some qid) →
  ∃ k',
    for_each_message texts (m_opts_text OWNER_ID) k = (Done (), k') ∧
    store (world_of k') =
      set_options
        (options (store (world_of k)) ++
         imap (λ j t, {| o_question_id := qid; o_option_index := i + Z.of_nat j;
                         o_text := strip t; o_is_correct := 0 |}) texts)
        (store (world_of k)) ∧
    fsm_data k' !! "n" = Some (Some n) ∧
    fsm_data k' !! "question_id" = Some (Some qid).
Proof.
  revert i k. induction texts as [|t texts IH]; intros i k Hpos Hn Hi Hq.
  { exists k. simpl. rewrite app_nil_r. split_and!; try done. by destruct (store (world_of k)). }
  destruct (m_opts_text_run qid n i t k Hn Hi Hq) as (k1 & Hrun1 & Hs1 & Hd1).
  rewrite decide_False in Hs1 by lia.
  destruct (IH (i + 1) k1) as (k' & Hrun & Hs & Hn' & Hq').
  { lia. }
  { rewrite Hd1, lookup_insert_ne; done. }
  { rewrite Hd1. apply lookup_insert_eq. }
  { rewrite Hd1, lookup_insert_ne; done. }
  exists k'. split.
  { simpl. unfold mbind, Owner_bind. by rewrite Hrun1. }
  split_and!; try done.
  rewrite Hs, Hs1. unfold set_options. simpl. f_equal. rewrite <- app_assoc. f_equal.
  apply (imap_shift (λ c t, {| o_question_id := qid; o_option_index := c;
                               o_text := strip t; o_is_correct := 0 |})).
Qed.

(** Setting [is_correct] to 0 where it is 0. *)
Lemma unmark_unmarked qid l :
  Forall (λ o, o_question_id o = qid → o_is_correct o = 0) l →
  (λ o, if decide (Some (o_question_id o) = Some qid ∧
                   (@None Z = None ∨ Some (o_option_index o) = None))
        then {| o_question_id := o_question_id o; o_option_index := o_option_index o;
                o_text := o_text o; o_is_correct := 0 |}
        else o) <$> l = l.
Proof.
  intros Hl. rewrite <- (list_fmap_id l) at 2. apply Forall_fmap_ext_1.
  eapply Forall_impl; [exact Hl|]. simpl. intros o Ho.
  case_decide as Hd; [|done]. destruct Hd as [[= Hq] _].
  destruct o as [a b c e]. simpl in *. by rewrite (Ho Hq).
Qed.

(** X14.  New options for an old question: after the owner has opened
    the options of a question, given a number between 2 and 10, that many
    texts, and the number of the correct one, the question has exactly the
    new options, stripped, numbered from 0, with exactly the chosen one
    marked; the options it had are gone, the options of the other
    questions are as they were, and the conversation is cleared. *)
Theorem edited_options_replace_old quiz_id qid page n texts c k :
  2 ≤ n ≤ 10 → Z.of_nat (length texts) = n → 1 ≤ c ≤ n →
  ∃ k',
    (cb_m_edit_opts quiz_id qid page;;
     m_opts_count OWNER_ID (Some n);;
     for_each_message texts (m_opts_text OWNER_ID);;
     m_opts_correct OWNER_ID (Some c)) k = (Done (), k') ∧
    let d := store (world_of k) in
    let d' := store (world_of k') in
    options d' =
      filter (λ o, o_question_id o ≠ qid) (options d) ++
      numbered_options qid (c - 1) (strip <$> texts) ∧
    options_for_question d' qid = numbered_options qid (c - 1) (strip <$> texts) ∧
    length (correct_options d' qid) = 1%nat ∧
    (∀ q, q ≠ qid → options_for_question d' q = options_for_question d q) ∧
    questions d' = questions d ∧ responses d' = responses d ∧
    fsm_state k' = None ∧ fsm_data k' = ∅.
Proof.
  intros Hn Hlen Hc.
  destruct texts as [|t0 texts]; [simpl in Hlen; lia|].
  set (data1 := <["i" := Some 0]> (<["n" := Some n]> (<["page" := Some page]>
                  (<["question_id" := Some qid]> (<["quiz_id" := Some quiz_id]> (fsm_data k)))))).
  set (k1 := {| world_of := world_of k; build_session := build_session k;
                fsm_state := Some "EditOptionStates:waiting_text";
                fsm_data := data1;
                screen := (screen k ++ [EditMessage NoteAskNewCount NoMarkup]) ++
                          [Answer (NoteAskNewOption 1) OwnerPanel] |}).
  assert ((cb_m_edit_opts quiz_id qid page;; m_opts_count OWNER_ID (Some n)) k = (Done (), k1))
    as Hrun1.
  { unfold cb_m_edit_opts, m_opts_count. ounfold. simpl. rewrite decide_True by done. simpl.
    rewrite decide_False by lia. done. }
  assert (data1 !! "n" = Some (Some n)) as Hdn.
  { unfold data1. rewrite lookup_insert_ne by done. apply lookup_insert_eq. }
  assert (data1 !! "i" = Some (Some 0)) as Hdi by apply lookup_insert_eq.
  assert (data1 !! "question_id" = Some (Some qid)) as Hdq.
  { unfold data1. rewrite !lookup_insert_ne by done. apply lookup_insert_eq. }
  destruct (m_opts_text_run qid n 0 t0 k1 Hdn Hdi Hdq) as (k2 & Hrun2 & Hs2 & Hd2).
  rewrite decide_True in Hs2 by done. simpl in Hs2.
  destruct (m_opts_texts_run qid n 1 texts k2) as (k3 & Hrun3 & Hs3 & Hn3 & Hq3).
  { lia. }
  { rewrite Hd2, lookup_insert_ne; done. }
  { rewrite Hd2. apply lookup_insert_eq. }
  { rewrite Hd2, lookup_insert_ne; done. }
  set (old := filter (λ o, o_question_id o ≠ qid) (options (store (world_of k)))) in *.
  assert (options (store (world_of k3)) =
            old ++ imap (λ j t, {| o_question_id := qid; o_option_index := 0 + Z.of_nat j;
                                   o_text := strip t; o_is_correct := 0 |}) (t0 :: texts))
    as Hrows.
  { rewrite Hs3, Hs2. simpl. rewrite <- app_assoc. f_equal.
    apply (imap_shift (λ c t, {| o_question_id := qid; o_option_index := c;
                                 o_text := strip t; o_is_correct := 0 |}) 0). }
  assert (Forall (λ o, o_question_id o ≠ qid) old) as Hold.
  { apply Forall_forall. by intros o [? _]%list_elem_of_filter. }
  eexists. split.
  { change ((cb_m_edit_opts quiz_id qid page;; m_opts_count OWNER_ID (Some n);;
             for_each_message (t0 :: texts) (m_opts_text OWNER_ID);;
             m_opts_correct OWNER_ID (Some c)) k)
      with (match (cb_m_edit_opts quiz_id qid page;; m_opts_count OWNER_ID (Some n)) k with
            | (Done _, k1) =>
                (for_each_message (t0 :: texts) (m_opts_text OWNER_ID);;
                 m_opts_correct OWNER_ID (Some c)) k1
            | (Crashed e, k1) => (Crashed e, k1)
            end).
    rewrite Hrun1. simpl. unfold mbind, Owner_bind. rewrite Hrun2, Hrun3.
    unfold m_opts_correct. ounfold. ounfold. rewrite decide_True by done. simpl.
    rewrite Hn3, Hq3. simpl. rewrite decide_False by lia. reflexivity. }
  simpl.
  set (d3 := set_is_correct 0 (Some qid) None (store (world_of k3))).
  assert (options d3 = options (store (world_of k3))) as Hd3.
  { unfold d3, set_is_correct. simpl. apply unmark_unmarked. rewrite Hrows.
    apply Forall_app. split.
    - eapply Forall_impl; [exact Hold|]. simpl. done.
    - apply Forall_forall. intros o Ho. apply elem_of_lookup_imap_1 in Ho as (j & t & -> & _).
      done. }
  assert (options (set_is_correct 1 (Some qid) (Some (c - 1)) d3) =
            old ++ numbered_options qid (c - 1) (strip <$> (t0 :: texts))) as Hopts.
  { apply mark_correct; [done|]. by rewrite Hd3. }
  assert (options_for_question (set_is_correct 1 (Some qid) (Some (c - 1)) d3) qid
          = numbered_options qid (c - 1) (strip <$> (t0 :: texts))) as Hread.
  { unfold options_for_question. rewrite Hopts. apply read_own.
    - done.
    - apply numbered_options_owner.
    - apply numbered_options_sorted. }
  split_and!; try done.
  - unfold correct_options. rewrite Hread. apply numbered_options_correct.
    rewrite length_fmap. lia.
  - intros q Hq. unfold options_for_question. rewrite Hopts.
    rewrite read_other.
    2:{ eapply Forall_impl; [apply numbered_options_owner|]. simpl.
        intros o Hown Heq. apply Hq. by rewrite <- Heq, Hown. }
    f_equal. unfold old. rewrite list_filter_filter. apply list_filter_iff.
    intros o. split; [by intros [? _]|]. intros Ho. split; [done|]. congruence.
  - unfold d3. simpl. by rewrite Hs3, Hs2.
  - unfold d3. simpl. by rewrite Hs3, Hs2.
Qed.

(** ** The owner's side: collecting attachments

    Three handlers collect files one message at a time, for a new
    question, for a bundle and for the replacement of the attachments of a
    question.  Each keeps a counter and refuses a file once it is at 5. *)

Lemma take_take_app {A} (n : nat) (l r : list A) :
  take n (take n l ++ r) = take n (l ++ r).
Proof.
  destruct (decide (length l ≤ n)%nat) as [Hle|Hgt].
  - by rewrite (take_ge l) by done.
  - rewrite !take_app_le by (rewrite ?length_take; lia).
    by rewrite take_take, Nat.min_id.
Qed.

Lemma omap_cons_app {A B} (f : A → option B) x l :
  omap f (x :: l) = option_list (f x) ++ omap f l.
Proof. simpl. by destruct (f x). Qed.

Lemma collect_loop (h : media → Owner unit) (I : list (string * string) → desk → Prop)
    (cap : nat) :
  (∀ acc m k, I acc k → (length acc ≤ cap)%nat →
     ∃ k', h m k = (Done (), k') ∧ I (take cap (acc ++ option_list (kind_and_file m))) k') →
  ∀ files acc k, I acc k → (length acc ≤ cap)%nat →
    ∃ k', for_each_message files h k = (Done (), k') ∧
          I (take cap (acc ++ omap kind_and_file files)) k'.
Proof.
  intros Hstep files. induction files as [|m files IH]; intros acc k HI Hlen.
  { exists k. split; [done|]. simpl. by rewrite app_nil_r, take_ge. }
  destruct (Hstep acc m k HI Hlen) as (k1 & Hrun1 & HI1).
  destruct (IH _ k1 HI1) as (k' & Hrun & HI').
  { rewrite length_take. lia. }
  exists k'. split.
  - simpl. unfold mbind, Owner_bind. by rewrite Hrun1.
  - by rewrite take_take_app, <- app_assoc, <- omap_cons_app in HI'.
Qed.

Lemma attachments_from_snoc qid p acc kind fid :
  attachments_from qid p (acc ++ [(kind, fid)]) =
  attachments_from qid p acc ++
  [ {| att_owner := qid; att_kind := kind; att_file_id := fid;
       att_position := p + Z.of_nat (length acc) |} ].
Proof.
  unfold attachments_from, enumerate. rewrite imap_app, fmap_app. simpl.
  by rewrite Nat.add_0_r.
Qed.

Lemma attachments_from_0 qid acc : attachments_from qid 0 acc = numbered_attachments qid acc.
Proof.
  unfold attachments_from, numbered_attachments. apply list_fmap_ext.
  by intros i [pos [kind fid]] _.
Qed.

Lemma attachments_from_owner qid p acc :
  Forall (λ a, att_owner a = qid) (attachments_from qid p acc).
Proof.
  unfold attachments_from. apply Forall_fmap, Forall_forall. by intros [pos [kind fid]] _.
Qed.

(** Accepting one more file, or none, below the cap. *)
Lemma take_accept {A} (cap : nat) (acc : list A) (o : option A) :
  (length acc ≤ cap)%nat →
  take cap (acc ++ option_list o) =
  if decide (length acc < cap)%nat then acc ++ option_list o else acc.
Proof.
  intros Hle. case_decide.
  - apply take_ge. rewrite length_app. destruct o; simpl; lia.
  - rewrite take_app_le by lia. by apply take_ge.
Qed.

Lemma numbered_attachments_snoc qid acc kind fid :
  numbered_attachments qid (acc ++ [(kind, fid)]) =
  numbered_attachments qid acc ++
  [ {| att_owner := qid; att_kind := kind; att_file_id := fid;
       att_position := Z.of_nat (length acc) |} ].
Proof. rewrite <- !attachments_from_0. apply attachments_from_snoc. Qed.


Lemma Owner_seq_assoc (m1 m2 m3 : Owner unit) k :
  (m1;; m2;; m3) k = ((m1;; m2);; m3) k.
Proof. unfold mbind, Owner_bind. by destruct (m1 k) as [[[]|] ?]. Qed.



Lemma bundle_add_file_run b d0 acc m k :
  fsm_data k !! "bundle_id" = Some (Some b) →
  fsm_data k !! "bundle_pos" = Some (Some (Z.of_nat (length acc))) →
  store (world_of k) =
    set_media_bundle_attachments
      (media_bundle_attachments d0 ++ numbered_attachments b acc) d0 →
  (length acc ≤ 5)%nat →
  ∃ k',
    bundle_add_file OWNER_ID m k = (Done (), k') ∧
    let acc' := take 5 (acc ++ option_list (kind_and_file m)) in
    fsm_data k' !! "bundle_id" = Some (Some b) ∧
    fsm_data k' !! "bundle_pos" = Some (Some (Z.of_nat (length acc'))) ∧
    store (world_of k') =
      set_media_bundle_attachments
        (media_bundle_attachments d0 ++ numbered_attachments b acc') d0.
Proof.
  intros Hb Hpos Hstore Hlen. rewrite take_accept by done.
  unfold bundle_add_file. ounfold. ounfold. rewrite decide_True by done. simpl.
  rewrite Hpos. simpl.
  destruct (decide (5 ≤ Z.of_nat (length acc))) as [Hfull|Hroom].
  { rewrite decide_False by lia. eexists. split; [reflexivity|]. simpl. by split_and!. }
  rewrite decide_True by lia.
  destruct (kind_and_file m) as [[kind fid]|]; simpl.
  2:{ eexists. split; [reflexivity|]. simpl. rewrite app_nil_r. by split_and!. }
  rewrite Hb. unfold insert_bundle_attachment, execute. simpl.
  eexists. split; [reflexivity|]. simpl. split_and!.
  - by rewrite lookup_insert_ne.
  - rewrite lookup_insert_eq, length_app. simpl. do 2 f_equal. lia.
  - rewrite Hstore, numbered_attachments_snoc. simpl.
    unfold set_media_bundle_attachments. simpl. f_equal. by rewrite <- app_assoc.
Qed.

(** X16.  A new bundle: [bundles_for_quiz] makes a bundle with a fresh id
    for the quiz; of the files sent after that, the first five that are a
    photo, a voice note or an audio file are its files, at the positions 0
    to 4 in the order sent, and every further file is refused.  The other
    bundles keep their files, and no question or attachment of a question
    changes. *)
Theorem new_bundle_takes_five_files quiz_id files k :
  Forall (λ a, att_owner a ≤ bbound (store (world_of k)))
    (media_bundle_attachments (store (world_of k))) →
  ∃ k',
    (bundles_for_quiz quiz_id;;
     for_each_message files (bundle_add_file OWNER_ID)) k = (Done (), k') ∧
    let d := store (world_of k) in
    let d' := store (world_of k') in
    let b := bbound d + 1 in
    media_bundles d' =
      media_bundles d ++
      [ {| b_id := b; b_quiz_id := quiz_id;
           b_created_at := isoformat (clock (ticks (world_of k))) |} ] ∧
    get_bundle_atts d' b = numbered_attachments b (take 5 (omap kind_and_file files)) ∧
    (length (get_bundle_atts d' b) ≤ 5)%nat ∧
    (∀ b', b' ≠ b → get_bundle_atts d' b' = get_bundle_atts d b') ∧
    questions d' = questions d ∧
    question_attachments d' = question_attachments d.
Proof.
  intros Hown.
  set (d := store (world_of k)) in *. set (b := bbound d + 1).
  set (d1 := set_media_bundles
               (media_bundles d ++
                [ {| b_id := b; b_quiz_id := quiz_id;
                     b_created_at := isoformat (clock (ticks (world_of k))) |} ]) b d).
  assert (∃ k1, bundles_for_quiz quiz_id k = (Done (), k1) ∧
                fsm_data k1 !! "bundle_id" = Some (Some b) ∧
                fsm_data k1 !! "bundle_pos" = Some (Some 0) ∧
                store (world_of k1) = d1) as (k1 & Hrun1 & Hb1 & Hpos1 & Hstore1).
  { unfold bundles_for_quiz, insert_media_bundle. ounfold. munfold. simpl.
    eexists. split; [reflexivity|]. simpl. split_and!.
    - apply lookup_insert_eq.
    - rewrite !lookup_insert_ne by done. apply lookup_insert_eq.
    - done. }
  destruct (collect_loop (bundle_add_file OWNER_ID)
              (λ acc k',
                 fsm_data k' !! "bundle_id" = Some (Some b) ∧
                 fsm_data k' !! "bundle_pos" = Some (Some (Z.of_nat (length acc))) ∧
                 store (world_of k') =
                   set_media_bundle_attachments
                     (media_bundle_attachments d1 ++ numbered_attachments b acc) d1) 5)
    with (files := files) (acc := @nil (string * string)) (k := k1)
    as (k' & Hrun & _ & _ & Hstore).
  { intros acc m k2 (Hb2 & Hp2 & Hs2) Hlen.
    destruct (bundle_add_file_run b d1 acc m k2 Hb2 Hp2 Hs2 Hlen) as (k3 & Hrun3 & ?).
    by exists k3. }
  { split_and!; [done|done|]. simpl. rewrite app_nil_r, Hstore1. done. }
  { simpl. lia. }
  simpl in Hstore.
  exists k'. split.
  { unfold mbind, Owner_bind. by rewrite Hrun1. }
  simpl. fold d. fold b.
  assert (get_bundle_atts (store (world_of k')) b
          = numbered_attachments b (take 5 (omap kind_and_file files))) as Hread.
  { rewrite Hstore. unfold get_bundle_atts. simpl. apply read_own.
    - eapply Forall_impl; [exact Hown|]. simpl. unfold b. lia.
    - apply numbered_attachments_owner.
    - apply numbered_attachments_sorted. }
  split_and!; try done.
  - by rewrite Hstore.
  - rewrite Hread, length_numbered_attachments, length_take. lia.
  - intros b' Hb'. rewrite Hstore. unfold get_bundle_atts. simpl.
    apply read_other. eapply Forall_impl; [apply numbered_attachments_owner|]. simpl.
    intros a Ha. by rewrite Ha.
  - by rewrite Hstore.
  - by rewrite Hstore.
Qed.

Lemma delete_question_attachments_base qid base d0 :
  Forall (λ a, att_owner a ≠ qid) base →
  delete_question_attachments qid (set_question_attachments base d0) =
  set_question_attachments base d0.
Proof.
  intros Hbase. unfold delete_question_attachments, set_question_attachments. simpl.
  f_equal. by apply filter_all.
Qed.

Lemma ch_media_collect_run qid p base d0 acc m k :
  fsm_data k !! "question_id" = Some (Some qid) →
  0 ≤ p →
  (fsm_data k !! "pos" = Some (Some (p + Z.of_nat (length acc))) ∨
   (fsm_data k !! "pos" = None ∧ p = 0 ∧ acc = [])) →
  (store (world_of k) = set_question_attachments (base ++ attachments_from qid p acc) d0 ∨
   (p = 0 ∧ acc = [] ∧ store (world_of k) = d0 ∧
    base = filter (λ a, att_owner a ≠ qid) (question_attachments d0))) →
  (p = 0 → Forall (λ a, att_owner a ≠ qid) base) →
  (length acc ≤ Z.to_nat (5 - p))%nat →
  ∃ k',
    ch_media_collect OWNER_ID m k = (Done (), k') ∧
    let acc' := take (Z.to_nat (5 - p)) (acc ++ option_list (kind_and_file m)) in
    fsm_data k' !! "question_id" = Some (Some qid) ∧
    (fsm_data k' !! "pos" = Some (Some (p + Z.of_nat (length acc'))) ∨
     (fsm_data k' !! "pos" = None ∧ p = 0 ∧ acc' = [])) ∧
    store (world_of k') = set_question_attachments (base ++ attachments_from qid p acc') d0.
Proof.
  intros Hq Hp Hpos Hstore Hbase Hlen. rewrite take_accept by done.
  assert (int_item_or_0 (fsm_data k) "pos" k = (Done (p + Z.of_nat (length acc)), k)) as Hread.
  { unfold int_item_or_0. destruct Hpos as [-> | (-> & -> & ->)]; done. }
  assert (∃ d1, d1 = (if decide (p + Z.of_nat (length acc) = 0)
                      then delete_question_attachments qid (store (world_of k))
                      else store (world_of k)) ∧
                d1 = set_question_attachments (base ++ attachments_from qid p acc) d0)
    as (d1 & Hd1 & Hd1').
  { eexists. split; [reflexivity|]. case_decide as Hz.
    - assert (p = 0) as -> by lia. assert (acc = []) as -> by (destruct acc; simpl in *; [done|lia]).
      simpl. rewrite app_nil_r. destruct Hstore as [-> | (_ & _ & -> & ->)].
      + simpl. rewrite app_nil_r. apply delete_question_attachments_base. by apply Hbase.
      + done.
    - destruct Hstore as [-> | (-> & -> & _)]; [done|]. simpl in Hz. lia. }
  unfold ch_media_collect.
  unfold at_desk, mbind, Owner_bind, mret, Owner_ret, ensure_owner, get_data, int_item, item.
  rewrite decide_True by done. simpl. rewrite Hq. simpl. rewrite Hread.
  destruct (decide (5 ≤ p + Z.of_nat (length acc))) as [Hfull|Hroom].
  { rewrite (decide_False (P := (length acc < Z.to_nat (5 - p))%nat)) by lia.
    assert (p + Z.of_nat (length acc) ≠ 0) as Hnz by lia.
    rewrite decide_False in Hd1 by done.
    rewrite (decide_False (P := p + Z.of_nat (length acc) = 0)) by done.
    unfold show, mbind, Owner_bind, mret, Owner_ret. simpl.
    eexists. split; [reflexivity|]. simpl. split_and!; [done| |by rewrite <- Hd1].
    destruct Hpos as [Hpos | (_ & -> & ->)]; [by left|]. simpl in Hnz. done. }
  rewrite (decide_True (P := (length acc < Z.to_nat (5 - p))%nat)) by lia.
  assert (∀ k0 : desk,
            (if decide (p + Z.of_nat (length acc) = 0)
             then sql (delete_question_attachments qid) else mret ()) k0 =
            (Done (), with_world
                        (with_store
                           (if decide (p + Z.of_nat (length acc) = 0)
                            then delete_question_attachments qid (store (world_of k0))
                            else store (world_of k0)) (world_of k0)) k0)) as Hdel.
  { intros k0. case_decide; [done|]. unfold mret, Owner_ret, with_world, with_store.
    by destruct k0 as [[] ? ? ? ?]. }
  rewrite Hdel. simpl. rewrite <- Hd1.
  destruct (kind_and_file m) as [[kind fid]|]; simpl.
  - unfold insert_question_attachment, execute, lift, update_data, show, mbind, Owner_bind. simpl.
    eexists. split; [reflexivity|]. simpl. split_and!.
    + by rewrite lookup_insert_ne.
    + left. rewrite lookup_insert_eq, length_app. simpl. do 2 f_equal. lia.
    + rewrite Hd1', attachments_from_snoc. unfold set_question_attachments. simpl.
      f_equal. by rewrite <- app_assoc.
  - unfold show. simpl. eexists. split; [reflexivity|]. simpl. rewrite app_nil_r.
    split_and!; [done| |by rewrite Hd1'].
    destruct Hpos as [Hpos | (? & -> & ->)]; [by left|by right].
Qed.

Lemma Owner_seq_run (m1 m2 : Owner unit) k k1 :
  m1 k = (Done (), k1) → (m1;; m2) k = m2 k1.
Proof. intros H. unfold mbind, Owner_bind. by rewrite H. Qed.

(** The files of a replacement that goes on from the position [p]. *)
Lemma ch_media_collect_loop qid p base d0 files acc k :
  fsm_data k !! "question_id" = Some (Some qid) →
  0 ≤ p →
  (fsm_data k !! "pos" = Some (Some (p + Z.of_nat (length acc))) ∨
   (fsm_data k !! "pos" = None ∧ p = 0 ∧ acc = [])) →
  store (world_of k) = set_question_attachments (base ++ attachments_from qid p acc) d0 →
  (p = 0 → Forall (λ a, att_owner a ≠ qid) base) →
  (length acc ≤ Z.to_nat (5 - p))%nat →
  ∃ k',
    for_each_message files (ch_media_collect OWNER_ID) k = (Done (), k') ∧
    let acc' := take (Z.to_nat (5 - p)) (acc ++ omap kind_and_file files) in
    fsm_data k' !! "question_id" = Some (Some qid) ∧
    (fsm_data k' !! "pos" = Some (Some (p + Z.of_nat (length acc'))) ∨
     (fsm_data k' !! "pos" = None ∧ p = 0 ∧ acc' = [])) ∧
    store (world_of k') = set_question_attachments (base ++ attachments_from qid p acc') d0.
Proof.
  intros Hq Hp Hpos Hstore Hbase Hlen.
  apply (collect_loop (ch_media_collect OWNER_ID)
           (λ acc k,
              fsm_data k !! "question_id" = Some (Some qid) ∧
              (fsm_data k !! "pos" = Some (Some (p + Z.of_nat (length acc))) ∨
               (fsm_data k !! "pos" = None ∧ p = 0 ∧ acc = [])) ∧
              store (world_of k) =
                set_question_attachments (base ++ attachments_from qid p acc) d0)
           (Z.to_nat (5 - p))); [|done|done].
  intros acc0 m k0 (Hq0 & Hpos0 & Hstore0) Hlen0.
  apply (ch_media_collect_run qid p base d0 acc0 m k0); try done. by left.
Qed.

(** X17.  New attachments for an old question, in a conversation that has
    counted no attachment yet: with the first file that arrives the old
    attachments of the question are deleted, and of the files sent, the
    first five that are a photo, a voice note or an audio file are its
    attachments, at the positions 0 to 4 in the order sent.  The
    attachments of the other questions, the questions and the options stay
    as they are. *)
Theorem replaced_attachments quiz_id qid page files k :
  fsm_data k !! "pos" = None → files ≠ [] →
  ∃ k',
    (cb_m_edit_media quiz_id qid page;;
     for_each_message files (ch_media_collect OWNER_ID)) k = (Done (), k') ∧
    let d := store (world_of k) in
    let d' := store (world_of k') in
    question_attachments d' =
      filter (λ a, att_owner a ≠ qid) (question_attachments d) ++
      numbered_attachments qid (take 5 (omap kind_and_file files)) ∧
    get_question_atts d' qid = numbered_attachments qid (take 5 (omap kind_and_file files)) ∧
    (∀ q, q ≠ qid → get_question_atts d' q = get_question_atts d q) ∧
    questions d' = questions d ∧ options d' = options d.
Proof.
  intros Hfresh Hfiles. destruct files as [|m files]; [done|]. clear Hfiles.
  set (d := store (world_of k)).
  set (base := filter (λ a, att_owner a ≠ qid) (question_attachments d)).
  assert (Forall (λ a, att_owner a ≠ qid) base) as Hbase.
  { apply Forall_forall. by intros a [? _]%list_elem_of_filter. }
  assert (∃ k0, cb_m_edit_media quiz_id qid page k = (Done (), k0) ∧
                fsm_data k0 !! "question_id" = Some (Some qid) ∧
                fsm_data k0 !! "pos" = None ∧ store (world_of k0) = d)
    as (k0 & Hrun0 & Hq0 & Hpos0 & Hstore0).
  { unfold cb_m_edit_media. ounfold. simpl. eexists. split; [reflexivity|]. simpl.
    split_and!; [apply lookup_insert_eq|by rewrite lookup_insert_ne|done]. }
  destruct (ch_media_collect_run qid 0 base d [] m k0 Hq0 (Z.le_refl 0)
              (or_intror (conj Hpos0 (conj eq_refl eq_refl)))
              (or_intror (conj eq_refl (conj eq_refl (conj Hstore0 eq_refl))))
              (λ _, Hbase) (Nat.le_0_l _))
    as (k1 & Hrun1 & Hq1 & Hpos1 & Hstore1).
  change (Z.to_nat (5 - 0)) with 5%nat in *. simpl in Hq1, Hpos1, Hstore1.
  destruct (ch_media_collect_loop qid 0 base d files
              (take 5 (option_list (kind_and_file m))) k1)
    as (k' & Hrun & _ & _ & Hstore); try done.
  { rewrite length_take. lia. }
  change (Z.to_nat (5 - 0)) with 5%nat in *. simpl in Hstore.
  rewrite take_take_app, <- omap_cons_app, attachments_from_0 in Hstore.
  exists k'. split.
  { rewrite (Owner_seq_run _ _ _ _ Hrun0). simpl. by rewrite (Owner_seq_run _ _ _ _ Hrun1). }
  simpl. fold d. rewrite Hstore. simpl. split_and!; try done.
  - unfold get_question_atts. simpl. apply read_own.
    + done.
    + apply numbered_attachments_owner.
    + apply numbered_attachments_sorted.
  - intros q Hq. unfold get_question_atts. simpl. rewrite read_other.
    2:{ eapply Forall_impl; [apply numbered_attachments_owner|]. simpl.
        intros a Ha. by rewrite Ha. }
    f_equal. unfold base. rewrite list_filter_filter. apply list_filter_iff.
    intros a. split; [by intros [? _]|]. intros Ha. split; [done|]. congruence.
Qed.

(** X18.  A replacement that is not finished carries its count over: the
    count of the files is kept in the data of the conversation and only
    the end of the replacement clears it.  When the owner replaces the
    attachments of one question, and without ending that turns to the
    attachments of a second question, the second question keeps its old
    attachments, and its new files are stored behind the count of the
    first question, as long as the count is below 5. *)
Theorem unfinished_replacement_carries_over quiz1 q1 page1 files1 quiz2 q2 page2 files2 k :
  fsm_data k !! "pos" = None → q1 ≠ q2 →
  take 5 (omap kind_and_file files1) ≠ [] →
  ∃ k',
    (cb_m_edit_media quiz1 q1 page1;;
     for_each_message files1 (ch_media_collect OWNER_ID);;
     cb_m_edit_media quiz2 q2 page2;;
     for_each_message files2 (ch_media_collect OWNER_ID)) k = (Done (), k') ∧
    let d := store (world_of k) in
    let d' := store (world_of k') in
    let acc1 := take 5 (omap kind_and_file files1) in
    question_attachments d' =
      (filter (λ a, att_owner a ≠ q1) (question_attachments d) ++
       numbered_attachments q1 acc1) ++
      attachments_from q2 (Z.of_nat (length acc1))
        (take (5 - length acc1) (omap kind_and_file files2)) ∧
    (∀ a, a ∈ question_attachments d → att_owner a = q2 → a ∈ question_attachments d').
Proof.
  intros Hfresh Hne Hacc1.
  assert (files1 ≠ []) as Hfiles1 by (by intros ->).
  destruct files1 as [|m files1]; [done|]. clear Hfiles1.
  set (d := store (world_of k)).
  set (base := filter (λ a, att_owner a ≠ q1) (question_attachments d)).
  assert (Forall (λ a, att_owner a ≠ q1) base) as Hbase.
  { apply Forall_forall. by intros a [? _]%list_elem_of_filter. }
  assert (∃ k0, cb_m_edit_media quiz1 q1 page1 k = (Done (), k0) ∧
                fsm_data k0 !! "question_id" = Some (Some q1) ∧
                fsm_data k0 !! "pos" = None ∧ store (world_of k0) = d)
    as (k0 & Hrun0 & Hq0 & Hpos0 & Hstore0).
  { unfold cb_m_edit_media. ounfold. simpl. eexists. split; [reflexivity|]. simpl.
    split_and!; [apply lookup_insert_eq|by rewrite lookup_insert_ne|done]. }
  destruct (ch_media_collect_run q1 0 base d [] m k0 Hq0 (Z.le_refl 0)
              (or_intror (conj Hpos0 (conj eq_refl eq_refl)))
              (or_intror (conj eq_refl (conj eq_refl (conj Hstore0 eq_refl))))
              (λ _, Hbase) (Nat.le_0_l _))
    as (k1 & Hrun1 & Hq1 & Hpos1 & Hstore1).
  change (Z.to_nat (5 - 0)) with 5%nat in *. simpl in Hq1, Hpos1, Hstore1.
  destruct (ch_media_collect_loop q1 0 base d files1
              (take 5 (option_list (kind_and_file m))) k1)
    as (k2 & Hrun2 & _ & Hpos2 & Hstore2); try done.
  { rewrite length_take. lia. }
  change (Z.to_nat (5 - 0)) with 5%nat in *. simpl in Hpos2, Hstore2.
  rewrite take_take_app, <- omap_cons_app in Hpos2, Hstore2.
  rewrite attachments_from_0 in Hstore2.
  set (acc1 := take 5 (omap kind_and_file (m :: files1))) in *.
  destruct Hpos2 as [Hpos2 | (_ & _ & Hnil)]; [|done].
  assert (0 < Z.of_nat (length acc1)) as Hcount by (destruct acc1; simpl; [done|lia]).
  assert (length acc1 ≤ 5)%nat as Hcap by (unfold acc1; rewrite length_take; lia).
  set (d2 := store (world_of k2)) in *.
  assert (∃ k3, cb_m_edit_media quiz2 q2 page2 k2 = (Done (), k3) ∧
                fsm_data k3 !! "question_id" = Some (Some q2) ∧
                fsm_data k3 !! "pos" = Some (Some (Z.of_nat (length acc1))) ∧
                store (world_of k3) = d2)
    as (k3 & Hrun3 & Hq3 & Hpos3 & Hstore3).
  { unfold cb_m_edit_media. ounfold. simpl. eexists. split; [reflexivity|]. simpl.
    split_and!; [apply lookup_insert_eq|by rewrite lookup_insert_ne|done]. }
  destruct (ch_media_collect_loop q2 (Z.of_nat (length acc1)) (question_attachments d2) d2
              files2 [] k3)
    as (k' & Hrun & _ & _ & Hstore); try done.
  { lia. }
  { left. simpl. by rewrite Z.add_0_r. }
  { rewrite Hstore3. simpl. rewrite app_nil_r. unfold d2. by destruct (store (world_of k2)). }
  { lia. }
  { simpl. lia. }
  simpl in Hstore.
  replace (Z.to_nat (5 - Z.of_nat (length acc1))) with (5 - length acc1)%nat in Hstore by lia.
  exists k'. split.
  { rewrite (Owner_seq_run _ _ _ _ Hrun0). simpl. rewrite <- Owner_seq_assoc.
    rewrite (Owner_seq_run _ _ _ _ Hrun1), (Owner_seq_run _ _ _ _ Hrun2).
    by rewrite (Owner_seq_run _ _ _ _ Hrun3). }
  assert (question_attachments d2 = base ++ numbered_attachments q1 acc1) as Hqa
    by (by rewrite Hstore2).
  simpl. fold d. rewrite Hstore. simpl. rewrite Hqa. split; [done|].
  intros a Ha Hq2. apply elem_of_app. left. apply elem_of_app. left.
  apply list_elem_of_filter. split; [congruence|done].
Qed.

(** ** The owner's side: the text of a question *)

Lemma picked_quizzes_run picks k :
  ∃ k',
    for_each_message picks picked_quiz_for_addq k = (Done (), k') ∧
    world_of k' = world_of k ∧ fsm_data k' = fsm_data k.
Proof.
  revert k. induction picks as [|quiz picks IH]; intros k; [by exists k|].
  simpl. unfold mbind at 1. unfold Owner_bind at 1.
  unfold picked_quiz_for_addq at 1. ounfold. simpl.
  match goal with |- context [for_each_message picks _ ?k1] =>
    destruct (IH k1) as (k' & Hrun & Hw & Hd) end.
  exists k'. by rewrite Hrun, Hw, Hd.
Qed.

Lemma receive_q_text_edit_run qid text k :
  fsm_data k !! "question_id" = Some (Some qid) → qid ≠ 0 →
  ∃ k',
    receive_q_text OWNER_ID text k = (Done (), k') ∧
    store (world_of k') = update_question_text qid (strip text) (store (world_of k)) ∧
    fsm_state k' = None ∧ fsm_data k' = ∅.
Proof.
  intros Hq Hnz. unfold receive_q_text. ounfold. rewrite Hq. simpl.
  rewrite decide_False by done. rewrite decide_True by done. simpl.
  eexists. split; [reflexivity|]. done.
Qed.

(** X19.  A question id in the data of the conversation makes the next
    text an edit.  After the owner has opened the text, the options or the
    attachments of a question, the next text that [receive_q_text] gets
    from the owner becomes the text of that question, also when the owner
    has meanwhile picked a quiz to add a question to: no question is
    added, no other question and no other table changes, and the
    conversation is cleared. *)
Theorem question_id_in_data_makes_an_edit enter quiz_id qid page picks text k :
  enter ∈ [ cb_m_edit_text quiz_id qid page; cb_m_edit_opts quiz_id qid page;
            cb_m_edit_media quiz_id qid page ] →
  qid ≠ 0 →
  ∃ k',
    (enter;;
     for_each_message picks picked_quiz_for_addq;;
     receive_q_text OWNER_ID text) k = (Done (), k') ∧
    let d := store (world_of k) in
    let d' := store (world_of k') in
    d' = update_question_text qid (strip text) d ∧
    q_id <$> questions d' = q_id <$> questions d ∧
    (∀ q, q ∈ questions d' → q_id q = qid → q_text q = strip text) ∧
    (∀ q, q_id q ≠ qid → q ∈ questions d' ↔ q ∈ questions d) ∧
    fsm_state k' = None ∧ fsm_data k' = ∅.
Proof.
  intros Henter Hnz.
  assert (∃ k1, enter k = (Done (), k1) ∧ world_of k1 = world_of k ∧
                fsm_data k1 !! "question_id" = Some (Some qid))
    as (k1 & Hrun1 & Hw1 & Hq1).
  { apply elem_of_cons in Henter as [-> | Henter];
      [|apply elem_of_cons in Henter as [-> | Henter];
        [|apply list_elem_of_singleton in Henter as ->]].
    - unfold cb_m_edit_text. ounfold. simpl. eexists. split; [reflexivity|]. simpl.
      split; [done|]. rewrite lookup_insert_ne by done. apply lookup_insert_eq.
    - unfold cb_m_edit_opts. ounfold. simpl. eexists. split; [reflexivity|]. simpl.
      split; [done|]. rewrite lookup_insert_ne by done. apply lookup_insert_eq.
    - unfold cb_m_edit_media. ounfold. simpl. eexists. split; [reflexivity|]. simpl.
      split; [done|]. apply lookup_insert_eq. }
  destruct (picked_quizzes_run picks k1) as (k2 & Hrun2 & Hw2 & Hd2).
  destruct (receive_q_text_edit_run qid text k2) as (k' & Hrun & Hstore & Hstate & Hdata);
    [by rewrite Hd2|done|].
  exists k'. split.
  { by rewrite (Owner_seq_run _ _ _ _ Hrun1), (Owner_seq_run _ _ _ _ Hrun2). }
  simpl. rewrite Hstore, Hw2, Hw1. split_and!; try done.
  - simpl. rewrite <- list_fmap_compose. apply list_fmap_ext. intros i q _. simpl.
    by case_decide.
  - simpl. intros q (q0 & -> & Hq0)%list_elem_of_fmap. case_decide; simpl; [done|].
    by intros.
  - simpl. intros q Hq. rewrite list_elem_of_fmap. split.
    + intros (q0 & -> & Hq0). case_decide as Hc; [|done]. simpl in Hq. done.
    + intros Hin. exists q. by rewrite decide_False.
Qed.

(** ** The owner's side: deleting

    The tables that give ids are AUTOINCREMENT tables: an id that was
    handed out is not handed out again, whatever is deleted. *)

Lemma max_id_filter {A} (f : A → Z) (P : A → Prop) `{∀ x, Decision (P x)} l :
  max_id (f <$> filter P l) ≤ max_id (f <$> l).
Proof.
  induction l as [|x l IH]; [done|]. rewrite filter_cons.
  case_decide; rewrite !fmap_cons; cbn [max_id foldr]; fold (max_id (f <$> l));
    try fold (max_id (f <$> filter P l)); lia.
Qed.

Lemma receive_title_run title k :
  let d := store (world_of k) in
  let id := zbound d + 1 in
  ∃ k',
    receive_title OWNER_ID title k = (Done (), k') ∧
    bs_quiz_id (build_session k') = Some id ∧
    store (world_of k') =
      set_quizzes
        (quizzes d ++
         [ {| qz_id := id; qz_title := strip title; qz_created_by := OWNER_ID;
              qz_created_at := isoformat (clock (ticks (world_of k)));
              qz_is_archived := 0 |} ]) id d ∧
    pending_names (world_of k') = pending_names (world_of k) ∧
    fsm_state k' = None ∧ fsm_data k' = ∅.
Proof.
  intros d id. unfold receive_title, insert_quiz. ounfold. munfold.
  rewrite decide_True by done. simpl. fold d. fold (zbound d). fold id.
  eexists. split; [reflexivity|]. done.
Qed.

(** X20.  Deleting a quiz deletes the row of the quiz and nothing else:
    its questions, their options and attachments, its bundles and the
    recorded answers stay in their tables.  The id is not handed out again:
    the quiz that the owner creates next gets a larger id and has no
    question, so it does not take over what the deleted quiz has left. *)
Theorem deleted_quiz_leaves_its_questions quiz_id title k :
  quiz_id ≤ zbound (store (world_of k)) →
  Forall (λ q, q_quiz_id q ≤ zbound (store (world_of k))) (questions (store (world_of k))) →
  ∃ k',
    (cb_del_quiz_do quiz_id;; receive_title OWNER_ID title) k = (Done (), k') ∧
    let d := store (world_of k) in
    let d' := store (world_of k') in
    let id := zbound d + 1 in
    bs_quiz_id (build_session k') = Some id ∧
    quizzes d' =
      filter (λ z, qz_id z ≠ quiz_id) (quizzes d) ++
      [ {| qz_id := id; qz_title := strip title; qz_created_by := OWNER_ID;
           qz_created_at := isoformat (clock (ticks (world_of k)));
           qz_is_archived := 0 |} ] ∧
    quiz_by_id d' quiz_id = None ∧
    questions d' = questions d ∧ options d' = options d ∧
    question_attachments d' = question_attachments d ∧
    media_bundles d' = media_bundles d ∧
    media_bundle_attachments d' = media_bundle_attachments d ∧
    responses d' = responses d ∧ participant_names d' = participant_names d ∧
    get_quiz_question_ids d' quiz_id = get_quiz_question_ids d quiz_id ∧
    get_quiz_question_ids d' id = [].
Proof.
  intros Hquiz Hrefs.
  set (d := store (world_of k)) in *.
  assert (∃ k1, cb_del_quiz_do quiz_id k = (Done (), k1) ∧
                store (world_of k1) = delete_quiz quiz_id d ∧
                ticks (world_of k1) = ticks (world_of k))
    as (k1 & Hrun1 & Hstore1 & Hticks1).
  { unfold cb_del_quiz_do. ounfold. simpl. eexists. split; [reflexivity|]. done. }
  destruct (receive_title_run title k1) as (k' & Hrun & Hbs & Hstore & _).
  assert (zbound (delete_quiz quiz_id d) = zbound d) as Hbound.
  { unfold zbound at 1. simpl.
    pose proof (max_id_filter qz_id (λ z, qz_id z ≠ quiz_id) (quizzes d)).
    unfold zbound in *. lia. }
  rewrite Hstore1, Hbound, Hticks1 in Hstore. rewrite Hstore1, Hbound in Hbs.
  exists k'. split; [by rewrite (Owner_seq_run _ _ _ _ Hrun1)|].
  simpl. fold d. rewrite Hstore. simpl. split_and!; try done.
  - unfold quiz_by_id. simpl. rewrite filter_app, list_filter_filter.
    rewrite (filter_none (λ z, qz_id z = quiz_id ∧ qz_id z ≠ quiz_id)).
    2:{ apply Forall_forall. by intros z _ [? ?]. }
    rewrite filter_cons, decide_False by (simpl; lia). done.
  - unfold get_quiz_question_ids, questions_of_quiz. simpl.
    rewrite (filter_none (λ q, q_quiz_id q = zbound d + 1)); [done|].
    eapply Forall_impl; [exact Hrefs|]. simpl. intros q Hq. lia.
Qed.

End Engine.

(** * The claims on the sample store *)

Ltac by_evaluation := apply (bool_decide_unpack _); vm_compute; exact I.

(** C1, witness: user 5 repeats the answer to question 1 in chat 100. *)
Lemma answer_already_recorded_witness :
  responses_unique (store sample_answered) ∧
  is_Some (response_of (store sample_answered) 100 5 1) ∧
  let w' := exec (on_answer sample_clock sample_isoformat sample_fromisoformat
                    "" "" "" "" 100 5 1 1 0) sample_answered in
  store w' = store sample_answered ∧ journal w' = journal sample_answered ∧
  (passes_gates sample_clock sample_fromisoformat sample_answered 100 5 1 0 →
   outbox w' = outbox sample_answered ++ [CbAnswer PopAlreadyAnswered true] ∧
   pending_names w' = pending_names sample_answered) ∧
  responses_unique
    (store (run sample_clock sample_isoformat sample_fromisoformat sample_strip
              "" "" "" "" [EvAnswer 100 5 2 1 0; EvAnswer 100 5 2 0 0] sample_answered)).
Proof.
  assert (responses_unique (store sample_answered)) as Hu
    by (unfold responses_unique; by_evaluation).
  assert (is_Some (response_of (store sample_answered) 100 5 1)) as Hr by by_evaluation.
  split; [exact Hu|]. split; [exact Hr|].
  exact (answer_already_recorded sample_clock sample_isoformat sample_fromisoformat
           sample_strip "" "" "" "" 100 5 1 1 0 sample_answered
           [EvAnswer 100 5 2 1 0; EvAnswer 100 5 2 0 0] Hu Hr).
Defined.

(** C1, counterexample to the claim as it was stated: the response exists,
    the session is expired, and the event is rejected as expired, not as
    already answered. *)
Lemma answer_on_expired_session :
  is_Some (response_of (store sample_expired) 100 5 1) ∧
  outbox (exec (on_answer sample_clock sample_isoformat sample_fromisoformat
                  "" "" "" "" 100 5 1 1 0) sample_expired)
  = [CbAnswer PopExpiredAnswer true].
Proof. split; [by_evaluation | vm_compute; reflexivity]. Qed.

(** C2, witness: user 5 answers both questions of quiz 1 in chat 100. *)
Lemma completion_exactly_once_witness :
  questions_pk (store sample_world) ∧
  responses_graded (store sample_world) ∧
  (answered_cnt (store sample_world) 100 5 (get_quiz_question_ids (store sample_world) 1)
   < length (get_quiz_question_ids (store sample_world) 1))%nat ∧
  let q_ids := get_quiz_question_ids (store sample_world) 1 in
  let w' := run sample_clock sample_isoformat sample_fromisoformat sample_strip
              "" "" "" "" [EvAnswer 100 5 1 0 0; EvAnswer 100 5 2 0 0] sample_world in
  let completed := answered_cnt (store w') 100 5 q_ids = length q_ids in
  finish_writes 100 5 1 (journal w') =
    (finish_writes 100 5 1 (journal sample_world) + if decide completed then 1 else 0)%nat ∧
  final_results 100 5 1 (outbox w') =
    final_results 100 5 1 (outbox sample_world) ++
    (if decide completed
     then [(Z.of_nat (length (correct_responses (store w') 100 5 q_ids)), length q_ids)]
     else []).
Proof.
  assert (questions_pk (store sample_world)) as Hpk by (unfold questions_pk; by_evaluation).
  assert (responses_graded (store sample_world)) as Hg by (unfold responses_graded; by_evaluation).
  assert (answered_cnt (store sample_world) 100 5 (get_quiz_question_ids (store sample_world) 1)
          < length (get_quiz_question_ids (store sample_world) 1))%nat as Hlt
    by (vm_compute; lia).
  split; [exact Hpk|]. split; [exact Hg|]. split; [exact Hlt|].
  exact (completion_exactly_once sample_clock sample_isoformat sample_fromisoformat
           sample_strip "" "" "" "" 100 5 1
           [EvAnswer 100 5 1 0 0; EvAnswer 100 5 2 0 0] sample_world Hpk Hg Hlt).
Defined.

(** The run of that witness: one right and one wrong answer, one write of
    [finished_at], one final result, 1 out of 2. *)
Example completion_on_sample :
  let w' := run sample_clock sample_isoformat sample_fromisoformat sample_strip
              "" "" "" "" [EvAnswer 100 5 1 0 0; EvAnswer 100 5 2 0 0] sample_world in
  finish_writes 100 5 1 (journal w') = 1%nat ∧
  final_results 100 5 1 (outbox w') = [(1, 2%nat)].
Proof. vm_compute. done. Qed.

(** C6, witness: user 6, who has no name yet, begins quiz 1 in chat 100. *)
Lemma begin_asks_name_unless_named_witness :
  (_quiz_expired sample_clock sample_fromisoformat 100 1 sample_world).1 = Ok None ∧
  None ≠ Some true ∧
  let w' := exec (cb_start_quiz sample_clock sample_fromisoformat 100 6 (Some 1)) sample_world in
  store w' = store sample_world ∧
  match participant_of (store sample_world) 100 6 1 with
  | None =>
      (100, 6, 1) ∈ pending_names w' ∧
      outbox w' = outbox sample_world ++ [CbAnswer PopNone false; BotSendMessage 100 (TxtAskName 6)]
  | Some _ =>
      pending_names w' = pending_names sample_world ∧
      outbox w' = outbox sample_world ++ [CbAnswer PopGoodLuck false]
  end.
Proof.
  assert ((_quiz_expired sample_clock sample_fromisoformat 100 1 sample_world).1 = Ok None)
    as Hx by reflexivity.
  assert (None ≠ Some true) as Hv by discriminate.
  split; [exact Hx|]. split; [exact Hv|].
  exact (begin_asks_name_unless_named sample_clock sample_fromisoformat 100 6 1
           sample_world None Hx Hv).
Defined.

(** C6, counterexample to the claim as it was stated: the session is not
    expired, user 5 has a name already, and the begin event marks nothing
    and asks for nothing. *)
Lemma begin_of_named_participant :
  (_quiz_expired sample_clock sample_fromisoformat 100 1 sample_world).1 = Ok None ∧
  pending_names (exec (cb_start_quiz sample_clock sample_fromisoformat 100 5 (Some 1))
                   sample_world) = [] ∧
  outbox (exec (cb_start_quiz sample_clock sample_fromisoformat 100 5 (Some 1)) sample_world)
  = [CbAnswer PopGoodLuck false].
Proof. vm_compute. done. Qed.

(** C7, witness: user 5 picks index 7 of question 2, which has two options. *)
Lemma missing_option_is_graded_wrong_witness :
  option_of (store sample_world) 2 7 = None ∧
  let w' := exec (on_answer sample_clock sample_isoformat sample_fromisoformat
                    "" "" "" "" 100 5 2 7 0) sample_world in
  (question_by_id (store sample_world) 2 = None →
   store w' = store sample_world ∧ journal w' = journal sample_world ∧
   (¬ ((0:Z) ≠ 0 ∧ (5:Z) ≠ 0) →
    outbox w' = outbox sample_world ++ [CbAnswer PopQuestionMissing true])) ∧
  (passes_gates sample_clock sample_fromisoformat sample_world 100 5 2 0 →
   response_of (store sample_world) 100 5 2 = None →
   ∃ ts, responses (store w') =
         responses (store sample_world) ++
         [ {| r_chat_id := 100; r_user_id := 5; r_question_id := 2;
              r_option_index := 7; r_is_correct := 0; r_answered_at := ts |} ]).
Proof.
  assert (option_of (store sample_world) 2 7 = None) as Ho by reflexivity.
  split; [exact Ho|].
  exact (missing_option_is_graded_wrong sample_clock sample_isoformat sample_fromisoformat
           "" "" "" "" 100 5 2 7 0 sample_world Ho).
Defined.

(** C7, counterexample to the claim as it was stated: question 2 has no
    option 7, and the answer is stored all the same, graded wrong. *)
Lemma answer_without_option_is_stored :
  option_of (store sample_world) 2 7 = None ∧
  responses (store (exec (on_answer sample_clock sample_isoformat sample_fromisoformat
                            "" "" "" "" 100 5 2 7 0) sample_world))
  = [ {| r_chat_id := 100; r_user_id := 5; r_question_id := 2; r_option_index := 7;
         r_is_correct := 0; r_answered_at := "2024-01-01T00:00:00+00:00" |} ].
Proof. vm_compute. done. Qed.

(** C8, witness: nobody has created quiz 9. *)
Lemma invalid_publish_changes_nothing_witness :
  legacy_migrated (store sample_world) ∧
  ¬ publishable (store sample_world) 9 ∧
  let w' := exec (_do_publish sample_transport 100 9 None) sample_world in
  store w' = store sample_world ∧ journal w' = journal sample_world ∧
  pending_names w' = pending_names sample_world ∧
  outbox w' = outbox sample_world ++ [BotSendMessage 100 TxtInvalidQuiz] ∧
  filter (λ e, is_unit e = true) (outbox w') =
  filter (λ e, is_unit e = true) (outbox sample_world).
Proof.
  assert (legacy_migrated (store sample_world)) as Hm.
  { unfold legacy_migrated. repeat constructor; by left. }
  assert (¬ publishable (store sample_world) 9) as Hno.
  { intros [Hz _]. apply publishable_quiz in Hz. vm_compute in Hz. by destruct Hz. }
  split; [exact Hm|]. split; [exact Hno|].
  exact (invalid_publish_changes_nothing sample_transport 100 9 None sample_world Hm Hno).
Defined.

(** C4, witness: quiz 2, whose three questions share bundle 2. *)
Lemma shared_bundle_sent_once_witness :
  publishable (store sample_world) 2 ∧
  Exists (λ q, refers_to q 2) (questions_of_quiz (store sample_world) 2) ∧
  let w' := exec (_do_publish sample_transport 100 2 None) sample_world in
  let qs := questions_of_quiz (store sample_world) 2 in
  let atts := get_bundle_atts (store sample_world) 2 in
  StronglySorted (λ q q', q_id q ≤ q_id q') qs ∧
  StronglySorted (λ a a', att_position a ≤ att_position a') atts ∧
  ∃ sent,
    outbox w' = outbox sample_world ++ sent ∧
    bundle_units 2 sent = (λ att, attachment_unit 100 att None None) <$> atts ∧
    ∃ pre us qu post qs1 q qs2,
      sent = pre ++ us ++ qu ++ post ∧
      qs = qs1 ++ q :: qs2 ∧
      refers_to q 2 ∧ Forall (λ q', ¬ refers_to q' 2) qs1 ∧
      bundle_sends (store sample_world) 100 2 us ∧
      question_sends q qu ∧
      bundle_units 2 pre = [] ∧ bundle_units 2 post = [].
Proof.
  assert (publishable (store sample_world) 2) as Hp.
  { split; [apply publishable_quiz; by_evaluation|]. vm_compute. discriminate. }
  assert (Exists (λ q, refers_to q 2) (questions_of_quiz (store sample_world) 2)) as Hex.
  { apply Exists_exists. exists (sample_question 3 2 "Longest river?" (Some 2)).
    split; [|by split]. apply (bool_decide_unpack _). vm_compute. exact I. }
  split; [exact Hp|]. split; [exact Hex|].
  exact (shared_bundle_sent_once sample_transport 100 2 None sample_world 2 Hp Hex).
Defined.

(** The pass of that witness, unit by unit: the announcement, the photo of
    bundle 2 once, then the three questions. *)
Example shared_bundle_on_sample :
  (λ e, match e with SafeSend o u _ => Some (o, out_body u) | _ => None end)
    <$> outbox (exec (_do_publish sample_transport 100 2 None) sample_world)
  = [ Some (OfHead, HeadText "Rivers" None);
      Some (OfBundle 2, FileId "file-rivers");
      Some (OfQuestion 3, PlainText "Longest river?");
      Some (OfQuestion 4, PlainText "River through Cairo?");
      Some (OfQuestion 5, PlainText "River through Vienna?") ].
Proof. vm_compute. reflexivity. Qed.

(** C3, witness: the owner, user 7, publishes quiz 1 in chat 100 for one
    hour at 00:00; the session is open at 00:59 and expired at 01:01. *)
Definition sample_published : world :=
  exec (cb_pub_custom_hours sample_clock sample_isoformat 7 sample_transport 100 7 1 (Some 1))
    sample_world.

Definition sample_later (minutes : nat) : world :=
  {| store := store sample_published; pending_names := []; ticks := minutes;
     api_calls := api_calls sample_published; outbox := []; journal := [] |}.

Lemma session_expiry_witness :
  (_quiz_expired sample_clock sample_fromisoformat 100 1 (sample_later 59)).1 = Ok (Some false) ∧
  (_quiz_expired sample_clock sample_fromisoformat 100 1 (sample_later 61)).1 = Ok (Some true).
Proof.
  assert (publishable (store sample_world) 1) as Hp.
  { split; [apply publishable_quiz; by_evaluation|]. vm_compute. discriminate. }
  assert (sent_msgs (store sample_published) ≠ sent_msgs (store sample_world)) as Hchg
    by (vm_compute; discriminate).
  assert (sample_isoformat (sample_clock 0 + hours_us 1) ≠ EmptyString) as Hne
    by (vm_compute; discriminate).
  assert (sample_fromisoformat (sample_isoformat (sample_clock 0 + hours_us 1))
          = Some (Aware (sample_clock 0 + hours_us 1))) as Hf by (vm_compute; reflexivity).
  assert (∀ minutes,
            expiry_rows (store (sample_later minutes)) 100 1
            = expiry_rows (store sample_published) 100 1) as Hrows by reflexivity.
  split.
  - refine (proj1 (proj2 (proj2 (proj2 (proj2 (proj2
      (session_expiry sample_clock sample_isoformat sample_fromisoformat 7
         "" "" "" "" sample_transport 100 1 (sample_later 59))))))
      sample_world Hp Hchg Hne Hf (Hrows 59%nat)) _).
    vm_compute. reflexivity.
  - refine (proj2 (proj2 (proj2 (proj2 (proj2 (proj2
      (session_expiry sample_clock sample_isoformat sample_fromisoformat 7
         "" "" "" "" sample_transport 100 1 (sample_later 61))))))
      sample_world Hp Hchg Hne Hf (Hrows 61%nat)) _).
    vm_compute. reflexivity.
Defined.

(** The timestamps of that witness as the store holds them. *)
Example expiry_on_sample :
  s_expires_at <$> sent_msgs (store sample_published)
  = replicate 5 (Some "2024-01-01T01:00:00+00:00").
Proof. vm_compute. reflexivity. Qed.

(** * The further properties on the sample stores *)

(** The desk of the owner in the middle of a bulk import into quiz 1. *)
Definition sample_desk : desk :=
  {| world_of := sample_world;
     build_session := {| bs_quiz_id := None; tmp_question_id := None;
                         options_needed := 0; options_collected := 0; att_count := 0 |};
     fsm_state := Some "BulkStates:waiting_csv";
     fsm_data := {[ "quiz_id" := Some 1 ]};
     screen := [] |}.

(** X1, witness: the legacy question gets its photo and its voice note. *)
Lemma migrate_legacy_media_outcome_witness :
  questions_pk (store sample_legacy) ∧
  sample_legacy_question ∈ questions (store sample_legacy) ∧
  let d := store sample_legacy in
  let d' := store (exec migrate_legacy_media sample_legacy) in
  get_question_atts d' (q_id sample_legacy_question) =
    (if decide (get_question_atts d (q_id sample_legacy_question) = [])
     then legacy_atts sample_legacy_question
     else get_question_atts d (q_id sample_legacy_question)) ∧
  ∃ added, d' = set_question_attachments (question_attachments d ++ added) d.
Proof.
  assert (questions_pk (store sample_legacy)) as Hpk by (unfold questions_pk; by_evaluation).
  assert (sample_legacy_question ∈ questions (store sample_legacy)) as Hq by by_evaluation.
  split; [exact Hpk|]. split; [exact Hq|].
  exact (migrate_legacy_media_outcome sample_legacy sample_legacy_question Hpk Hq).
Defined.

(** The attachments of that question after the migration. *)
Example migrate_on_sample :
  get_question_atts (store (exec migrate_legacy_media sample_legacy)) 1
  = [ sample_att 1 "photo" "file-flag" 0; sample_att 1 "voice" "file-anthem" 1 ].
Proof. vm_compute. reflexivity. Qed.

(** X4, witness: the owner asks for 500 hours. *)
Lemma custom_hours_rejected_witness :
  (7 ≠ 7 ∨ (∀ h, Some 500 = Some h → h ≤ 0 ∨ 240 < h)) ∧
  let w' := exec (cb_pub_custom_hours sample_clock sample_isoformat 7 sample_transport
                    100 7 1 (Some 500)) sample_world in
  store w' = store sample_world ∧ journal w' = journal sample_world ∧
  api_calls w' = api_calls sample_world ∧
  ticks w' = ticks sample_world ∧ pending_names w' = pending_names sample_world ∧
  outbox w' = outbox sample_world ++
    (if decide (7 = 7) then [MsgReply TxtBadHours]
     else [MsgReply TxtOwnerOnly; StateClear]).
Proof.
  assert (7 ≠ 7 ∨ (∀ h, Some 500 = Some h → h ≤ 0 ∨ 240 < h)) as Hrej.
  { right. intros h [= <-]. right. lia. }
  split; [exact Hrej|].
  exact (custom_hours_rejected sample_clock sample_isoformat 7 sample_transport
           100 7 1 (Some 500) sample_world Hrej).
Defined.




(** X11, witness: a question with two options for quiz 1. *)
Lemma insert_question_with_data_reads_witness :
  owned_in_range (store sample_world) ∧
  let qid := qbound (store sample_world) + 1 in
  ∃ w',
    insert_question_with_data sample_clock sample_isoformat 1 "Capital of Peru?"
      ["Lima"; "Quito"] 0 [("photo", "file-lima")] sample_world = (Ok qid, w') ∧
    (¬ qid ∈ (q_id <$> questions (store sample_world))) ∧
    questions (store w') =
      questions (store sample_world) ++
      [ {| q_id := qid; q_quiz_id := 1; q_text := "Capital of Peru?";
           q_created_at := sample_isoformat (sample_clock (ticks sample_world));
           q_media_bundle_id := None;
           q_photo := None; q_audio := None; q_audio_is_voice := Some 0 |} ] ∧
    options_for_question (store w') qid = numbered_options qid 0 ["Lima"; "Quito"] ∧
    get_question_atts (store w') qid =
      numbered_attachments qid (take 5 [("photo", "file-lima")]) ∧
    (0 ≤ 0 < Z.of_nat (length ["Lima"; "Quito"]) →
     length (correct_options (store w') qid) = 1%nat) ∧
    (∀ q', q' ≠ qid →
      options_for_question (store w') q' = options_for_question (store sample_world) q' ∧
      get_question_atts (store w') q' = get_question_atts (store sample_world) q').
Proof.
  assert (owned_in_range (store sample_world)) as Hown.
  { split; repeat constructor; vm_compute; discriminate. }
  split; [exact Hown|].
  exact (insert_question_with_data_reads sample_clock sample_isoformat 1 "Capital of Peru?"
           ["Lima"; "Quito"] 0 [("photo", "file-lima")] sample_world Hown).
Defined.

(** X12, witness: the sample CSV text, imported into quiz 1. *)
Lemma bulk_import_adds_well_formed_witness :
  fsm_data sample_desk !! "quiz_id" = Some (Some 1) ∧
  owned_in_range (store (world_of sample_desk)) ∧
  let k' := at_desk (_consume_bulk_csv_text sample_clock sample_isoformat sample_strip
                       sample_strip sample_int sample_DictReader sample_csv) sample_desk in
  let d := store (world_of sample_desk) in
  let d' := store (world_of k') in
  ∃ news errors,
    screen k' = screen sample_desk ++
      [Reply (NoteImported (length news) (length errors) (take 10 errors)) OwnerPanel] ∧
    (length news + length errors = length (sample_DictReader sample_csv))%nat ∧
    fsm_state k' = None ∧ fsm_data k' = ∅ ∧
    questions d' = questions d ++ news ∧
    Forall (λ q, qbound d < q_id q ∧ imported d' 1 q) news ∧
    ∀ q, q ≤ qbound d →
      options_for_question d' q = options_for_question d q ∧
      get_question_atts d' q = get_question_atts d q.
Proof.
  assert (fsm_data sample_desk !! "quiz_id" = Some (Some 1)) as Hd
    by (vm_compute; reflexivity).
  assert (owned_in_range (store (world_of sample_desk))) as Hown.
  { split; repeat constructor; vm_compute; discriminate. }
  split; [exact Hd|]. split; [exact Hown|].
  exact (bulk_import_adds_well_formed sample_clock sample_isoformat sample_strip
           sample_strip sample_int sample_DictReader sample_csv 1 sample_desk Hd Hown).
Defined.

(** The report of that import: one question imported, two lines rejected. *)
Example bulk_import_on_sample :
  screen (at_desk (_consume_bulk_csv_text sample_clock sample_isoformat sample_strip
                     sample_strip sample_int sample_DictReader sample_csv) sample_desk)
  = [ Reply (NoteImported 1 2 [ Rejected (OptionCount 3 1); Rejected (CorrectNotNumber 4) ])
        OwnerPanel ].
Proof. vm_compute. reflexivity. Qed.

(** The desk of the owner who has just given the text of a new question,
    which got the id 6 and has no options yet. *)
Definition sample_building : desk :=
  {| world_of := sample_world;
     build_session := {| bs_quiz_id := Some 1; tmp_question_id := Some 6;
                         options_needed := 0; options_collected := 0; att_count := 0 |};
     fsm_state := Some "BuildStates:waiting_options_count";
     fsm_data := ∅;
     screen := [] |}.

(** X13, witness: two options for question 6, the first one correct. *)
Lemma new_options_have_one_correct_witness :
  tmp_question_id (build_session sample_building) = Some 6 ∧
  options_for_question (store (world_of sample_building)) 6 = [] ∧
  2 ≤ 2 ≤ 10 ∧ Z.of_nat (length ["Lima"; "Quito"]) = 2 ∧ 1 ≤ 1 ≤ 2 ∧
  ∃ k',
    (receive_options_count 7 7 (Some 2);;
     for_each_message ["Lima"; "Quito"] (receive_option_text sample_strip 7 7);;
     receive_correct_index 7 7 (Some 1)) sample_building = (Done (), k') ∧
    let d := store (world_of sample_building) in
    let d' := store (world_of k') in
    options_for_question d' 6 = numbered_options 6 (1 - 1) (sample_strip <$> ["Lima"; "Quito"]) ∧
    length (correct_options d' 6) = 1%nat ∧
    (∀ q, q ≠ 6 → options_for_question d' q = options_for_question d q) ∧
    questions d' = questions d ∧
    fsm_state k' = None ∧ fsm_data k' = ∅.
Proof.
  assert (tmp_question_id (build_session sample_building) = Some 6) as Htmp by reflexivity.
  assert (options_for_question (store (world_of sample_building)) 6 = []) as Hnone
    by (vm_compute; reflexivity).
  assert (2 ≤ 2 ≤ 10) as Hn by lia.
  assert (Z.of_nat (length ["Lima"; "Quito"]) = 2) as Hlen by reflexivity.
  assert (1 ≤ 1 ≤ 2) as Hi by lia.
  repeat (split; [assumption|]).
  exact (new_options_have_one_correct sample_strip 7 6 2 ["Lima"; "Quito"] 1 sample_building
           Htmp Hnone Hn Hlen Hi).
Defined.

(** X14, witness: question 1 of the sample store gets three new options,
    the second one correct. *)
Lemma edited_options_replace_old_witness :
  2 ≤ 3 ≤ 10 ∧ Z.of_nat (length ["Lyon"; "Paris"; "Nice"]) = 3 ∧ 1 ≤ 2 ≤ 3 ∧
  ∃ k',
    (cb_m_edit_opts 1 1 0;;
     m_opts_count 7 7 (Some 3);;
     for_each_message ["Lyon"; "Paris"; "Nice"] (m_opts_text sample_strip 7 7);;
     m_opts_correct 7 7 (Some 2)) sample_desk = (Done (), k') ∧
    let d := store (world_of sample_desk) in
    let d' := store (world_of k') in
    options d' =
      filter (λ o, o_question_id o ≠ 1) (options d) ++
      numbered_options 1 (2 - 1) (sample_strip <$> ["Lyon"; "Paris"; "Nice"]) ∧
    options_for_question d' 1 =
      numbered_options 1 (2 - 1) (sample_strip <$> ["Lyon"; "Paris"; "Nice"]) ∧
    length (correct_options d' 1) = 1%nat ∧
    (∀ q, q ≠ 1 → options_for_question d' q = options_for_question d q) ∧
    questions d' = questions d ∧ responses d' = responses d ∧
    fsm_state k' = None ∧ fsm_data k' = ∅.
Proof.
  assert (2 ≤ 3 ≤ 10) as Hn by lia.
  assert (Z.of_nat (length ["Lyon"; "Paris"; "Nice"]) = 3) as Hlen by reflexivity.
  assert (1 ≤ 2 ≤ 3) as Hc by lia.
  repeat (split; [assumption|]).
  exact (edited_options_replace_old sample_strip 7 1 1 0 3 ["Lyon"; "Paris"; "Nice"] 2
           sample_desk Hn Hlen Hc).
Defined.

(** The options of question 1 after that. *)
Example edited_options_on_sample :
  options_for_question
    (store (world_of (at_desk (cb_m_edit_opts 1 1 0;;
                               m_opts_count 7 7 (Some 3);;
                               for_each_message ["Lyon"; "Paris"; "Nice"]
                                 (m_opts_text sample_strip 7 7);;
                               m_opts_correct 7 7 (Some 2)) sample_desk))) 1
  = [ sample_option 1 0 "Lyon" 0; sample_option 1 1 "Paris" 1; sample_option 1 2 "Nice" 0 ].
Proof. vm_compute. reflexivity. Qed.

(** The desk of the owner who is about to give the text of a new question
    of quiz 1. *)
Definition sample_adding : desk :=
  {| world_of := sample_world;
     build_session := {| bs_quiz_id := Some 1; tmp_question_id := None;
                         options_needed := 0; options_collected := 0; att_count := 0 |};
     fsm_state := Some "BuildStates:waiting_q_text";
     fsm_data := ∅;
     screen := [] |}.

Definition sample_files : list media :=
  [ Photo "file-1"; Voice "file-2"; OtherMedia; Audio "file-3";
    Photo "file-4"; Photo "file-5"; Photo "file-6" ].


(** The attachments of the new question: the unsupported message and the
    two last files are not among them. *)
Example new_question_on_sample :
  get_question_atts
    (store (world_of (at_desk
       (receive_q_text sample_clock sample_isoformat sample_strip 7 7 "Capital of Peru?";;
        choose_attach_mode "own";;
        for_each_message sample_files (receive_attachment 7 7)) sample_adding))) 6
  = [ sample_att 6 "photo" "file-1" 0; sample_att 6 "voice" "file-2" 1;
      sample_att 6 "audio" "file-3" 2; sample_att 6 "photo" "file-4" 3;
      sample_att 6 "photo" "file-5" 4 ].
Proof. vm_compute. reflexivity. Qed.

(** X16, witness: seven messages for a new bundle of quiz 1. *)
Lemma new_bundle_takes_five_files_witness :
  Forall (λ a, att_owner a ≤ bbound (store (world_of sample_desk)))
    (media_bundle_attachments (store (world_of sample_desk))) ∧
  ∃ k',
    (bundles_for_quiz sample_clock sample_isoformat 1;;
     for_each_message sample_files (bundle_add_file 7 7)) sample_desk = (Done (), k') ∧
    let d := store (world_of sample_desk) in
    let d' := store (world_of k') in
    let b := bbound d + 1 in
    media_bundles d' =
      media_bundles d ++
      [ {| b_id := b; b_quiz_id := 1;
           b_created_at := sample_isoformat (sample_clock (ticks (world_of sample_desk))) |} ] ∧
    get_bundle_atts d' b = numbered_attachments b (take 5 (omap kind_and_file sample_files)) ∧
    (length (get_bundle_atts d' b) ≤ 5)%nat ∧
    (∀ b', b' ≠ b → get_bundle_atts d' b' = get_bundle_atts d b') ∧
    questions d' = questions d ∧
    question_attachments d' = question_attachments d.
Proof.
  assert (Forall (λ a, att_owner a ≤ bbound (store (world_of sample_desk)))
            (media_bundle_attachments (store (world_of sample_desk)))) as Hown.
  { repeat constructor; vm_compute; discriminate. }
  split; [exact Hown|].
  exact (new_bundle_takes_five_files sample_clock sample_isoformat 7 1 sample_files
           sample_desk Hown).
Defined.

(** X17, witness: question 2 of the sample store gets a voice note in the
    place of its photo. *)
Lemma replaced_attachments_witness :
  fsm_data sample_desk !! "pos" = None ∧ [Voice "file-fjord"] ≠ [] ∧
  ∃ k',
    (cb_m_edit_media 1 2 0;;
     for_each_message [Voice "file-fjord"] (ch_media_collect 7 7)) sample_desk = (Done (), k') ∧
    let d := store (world_of sample_desk) in
    let d' := store (world_of k') in
    question_attachments d' =
      filter (λ a, att_owner a ≠ 2) (question_attachments d) ++
      numbered_attachments 2 (take 5 (omap kind_and_file [Voice "file-fjord"])) ∧
    get_question_atts d' 2 =
      numbered_attachments 2 (take 5 (omap kind_and_file [Voice "file-fjord"])) ∧
    (∀ q, q ≠ 2 → get_question_atts d' q = get_question_atts d q) ∧
    questions d' = questions d ∧ options d' = options d.
Proof.
  assert (fsm_data sample_desk !! "pos" = None) as Hfresh by (vm_compute; reflexivity).
  assert ([Voice "file-fjord"] ≠ []) as Hfiles by discriminate.
  repeat (split; [assumption|]).
  exact (replaced_attachments 7 1 2 0 [Voice "file-fjord"] sample_desk Hfresh Hfiles).
Defined.

(** X18, witness: the owner sends a photo for question 1, and without
    ending turns to question 2 and sends a voice note. *)
Lemma unfinished_replacement_carries_over_witness :
  fsm_data sample_desk !! "pos" = None ∧ 1 ≠ 2 ∧
  take 5 (omap kind_and_file [Photo "file-seine"]) ≠ [] ∧
  ∃ k',
    (cb_m_edit_media 1 1 0;;
     for_each_message [Photo "file-seine"] (ch_media_collect 7 7);;
     cb_m_edit_media 1 2 0;;
     for_each_message [Voice "file-fjord"] (ch_media_collect 7 7)) sample_desk = (Done (), k') ∧
    let d := store (world_of sample_desk) in
    let d' := store (world_of k') in
    let acc1 := take 5 (omap kind_and_file [Photo "file-seine"]) in
    question_attachments d' =
      (filter (λ a, att_owner a ≠ 1) (question_attachments d) ++
       numbered_attachments 1 acc1) ++
      attachments_from 2 (Z.of_nat (length acc1))
        (take (5 - length acc1) (omap kind_and_file [Voice "file-fjord"])) ∧
    (∀ a, a ∈ question_attachments d → att_owner a = 2 → a ∈ question_attachments d').
Proof.
  assert (fsm_data sample_desk !! "pos" = None) as Hfresh by (vm_compute; reflexivity).
  assert ((1 : Z) ≠ 2) as Hne by discriminate.
  assert (take 5 (omap kind_and_file [Photo "file-seine"]) ≠ []) as Hacc by discriminate.
  repeat (split; [assumption|]).
  exact (unfinished_replacement_carries_over 7 1 1 0 [Photo "file-seine"] 1 2 0
           [Voice "file-fjord"] sample_desk Hfresh Hne Hacc).
Defined.

(** Question 2 after that: the old photo, and the voice note behind it. *)
Example unfinished_replacement_on_sample :
  get_question_atts
    (store (world_of (at_desk
       (cb_m_edit_media 1 1 0;;
        for_each_message [Photo "file-seine"] (ch_media_collect 7 7);;
        cb_m_edit_media 1 2 0;;
        for_each_message [Voice "file-fjord"] (ch_media_collect 7 7)) sample_desk))) 2
  = [ sample_att 2 "photo" "file-oslo" 0; sample_att 2 "voice" "file-fjord" 1 ].
Proof. vm_compute. reflexivity. Qed.

(** X19, witness: the owner opens the options of question 1, then picks
    quiz 2 to add a question to, and writes a text. *)
Lemma question_id_in_data_makes_an_edit_witness :
  cb_m_edit_opts 1 1 0 ∈ [ cb_m_edit_text 1 1 0; cb_m_edit_opts 1 1 0; cb_m_edit_media 1 1 0 ] ∧
  (1 : Z) ≠ 0 ∧
  ∃ k',
    (cb_m_edit_opts 1 1 0;;
     for_each_message [2] picked_quiz_for_addq;;
     receive_q_text sample_clock sample_isoformat sample_strip 7 7 "Longest river of Asia?")
      sample_desk = (Done (), k') ∧
    let d := store (world_of sample_desk) in
    let d' := store (world_of k') in
    d' = update_question_text 1 (sample_strip "Longest river of Asia?") d ∧
    q_id <$> questions d' = q_id <$> questions d ∧
    (∀ q, q ∈ questions d' → q_id q = 1 → q_text q = sample_strip "Longest river of Asia?") ∧
    (∀ q, q_id q ≠ 1 → q ∈ questions d' ↔ q ∈ questions d) ∧
    fsm_state k' = None ∧ fsm_data k' = ∅.
Proof.
  assert (cb_m_edit_opts 1 1 0 ∈
            [ cb_m_edit_text 1 1 0; cb_m_edit_opts 1 1 0; cb_m_edit_media 1 1 0 ]) as Henter
    by (apply elem_of_cons; right; apply elem_of_cons; by left).
  assert ((1 : Z) ≠ 0) as Hnz by discriminate.
  repeat (split; [assumption|]).
  exact (question_id_in_data_makes_an_edit sample_clock sample_isoformat sample_strip 7
           (cb_m_edit_opts 1 1 0) 1 1 0 [2] "Longest river of Asia?" sample_desk Henter Hnz).
Defined.

(** The questions after that: quiz 2 has no new question, and question 1
    of quiz 1 has the text. *)
Example stale_question_id_on_sample :
  (λ q, (q_id q, q_quiz_id q, q_text q)) <$>
    questions (store (world_of (at_desk
      (cb_m_edit_opts 1 1 0;;
       for_each_message [2] picked_quiz_for_addq;;
       receive_q_text sample_clock sample_isoformat sample_strip 7 7 "Longest river of Asia?")
      sample_desk)))
  = [ (1, 1, "Longest river of Asia?"); (2, 1, "Capital of Norway?");
      (3, 2, "Longest river?"); (4, 2, "River through Cairo?");
      (5, 2, "River through Vienna?") ].
Proof. vm_compute. reflexivity. Qed.

(** X20, witness: quiz 2 of the sample store is deleted, and a quiz is
    created. *)
Lemma deleted_quiz_leaves_its_questions_witness :
  2 ≤ zbound (store (world_of sample_desk)) ∧
  Forall (λ q, q_quiz_id q ≤ zbound (store (world_of sample_desk)))
    (questions (store (world_of sample_desk))) ∧
  ∃ k',
    (cb_del_quiz_do 2;;
     receive_title sample_clock sample_isoformat sample_strip 7 7 "Lakes") sample_desk
      = (Done (), k') ∧
    let d := store (world_of sample_desk) in
    let d' := store (world_of k') in
    let id := zbound d + 1 in
    bs_quiz_id (build_session k') = Some id ∧
    quizzes d' =
      filter (λ z, qz_id z ≠ 2) (quizzes d) ++
      [ {| qz_id := id; qz_title := sample_strip "Lakes"; qz_created_by := 7;
           qz_created_at := sample_isoformat (sample_clock (ticks (world_of sample_desk)));
           qz_is_archived := 0 |} ] ∧
    quiz_by_id d' 2 = None ∧
    questions d' = questions d ∧ options d' = options d ∧
    question_attachments d' = question_attachments d ∧
    media_bundles d' = media_bundles d ∧
    media_bundle_attachments d' = media_bundle_attachments d ∧
    responses d' = responses d ∧ participant_names d' = participant_names d ∧
    get_quiz_question_ids d' 2 = get_quiz_question_ids d 2 ∧
    get_quiz_question_ids d' id = [].
Proof.
  assert (2 ≤ zbound (store (world_of sample_desk))) as Hquiz by (vm_compute; discriminate).
  assert (Forall (λ q, q_quiz_id q ≤ zbound (store (world_of sample_desk)))
            (questions (store (world_of sample_desk)))) as Hrefs.
  { repeat constructor; vm_compute; discriminate. }
  repeat (split; [assumption|]).
  exact (deleted_quiz_leaves_its_questions sample_clock sample_isoformat sample_strip 7 2
           "Lakes" sample_desk Hquiz Hrefs).
Defined.

(** The quizzes after that, and the questions that quiz 2 has left. *)
Example deleted_quiz_on_sample :
  let d' := store (world_of (at_desk
              (cb_del_quiz_do 2;;
               receive_title sample_clock sample_isoformat sample_strip 7 7 "Lakes")
              sample_desk)) in
  qz_id <$> quizzes d' = [1; 3] ∧ get_quiz_question_ids d' 2 = [3; 4; 5].
Proof. vm_compute. split; reflexivity. Qed.
